(** * Stellar White Belt: the split settlement and balance protection modules

    A shallow embedding of [src/split.js] and [src/balance.js] and of
    the two click handlers of [src/main.js] that drive them.

    - JavaScript strings are sequences of UTF-16 code units.
    - JavaScript numbers are IEEE 754 binary64 values, computed with the
      Standard Library's [SpecFloat] ([prec = 53], [emax = 1024]); what a
      rounding loses is measured over the rationals.
    - The ledger service (Horizon), the wallet (Freighter) and the
      transaction builder of the SDK are collaborators: a record of
      functions over an abstract world, so that every theorem holds for
      every behaviour they can show.
    - [async] code runs in a small monad over the world, a log of the
      observable calls, and a completion that is a value, a thrown value
      or a promise that never settles. *)

From Stdlib Require Import List ZArith NArith Bool Lia String Ascii.
From Stdlib Require Import SpecFloat.
From Stdlib Require Import Sorted.
From Stdlib Require Import QArith Qabs Qpower Lqa.
Import ListNotations.
Close Scope Q_scope.

Set Implicit Arguments.

(** ** Strings *)

Module JsString.

Definition code_unit := N.
Definition jstring := list code_unit.

(** A literal of the source, one code unit per character. *)
Fixpoint js (s : string) : jstring :=
  match s with
  | EmptyString => []
  | String c s' => N_of_ascii c :: js s'
  end.

Definition length (s : jstring) : nat := List.length s.

Fixpoint eqb (s t : jstring) : bool :=
  match s, t with
  | [], [] => true
  | c :: s', d :: t' => N.eqb c d && eqb s' t'
  | _, _ => false
  end.

(** [WhiteSpace] and [LineTerminator] of ECMAScript: what [trim] and
    [parseFloat] strip. *)
Definition is_white_space (c : code_unit) : bool :=
  ((9 <=? c) && (c <=? 13) || (c =? 32) || (c =? 160) || (c =? 5760)
   || (8192 <=? c) && (c <=? 8202) || (c =? 8232) || (c =? 8233)
   || (c =? 8239) || (c =? 8287) || (c =? 12288) || (c =? 65279))%N.

Fixpoint trimStart (s : jstring) : jstring :=
  match s with
  | c :: s' => if is_white_space c then trimStart s' else s
  | [] => []
  end.

Definition trimEnd (s : jstring) : jstring := rev (trimStart (rev s)).

(** [String.prototype.trim]. *)
Definition trim (s : jstring) : jstring := trimEnd (trimStart s).

(** [s.startsWith(p)]. *)
Fixpoint startsWith (s p : jstring) : bool :=
  match p, s with
  | [], _ => true
  | d :: p', c :: s' => N.eqb c d && startsWith s' p'
  | _ :: _, [] => false
  end.

(** [s.includes(p)]. *)
Fixpoint includes (s p : jstring) : bool :=
  startsWith s p ||
  match s with
  | [] => false
  | _ :: s' => includes s' p
  end.

(** [s.split(sep)] for a separator of one code unit. *)
Fixpoint split (sep : code_unit) (s : jstring) : list jstring :=
  match s with
  | [] => [[]]
  | c :: s' =>
      if N.eqb c sep then [] :: split sep s'
      else match split sep s' with
           | line :: lines => (c :: line) :: lines
           | [] => [[c]]
           end
  end.

(** [parts.join(sep)]. *)
Fixpoint join (sep : jstring) (parts : list jstring) : jstring :=
  match parts with
  | [] => []
  | [p] => p
  | p :: rest => p ++ sep ++ join sep rest
  end.

(** A string is truthy when it is not empty. *)
Definition truthy (s : jstring) : bool :=
  match s with [] => false | _ :: _ => true end.

End JsString.
Import JsString.

(** ** Numbers *)

Module JsNumber.

Definition prec : Z := 53.
Definition emax : Z := 1024.

Definition number := spec_float.

Definition NaN : number := S754_nan.
Definition of_Z (z : Z) : number := binary_normalize prec emax z 0 false.
Definition of_nat (n : nat) : number := of_Z (Z.of_nat n).

Definition add : number -> number -> number := SFadd prec emax.
Definition sub : number -> number -> number := SFsub prec emax.
Definition mul : number -> number -> number := SFmul prec emax.
Definition div : number -> number -> number := SFdiv prec emax.
Definition abs : number -> number := SFabs.

(** [a < b], [a <= b] and [a >= b]: all false when a side is NaN. *)
Definition lt (a b : number) : bool := SFltb a b.
Definition le (a b : number) : bool := SFleb a b.
Definition ge (a b : number) : bool := SFleb b a.

(** [ToBoolean]: zero of either sign and NaN are falsy. *)
Definition truthy (x : number) : bool :=
  match x with
  | S754_zero _ | S754_nan => false
  | _ => true
  end.

(** The binary64 value nearest to [m * 10 ^ e10] (ties to even), the
    value of a decimal literal. *)
Definition of_decimal (neg : bool) (m : N) (e10 : Z) : number :=
  match m with
  | N0 => S754_zero neg
  | Npos p =>
      if (0 <=? e10)%Z
      then binary_normalize prec emax
             ((if neg then Z.neg p else Z.pos p) * 10 ^ e10) 0 false
      else div (S754_finite neg p 0)
               (S754_finite false (Z.to_pos (10 ^ (- e10))) 0)
  end.

(** *** [parseFloat] on a string *)

Definition is_digit (c : code_unit) : bool := ((48 <=? c) && (c <=? 57))%N.

(** The longest run of decimal digits at the head, and what follows. *)
Fixpoint digits (s : jstring) : list N * jstring :=
  match s with
  | c :: s' =>
      if is_digit c
      then let (ds, r) := digits s' in ((c - 48)%N :: ds, r)
      else ([], s)
  | [] => ([], [])
  end.

Definition digits_value (ds : list N) : N :=
  fold_left (fun acc d => (10 * acc + d)%N) ds 0%N.

(** [ExponentPart], when the head is a complete one; 0 otherwise. *)
Definition exponent_part (s : jstring) : Z :=
  match s with
  | c :: s' =>
      if ((c =? 101) || (c =? 69))%N then
        let (neg, s'') :=
          match s' with
          | d :: t => if (d =? 45)%N then (true, t)
                      else if (d =? 43)%N then (false, t)
                      else (false, s')
          | [] => (false, s')
          end in
        match fst (digits s'') with
        | [] => 0%Z
        | ds => let v := Z.of_N (digits_value ds) in
                if neg then (- v)%Z else v
        end
      else 0%Z
  | [] => 0%Z
  end.

(** The longest prefix that is a [StrUnsignedDecimalLiteral]. *)
Definition unsigned_literal (neg : bool) (s : jstring) : number :=
  if startsWith s (js "Infinity") then S754_infinity neg
  else
    let (ints, r1) := digits s in
    let after_point :=
      match r1 with
      | c :: r => if (c =? 46)%N then Some (digits r) else None
      | [] => None
      end in
    match ints, after_point with
    | [], None => NaN
    | [], Some ([], _) => NaN
    | _, Some (fracs, r2) =>
        of_decimal neg (digits_value (ints ++ fracs))
          (exponent_part r2 - Z.of_nat (List.length fracs))
    | _, None =>
        of_decimal neg (digits_value ints) (exponent_part r1)
    end.

Definition parseFloat_string (s : jstring) : number :=
  match trimStart s with
  | c :: s' =>
      if (c =? 45)%N then unsigned_literal true s'
      else if (c =? 43)%N then unsigned_literal false s'
      else unsigned_literal false (c :: s')
  | [] => NaN
  end.

(** *** [Number.prototype.toFixed] *)

(** The decimal digits of a natural number, most significant first. *)
Fixpoint decimal_digits (fuel : nat) (n : N) (acc : jstring) : jstring :=
  match fuel with
  | O => acc
  | S fuel' =>
      let acc' := (48 + n mod 10)%N :: acc in
      if (n <? 10)%N then acc' else decimal_digits fuel' (n / 10)%N acc'
  end.

Definition N_to_string (n : N) : jstring :=
  decimal_digits (S (N.to_nat (N.log2 n))) n [].

(** The integer [n] for which [n / 10 ^ f - m * 2 ^ e] is closest to
    zero, the larger one when two are as close. *)
Definition scaled_nearest (m : positive) (e : Z) (f : nat) : N :=
  let p := (Z.pos m * 10 ^ Z.of_nat f)%Z in
  Z.to_N (if (0 <=? e)%Z then p * 2 ^ e
          else (2 * p + 2 ^ (- e)) / 2 ^ (- e + 1))%Z.

(** [m * 2 ^ e >= 10 ^ 21]. *)
Definition at_least_1e21 (m : positive) (e : Z) : bool :=
  if (0 <=? e)%Z then (10 ^ 21 <=? Z.pos m * 2 ^ e)%Z
  else (10 ^ 21 * 2 ^ (- e) <=? Z.pos m)%Z.

Definition fixed_digits (n : N) (f : nat) : jstring :=
  let m := N_to_string n in
  match f with
  | O => m
  | _ =>
      let m := repeat 48%N (S f - List.length m) ++ m in
      let k := List.length m in
      firstn (k - f) m ++ 46%N :: skipn (k - f) m
  end.

Section ToString.

(** [Number::toString] of ECMAScript, the shortest decimal that reads
    back as the number.  The functions below reach it only for a
    magnitude of 1e21 or more, and when [parseFloat] is given a
    number instead of a string. *)
Variable Number_toString : number -> jstring.

Definition toFixed (x : number) (f : nat) : jstring :=
  match x with
  | S754_nan => js "NaN"
  | S754_infinity false => js "Infinity"
  | S754_infinity true => js "-Infinity"
  | S754_zero _ => fixed_digits 0 f
  | S754_finite s m e =>
      (if s then js "-" else []) ++
      (if at_least_1e21 m e then Number_toString (S754_finite false m e)
       else fixed_digits (scaled_nearest m e f) f)
  end.

End ToString.

End JsNumber.
Import JsNumber.

(** ** Values, thrown values and completions *)

(** The arguments a caller can hand to the exported functions: a string
    (what the form fields hold), a number, or nothing. *)
Inductive js_value :=
| JsUndefined
| JsNumber (x : number)
| JsString (s : jstring).

Definition truthy (v : js_value) : bool :=
  match v with
  | JsUndefined => false
  | JsNumber x => JsNumber.truthy x
  | JsString s => JsString.truthy s
  end.

(** What the [message] property of a thrown object holds: nothing
    ([undefined] or [null]), a string, an array, or some other value
    that has no [includes] method (a number, a boolean, a plain
    object).  An object that defines an [includes] of its own is not
    part of the model. *)
Inductive message_value :=
| MessageAbsent
| MessageString (s : jstring)
| MessageArray (items : list js_value)
| MessageOther.

(** What a [throw] or a rejected promise carries: an [Error] instance,
    whose [message] is a string (what the SDK and Horizon raise); a bare
    string, whose [message] is [undefined] (what a wallet API may reject
    with); [undefined] or [null]; or any other object, with what its
    [message] holds. *)
Inductive thrown :=
| ErrorObject (message : jstring)
| ThrownString (s : jstring)
| ThrownUndefined
| ThrownNull
| ThrownObject (message : message_value).

(** The completion of synchronous code. *)
Inductive sync (A : Type) :=
| Returns (a : A)
| Raises (e : thrown).
Arguments Returns {A} a.
Arguments Raises {A} e.

(** [error.message]: reading a property of [undefined] or [null] is a
    [TypeError]. *)
Definition message (e : thrown) : sync message_value :=
  match e with
  | ErrorObject m => Returns (MessageString m)
  | ThrownString _ => Returns MessageAbsent
  | ThrownUndefined =>
      Raises (ErrorObject
                (js "Cannot read properties of undefined (reading 'message')"))
  | ThrownNull =>
      Raises (ErrorObject
                (js "Cannot read properties of null (reading 'message')"))
  | ThrownObject m => Returns m
  end.

(** [error.message?.includes(p)]: [undefined], which is falsy, when
    there is no message; the test of the string or of the array; a
    [TypeError] when what the message holds has no [includes]. *)
Definition message_includes (e : thrown) (p : jstring) : sync bool :=
  match message e with
  | Raises typeError => Raises typeError
  | Returns MessageAbsent => Returns false
  | Returns (MessageString m) => Returns (includes m p)
  | Returns (MessageArray items) =>
      Returns (existsb (fun v => match v with
                                 | JsString s => JsString.eqb s p
                                 | _ => false
                                 end) items)
  | Returns MessageOther =>
      Raises (ErrorObject (js "error.message?.includes is not a function"))
  end.

Definition sync_bind {A B} (c : sync A) (k : A -> sync B) : sync B :=
  match c with
  | Returns a => k a
  | Raises e => Raises e
  end.

(** [try { c } catch (e) { h e }]. *)
Definition sync_try {A} (c : sync A) (h : thrown -> sync A) : sync A :=
  match c with
  | Returns a => Returns a
  | Raises e => h e
  end.

(** ** split.js: records *)

Module SplitData.
Record t := make
  { total : jstring; perPerson : jstring; numParticipants : number }.
End SplitData.

Module AddressError.
Record t := make { index : nat; address : jstring; error : jstring }.
End AddressError.

Module Validation.
Record t := make { valid : list jstring; errors : list AddressError.t }.
End Validation.

Section Host.

(** [Number::toString] of the engine. *)
Variable Number_toString : number -> jstring.

(** [StellarSdk.StrKey.decodeEd25519PublicKey]: the raw key, or a
    thrown error when the base32 text, version byte or checksum is
    wrong. *)
Variable decodeEd25519PublicKey : jstring -> sync (list N).

Definition parseFloat (v : js_value) : number :=
  match v with
  | JsUndefined => NaN
  | JsNumber x => parseFloat_string (Number_toString x)
  | JsString s => parseFloat_string s
  end.

Definition toFixed := JsNumber.toFixed Number_toString.

(** *** [calculateSplit] *)

(** [numParticipants] is a number, or [None] when the argument is
    missing. *)
Definition calculateSplit (totalAmount : js_value)
    (numParticipants : option number) : sync SplitData.t :=
  match numParticipants with
  | None => Raises (ErrorObject (js "Invalid split parameters"))
  | Some n =>
      if negb (truthy totalAmount) || negb (JsNumber.truthy n)
         || le n (of_Z 0)
      then Raises (ErrorObject (js "Invalid split parameters"))
      else
        let total := parseFloat totalAmount in
        let perPerson := toFixed (div total n) 7 in
        Returns (SplitData.make (toFixed total 2)
                   (toFixed (parseFloat_string perPerson) 2) n)
  end.

(** *** [validateParticipants] *)

Definition push_error (r : Validation.t) (e : AddressError.t) :=
  Validation.make (Validation.valid r) (Validation.errors r ++ [e]).

Definition push_valid (r : Validation.t) (a : jstring) :=
  Validation.make (Validation.valid r ++ [a]) (Validation.errors r).

(** The callback of [forEach], on the two arrays it pushes to. *)
Definition validate_address (r : Validation.t) (address : jstring)
    (index : nat) : sync Validation.t :=
  let trimmed := trim address in
  if negb (JsString.truthy trimmed) then
    Returns (push_error r
               (AddressError.make index trimmed (js "Empty address")))
  else if negb (Nat.eqb (JsString.length trimmed) 56) then
    Returns (push_error r
               (AddressError.make index trimmed (js "Must be 56 characters")))
  else if negb (startsWith trimmed (js "G")) then
    Returns (push_error r
               (AddressError.make index trimmed (js "Must start with G")))
  else
    sync_try
      (sync_bind (decodeEd25519PublicKey trimmed)
         (fun _ => Returns (push_valid r trimmed)))
      (fun _ =>
         Returns (push_error r
                    (AddressError.make index trimmed
                       (js "Invalid Stellar address")))).

(** [addresses.forEach(callback)], from position [index] on. *)
Fixpoint forEach_address (addresses : list jstring) (index : nat)
    (r : Validation.t) : sync Validation.t :=
  match addresses with
  | [] => Returns r
  | address :: rest =>
      sync_bind (validate_address r address index)
        (forEach_address rest (S index))
  end.

Definition validateParticipants (addresses : list jstring)
    : sync Validation.t :=
  forEach_address addresses 0 (Validation.make [] []).

End Host.

(** ** Collaborators *)

(** The completion of awaited code: the promise fulfils, rejects, or
    never settles (the wallet prompt left unanswered). *)
Inductive completion (A : Type) :=
| Normal (a : A)
| Thrown (e : thrown)
| Suspended.
Arguments Normal {A} a.
Arguments Thrown {A} e.
Arguments Suspended {A}.

Module BalanceLine.
Record t := make { asset_type : jstring; balance : jstring }.
End BalanceLine.

Module Account.
Record t := make
  { account_id : jstring; sequence : jstring; balances : list BalanceLine.t }.
End Account.

Module SignOptions.
Record t := make
  { network : jstring; networkPassphrase : jstring; accountToSign : jstring }.
End SignOptions.

Module SubmitResult.
Record t := make { hash : jstring }.
End SubmitResult.

Inductive Asset := native.

(** [StellarSdk.Networks.TESTNET]. *)
Definition TESTNET : jstring := js "Test SDF Network ; September 2015".

(** The synchronous part of the SDK that [executeSplit] calls; each call
    that validates its arguments may throw. *)
Record Sdk := {
  Transaction : Type;
  TransactionBuilder : Type;
  Operation : Type;
  Memo : Type;
  TransactionBuilder_new :
    Account.t -> number -> jstring -> sync TransactionBuilder;
  Operation_payment : jstring -> Asset -> jstring -> sync Operation;
  addOperation : TransactionBuilder -> Operation -> TransactionBuilder;
  Memo_text : jstring -> sync Memo;
  addMemo : TransactionBuilder -> Memo -> TransactionBuilder;
  setTimeout : TransactionBuilder -> nat -> sync TransactionBuilder;
  build : TransactionBuilder -> sync Transaction;
  toXDR : Transaction -> jstring;
  fromXDR : jstring -> jstring -> sync Transaction
}.

(** The ledger service ([server], Horizon) and the wallet
    ([signTransaction], Freighter), acting on a world of their own. *)
Record Services (sdk : Sdk) := {
  World : Type;
  loadAccount : jstring -> World -> World * completion Account.t;
  fetchBaseFee : World -> World * completion number;
  signTransaction :
    jstring -> SignOptions.t -> World -> World * completion jstring;
  submitTransaction :
    Transaction sdk -> World -> World * completion SubmitResult.t
}.

(** ** split.js and balance.js: results *)

Module PaymentResult.
(** The two shapes of object [executeSplit] pushes. *)
Inductive t :=
| success (recipient : jstring) (amount : js_value) (hash : jstring)
    (explorerUrl : jstring)
| failed (recipient : jstring) (amount : js_value) (error : jstring).

Definition status (r : t) : jstring :=
  match r with
  | success _ _ _ _ => js "success"
  | failed _ _ _ => js "failed"
  end.

Definition recipient (r : t) : jstring :=
  match r with
  | success a _ _ _ | failed a _ _ => a
  end.

Definition amount (r : t) : js_value :=
  match r with
  | success _ a _ _ | failed _ a _ => a
  end.

Definition error (r : t) : option jstring :=
  match r with
  | success _ _ _ _ => None
  | failed _ _ e => Some e
  end.

Definition hash (r : t) : option jstring :=
  match r with
  | success _ _ h _ => Some h
  | failed _ _ _ => None
  end.

Definition is_success (r : t) : bool :=
  match r with
  | success _ _ _ _ => true
  | failed _ _ _ => false
  end.
End PaymentResult.

Module BalanceCheck.
Record t := make
  { sufficient : bool; available : jstring; required : jstring;
    shortfall : jstring }.
End BalanceCheck.

(** main.js: the arguments of the [executeSplitHandler] call that a
    successful preview installs as the button's [onclick]. *)
Module Armed.
Record t := make
  { participants : list jstring; amountPerPerson : jstring;
    memo : jstring }.
End Armed.

(** ** The monad of [async] code *)

Section Async.

Variable sdk : Sdk.
Variable srv : Services sdk.

(** What the code does to the outside, in order. *)
Inductive Event :=
| CallLoadAccount (publicKey : jstring)
| CallFetchBaseFee
| CallSignTransaction (xdr : jstring) (opts : SignOptions.t)
| CallSubmitTransaction (tx : Transaction sdk)
| ConsoleError (text : jstring) (error : thrown)
| UpdateSplitProgress (current total : nat) (status : jstring)
| Alert (text : jstring)
| ShowBalanceWarning (required available shortfall context : jstring)
| HideBalanceWarning
| SetBalanceDisplay (text : jstring)
| RenderSplitPreview (splitData : SplitData.t) (participants : list jstring)
| RenderSplitResults (results : list PaymentResult.t)
| InitializeHistory (publicKey : jstring)
| SetButtonLoading (buttonId : jstring) (isLoading : bool)
| SetButtonText (buttonId : jstring) (text : jstring).

(** The world of the collaborators, the calls made so far, and the
    [results] array of the running [executeSplit]. *)
Record State := mkState
  { world : World srv; trace : list Event; results : list PaymentResult.t }.

Definition M (A : Type) := State -> State * completion A.

Definition ret {A} (a : A) : M A := fun s => (s, Normal a).

Definition bind {A B} (c : M A) (k : A -> M B) : M B :=
  fun s =>
    match c s with
    | (s', Normal a) => k a s'
    | (s', Thrown e) => (s', Thrown e)
    | (s', Suspended) => (s', Suspended)
    end.

Definition throw {A} (e : thrown) : M A := fun s => (s, Thrown e).

(** [try { c } catch (e) { h e }]: a promise that never settles is not
    caught. *)
Definition try_catch {A} (c : M A) (h : thrown -> M A) : M A :=
  fun s =>
    match c s with
    | (s', Normal a) => (s', Normal a)
    | (s', Thrown e) => h e s'
    | (s', Suspended) => (s', Suspended)
    end.

Definition lift {A} (c : sync A) : M A :=
  match c with
  | Returns a => ret a
  | Raises e => throw e
  end.

Definition emit (ev : Event) : M unit :=
  fun s => (mkState (world s) (trace s ++ [ev]) (results s), Normal tt).

(** [await f(...)] on a collaborator: the call is recorded, then the
    world answers. *)
Definition await {A} (ev : Event)
    (f : World srv -> World srv * completion A) : M A :=
  fun s =>
    let (w, c) := f (world s) in
    (mkState w (trace s ++ [ev]) (results s), c).

Definition set_results (rs : list PaymentResult.t) : M unit :=
  fun s => (mkState (world s) (trace s) rs, Normal tt).

Definition get_results : M (list PaymentResult.t) :=
  fun s => (s, Normal (results s)).

(** [results.push(r)]. *)
Definition push (r : PaymentResult.t) : M unit :=
  fun s => (mkState (world s) (trace s) (results s ++ [r]), Normal tt).

End Async.

Arguments CallLoadAccount {sdk} publicKey.
Arguments CallFetchBaseFee {sdk}.
Arguments CallSignTransaction {sdk} xdr opts.
Arguments CallSubmitTransaction {sdk} tx.
Arguments ConsoleError {sdk} text error.
Arguments UpdateSplitProgress {sdk} current total status.
Arguments Alert {sdk} text.
Arguments ShowBalanceWarning {sdk} required available shortfall context.
Arguments HideBalanceWarning {sdk}.
Arguments SetBalanceDisplay {sdk} text.
Arguments RenderSplitPreview {sdk} splitData participants.
Arguments RenderSplitResults {sdk} results.
Arguments InitializeHistory {sdk} publicKey.
Arguments SetButtonLoading {sdk} buttonId isLoading.
Arguments SetButtonText {sdk} buttonId text.
Arguments ret {sdk srv A} a.
Arguments throw {sdk srv A} e.
Arguments lift {sdk srv A} c.
Arguments emit {sdk srv} ev.
Arguments get_results {sdk srv}.
Arguments set_results {sdk srv} rs.
Arguments push {sdk srv} r.

Notation "x <- c ;; k" := (bind c (fun x => k))
  (at level 61, c at next level, right associativity).
Notation "c ;; k" := (bind c (fun _ => k))
  (at level 61, right associativity).

Notation "'let*' x ':=' c 'in' k" := (sync_bind c (fun x => k))
  (at level 61, x name, c at next level, right associativity).

(** ** The program *)

Section Program.

Variable Number_toString : number -> jstring.
Variable decodeEd25519PublicKey : jstring -> sync (list N).
Variable sdk : Sdk.
Variable srv : Services sdk.

Local Abbreviation M := (M srv).
Local Abbreviation toFixed := (toFixed Number_toString).
Local Abbreviation parseFloat := (parseFloat Number_toString).

(** [v.toString()]. *)
Definition toString (v : js_value) : sync jstring :=
  match v with
  | JsUndefined =>
      Raises (ErrorObject
                (js "Cannot read properties of undefined (reading 'toString')"))
  | JsNumber x => Returns (Number_toString x)
  | JsString s => Returns s
  end.

(** *** split.js: [executeSplit] *)

(** [updateSplitProgress] only writes to the page. *)
Definition updateSplitProgress (current total : nat) (status : jstring)
    : M unit :=
  emit (UpdateSplitProgress current total status).

(** Lines 88 to 107: the unsigned payment of [amountPerPerson] to
    [recipient], with the memo when it is not empty and a timeout
    of 30. *)
Definition build_payment (sourceAccount : Account.t) (fee : number)
    (recipient : jstring) (amountPerPerson : js_value) (memo : jstring)
    : sync (Transaction sdk) :=
  let* transactionBuilder :=
    TransactionBuilder_new sdk sourceAccount fee TESTNET in
  let* amount := toString amountPerPerson in
  let* payment := Operation_payment sdk recipient native amount in
  let transactionBuilder := addOperation sdk transactionBuilder payment in
  let* transactionBuilder :=
    (if JsString.truthy memo
     then let* m := Memo_text sdk memo in
          Returns (addMemo sdk transactionBuilder m)
     else Returns transactionBuilder) in
  let* transactionBuilder := setTimeout sdk transactionBuilder 30 in
  build sdk transactionBuilder.

Definition sign_options (publicKey : jstring) : SignOptions.t :=
  SignOptions.make (js "TESTNET") TESTNET publicKey.

Definition explorerUrl (hash : jstring) : jstring :=
  js "https://stellar.expert/explorer/testnet/tx/" ++ hash.

(** The body of the [try] block, lines 83 to 133. *)
Definition try_payment (publicKey recipient : jstring)
    (amountPerPerson : js_value) (memo : jstring)
    (currentIndex total : nat) : M unit :=
  sourceAccount <-
    await (CallLoadAccount publicKey) (loadAccount srv publicKey) ;;
  fee <- await CallFetchBaseFee (fetchBaseFee srv) ;;
  transaction <-
    lift (build_payment sourceAccount fee recipient amountPerPerson memo) ;;
  let xdr := toXDR sdk transaction in
  signedXDR <-
    await (CallSignTransaction xdr (sign_options publicKey))
      (signTransaction srv xdr (sign_options publicKey)) ;;
  signedTx <- lift (fromXDR sdk signedXDR TESTNET) ;;
  result <-
    await (CallSubmitTransaction signedTx) (submitTransaction srv signedTx) ;;
  push (PaymentResult.success recipient amountPerPerson
          (SubmitResult.hash result)
          (explorerUrl (SubmitResult.hash result))) ;;
  updateSplitProgress currentIndex total (js "success").

(** Lines 139 to 144: the text of the failure, from the two tests on
    the message of the caught value. *)
Definition errorMessage (error : thrown) : sync jstring :=
  let* declined := message_includes error (js "User declined") in
  if declined : bool then Returns (js "Declined by user")
  else
    let* insufficient :=
      message_includes error (js "Insufficient balance") in
    if insufficient : bool then Returns (js "Insufficient balance")
    else Returns (js "Payment failed").

(** The body of the [catch] block, up to the [break]. *)
Definition catch_payment (recipient : jstring) (amountPerPerson : js_value)
    (currentIndex total : nat) (error : thrown) : M unit :=
  emit (ConsoleError (js "Payment to " ++ recipient ++ js " failed:")
          error) ;;
  errorMessage <- lift (errorMessage error) ;;
  push (PaymentResult.failed recipient amountPerPerson errorMessage) ;;
  updateSplitProgress currentIndex total (js "failed").

(** The [try] statement of the loop body; its value says whether the
    loop breaks. *)
Definition attempt (publicKey recipient : jstring)
    (amountPerPerson : js_value) (memo : jstring)
    (currentIndex total : nat) : M bool :=
  try_catch
    (try_payment publicKey recipient amountPerPerson memo
       currentIndex total ;;
     ret false)
    (fun error =>
       catch_payment recipient amountPerPerson currentIndex total error ;;
       ret true).

(** The [for ... of] loop over what is left of [participants];
    [total] is [participants.length]. *)
Fixpoint split_loop (publicKey : jstring) (rest : list jstring)
    (amountPerPerson : js_value) (memo : jstring)
    (total currentIndex : nat) : M unit :=
  match rest with
  | [] => ret tt
  | recipient :: rest' =>
      let currentIndex := S currentIndex in
      updateSplitProgress currentIndex total (js "processing") ;;
      break <-
        attempt publicKey recipient amountPerPerson memo currentIndex
          total ;;
      if break : bool then ret tt
      else split_loop publicKey rest' amountPerPerson memo total currentIndex
  end.

Definition executeSplit (publicKey : jstring) (participants : list jstring)
    (amountPerPerson : js_value) (memo : jstring)
    : M (list PaymentResult.t) :=
  set_results [] ;;
  split_loop publicKey participants amountPerPerson memo
    (List.length participants) 0 ;;
  get_results.

(** *** balance.js *)

(** The literal [0.00001]. *)
Definition BASE_FEE_XLM : number := of_decimal false 1 (-5).

Definition estimateTotalCost (amount : js_value) (numPayments : number)
    : number :=
  let paymentAmount := parseFloat amount in
  let feeEstimate := mul BASE_FEE_XLM numPayments in
  add paymentAmount feeEstimate.

(** [account.balances.find(b => b.asset_type === "native")?.balance || "0"]. *)
Definition native_balance (account : Account.t) : jstring :=
  match
    find (fun b => JsString.eqb (BalanceLine.asset_type b) (js "native"))
      (Account.balances account)
  with
  | Some b =>
      if JsString.truthy (BalanceLine.balance b)
      then BalanceLine.balance b else js "0"
  | None => js "0"
  end.

Definition checkSufficientBalance (publicKey : jstring) (amount : js_value)
    (numPayments : number) : M BalanceCheck.t :=
  try_catch
    (account <-
       await (CallLoadAccount publicKey) (loadAccount srv publicKey) ;;
     let balance := native_balance account in
     let available := parseFloat_string balance in
     let totalCost := estimateTotalCost amount numPayments in
     ret (BalanceCheck.make
            (ge available totalCost)
            (toFixed available 2)
            (toFixed totalCost 2)
            (if lt available totalCost
             then toFixed (sub totalCost available) 2
             else js "0")))
    (fun error =>
       emit (ConsoleError (js "Error checking balance:") error) ;;
       throw error).

(** [showBalanceWarning] and [hideBalanceWarning] only write to the
    page (or raise an alert box). *)
Definition showBalanceWarning (required available shortfall context
    : jstring) : M unit :=
  emit (ShowBalanceWarning required available shortfall context).

Definition hideBalanceWarning : M unit := emit HideBalanceWarning.

Definition validateBalanceForPayment (publicKey : jstring)
    (amount : js_value) : M bool :=
  try_catch
    (check <- checkSufficientBalance publicKey amount (of_Z 1) ;;
     if negb (BalanceCheck.sufficient check) then
       showBalanceWarning (BalanceCheck.required check)
         (BalanceCheck.available check) (BalanceCheck.shortfall check)
         (js "payment") ;;
       ret false
     else
       hideBalanceWarning ;;
       ret true)
    (fun error =>
       emit (ConsoleError (js "Error validating balance:") error) ;;
       ret true).

Definition validateBalanceForSplit (publicKey : jstring)
    (totalAmount : js_value) (numParticipants : number) : M bool :=
  try_catch
    (check <-
       checkSufficientBalance publicKey totalAmount numParticipants ;;
     if negb (BalanceCheck.sufficient check) then
       showBalanceWarning (BalanceCheck.required check)
         (BalanceCheck.available check) (BalanceCheck.shortfall check)
         (js "split") ;;
       ret false
     else
       hideBalanceWarning ;;
       ret true)
    (fun error =>
       emit (ConsoleError (js "Error validating balance:") error) ;;
       ret true).

Definition refreshBalance (publicKey : jstring) : M number :=
  try_catch
    (account <-
       await (CallLoadAccount publicKey) (loadAccount srv publicKey) ;;
     let balance := native_balance account in
     emit (SetBalanceDisplay
             (toFixed (parseFloat_string balance) 2 ++ js " XLM")) ;;
     ret (parseFloat_string balance))
    (fun error =>
       emit (ConsoleError (js "Error refreshing balance:") error) ;;
       throw error).

(** *** main.js: the two handlers of the split form *)

Definition setButtonLoading (buttonId : jstring) (isLoading : bool)
    : M unit :=
  emit (SetButtonLoading buttonId isLoading).

Definition invalid_addresses_text (errors : list AddressError.t)
    : jstring :=
  js "Invalid addresses:" ++ [10%N] ++
  join [10%N]
    (map (fun e =>
            js "Line " ++
            N_to_string (N.of_nat (AddressError.index e + 1)) ++
            js ": " ++ AddressError.error e)
       errors).

(** The click handler of [previewSplitBtn]; [publicKey] is the module
    variable, which holds [null] ([None]) or a string and is falsy when
    it is the empty string; the three strings are the values of the
    form fields.  The result is what the handler leaves in [onclick].
    No other handler is taken to run, and so to change [publicKey],
    while this one waits. *)
Definition previewSplit_click (publicKey : option jstring)
    (total recipientsText memoValue : jstring) : M (option Armed.t) :=
  match publicKey with
  | None => emit (Alert (js "Connect your wallet first.")) ;; ret None
  | Some publicKey =>
      if negb (JsString.truthy publicKey) then
        emit (Alert (js "Connect your wallet first.")) ;; ret None
      else
      let memo := trim memoValue in
      let addresses :=
        filter (fun addr => Nat.ltb 0 (JsString.length addr))
          (map trim (split 10%N recipientsText)) in
      if negb (JsString.truthy total)
         || le (parseFloat_string total) (of_Z 0) then
        emit (Alert (js "Please enter a valid total amount.")) ;; ret None
      else if Nat.eqb (List.length addresses) 0 then
        emit (Alert (js "Please enter at least one recipient address.")) ;;
        ret None
      else
        validation <-
          lift (validateParticipants decodeEd25519PublicKey addresses) ;;
        if Nat.ltb 0 (List.length (Validation.errors validation)) then
          emit (Alert (invalid_addresses_text
                         (Validation.errors validation))) ;;
          ret None
        else
          let valid := Validation.valid validation in
          try_catch
            (splitData <-
               lift (calculateSplit Number_toString (JsString total)
                       (Some (of_nat (List.length valid)))) ;;
             hasBalance <-
               validateBalanceForSplit publicKey (JsString total)
                 (of_nat (List.length valid)) ;;
             if negb hasBalance then ret None
             else
               emit (RenderSplitPreview splitData valid) ;;
               emit (SetButtonText (js "previewSplitBtn")
                       (js "Execute Split")) ;;
               ret (Some (Armed.make valid
                            (SplitData.perPerson splitData) memo)))
            (fun error =>
               emit (ConsoleError (js "Split calculation error:") error) ;;
               emit (Alert
                       (js "Error calculating split. Please check your inputs.")) ;;
               ret None)
  end.

Definition executeSplitHandler (publicKey : option jstring)
    (participants : list jstring) (amountPerPerson : jstring)
    (memo : jstring) : M unit :=
  match publicKey with
  | None => emit (Alert (js "Connect your wallet first."))
  | Some publicKey =>
      if negb (JsString.truthy publicKey) then
        emit (Alert (js "Connect your wallet first."))
      else
      setButtonLoading (js "previewSplitBtn") true ;;
      try_catch
        (results <-
           executeSplit publicKey participants (JsString amountPerPerson)
             memo ;;
         emit (RenderSplitResults results) ;;
         _ <- refreshBalance publicKey ;;
         (if JsString.truthy publicKey
          then emit (InitializeHistory publicKey) else ret tt) ;;
         emit (SetButtonText (js "previewSplitBtn") (js "Preview Split")) ;;
         setButtonLoading (js "previewSplitBtn") false)
        (fun error =>
           emit (ConsoleError (js "Split execution error:") error) ;;
           emit (Alert
                   (js "Error executing split. See console for details.")) ;;
           emit (SetButtonText (js "previewSplitBtn")
                   (js "Preview Split")) ;;
           setButtonLoading (js "previewSplitBtn") false)
  end.

(** The preview handler and then, when it armed the button, the call
    the installed [onclick] makes.  (A second click also runs the
    preview handler once more, next to this call; that second preview is
    left out.) *)
Definition preview_then_onclick (publicKey : option jstring)
    (total recipientsText memoValue : jstring) : M unit :=
  armed <- previewSplit_click publicKey total recipientsText memoValue ;;
  match armed with
  | Some a =>
      executeSplitHandler publicKey (Armed.participants a)
        (Armed.amountPerPerson a) (Armed.memo a)
  | None => ret tt
  end.

End Program.

Arguments updateSplitProgress {sdk} srv current total status.
Arguments try_payment Number_toString {sdk} srv publicKey recipient
  amountPerPerson memo currentIndex total.
Arguments catch_payment {sdk} srv recipient amountPerPerson currentIndex
  total error.
Arguments attempt Number_toString {sdk} srv publicKey recipient
  amountPerPerson memo currentIndex total.
Arguments split_loop Number_toString {sdk} srv publicKey rest
  amountPerPerson memo total currentIndex.
Arguments executeSplit Number_toString {sdk} srv publicKey participants
  amountPerPerson memo.
Arguments checkSufficientBalance Number_toString {sdk} srv publicKey amount
  numPayments.
Arguments validateBalanceForPayment Number_toString {sdk} srv publicKey
  amount.
Arguments validateBalanceForSplit Number_toString {sdk} srv publicKey
  totalAmount numParticipants.
Arguments refreshBalance Number_toString {sdk} srv publicKey.
Arguments previewSplit_click Number_toString decodeEd25519PublicKey {sdk} srv
  publicKey total recipientsText memoValue.
Arguments executeSplitHandler Number_toString {sdk} srv publicKey
  participants amountPerPerson memo.
Arguments preview_then_onclick Number_toString decodeEd25519PublicKey {sdk}
  srv publicKey total recipientsText memoValue.

(** ** The vocabulary of the statements *)

Section Vocabulary.

Variable decodeEd25519PublicKey : jstring -> sync (list N).
Variable sdk : Sdk.
Variable srv : Services sdk.
Variable amountPerPerson : js_value.

(** The transactions handed to [server.submitTransaction], in order. *)
Fixpoint submitted (tr : list (Event sdk)) : list (Transaction sdk) :=
  match tr with
  | [] => []
  | CallSubmitTransaction tx :: tr' => tx :: submitted tr'
  | _ :: tr' => submitted tr'
  end.

(** The collaborator calls of a trace: account loads, fee fetches,
    signature requests and submissions. *)
Definition is_call (ev : Event sdk) : bool :=
  match ev with
  | CallLoadAccount _ | CallFetchBaseFee | CallSignTransaction _ _
  | CallSubmitTransaction _ => true
  | _ => false
  end.

Definition calls (tr : list (Event sdk)) : list (Event sdk) :=
  filter is_call tr.

(** The four tests of the callback of [validateParticipants], on a
    trimmed address. *)
Definition accepts (trimmed : jstring) : bool :=
  JsString.truthy trimmed
  && Nat.eqb (JsString.length trimmed) 56
  && startsWith trimmed (js "G")
  && match decodeEd25519PublicKey trimmed with
     | Returns _ => true
     | Raises _ => false
     end.

(** An entry of [errors] names a position of the input (counted from
    [offset]), holds the trimmed address found there, and that address
    fails a test. *)
Definition error_entry_ok (addresses : list jstring) (offset : nat)
    (e : AddressError.t) : Prop :=
  offset <= AddressError.index e
  /\ nth_error (map trim addresses) (AddressError.index e - offset)
     = Some (AddressError.address e)
  /\ accepts (AddressError.address e) = false.

(** The guard of [calculateSplit] on one argument pair: the total is
    missing or falsy (the empty string, the number zero, NaN), or the
    count is missing, zero, NaN or not above zero. *)
Definition rejected (totalAmount : js_value)
    (numParticipants : option number) : Prop :=
  truthy totalAmount = false
  \/ match numParticipants with
     | None => True
     | Some n => JsNumber.truthy n = false \/ le n (of_Z 0) = true
     end.

(** [n] is the integer nearest to [m * 2 ^ e * 10 ^ f], the larger one
    when two are as near.  For a negative [e] both sides of
    [n - 1/2 <= m * 10 ^ f / 2 ^ (- e) < n + 1/2] are multiplied by
    [2 ^ (- e + 1)]. *)
Definition nearest_scaled (m : positive) (e : Z) (f : nat) (n : N) : Prop :=
  ((0 <= e)%Z -> Z.of_N n = (Z.pos m * 10 ^ Z.of_nat f * 2 ^ e)%Z)
  /\ ((e < 0)%Z ->
      (2 ^ (- e + 1) * Z.of_N n - 2 ^ (- e)
       <= 2 * (Z.pos m * 10 ^ Z.of_nat f)
       < 2 ^ (- e + 1) * Z.of_N n + 2 ^ (- e))%Z).

(** [text] is the print, with [f] fractional digits, of the decimal
    nearest to the finite number [x]. *)
Definition prints_nearest (x : number) (f : nat) (text : jstring) : Prop :=
  match x with
  | S754_finite sign m e =>
      exists n,
        nearest_scaled m e f n
        /\ text = (if sign then js "-" else []) ++ fixed_digits n f
  | S754_zero _ => text = fixed_digits 0 f
  | _ => False
  end.

(** A finite number of a magnitude below 1e21. *)
Definition prints_fixed (x : number) : bool :=
  match x with
  | S754_finite _ m e => negb (at_least_1e21 m e)
  | S754_zero _ => true
  | _ => false
  end.

(** The text [executeSplit] writes to the console with a caught
    value. *)
Definition failure_text (recipient : jstring) : jstring :=
  js "Payment to " ++ recipient ++ js " failed:".

(** The two results [executeSplit] pushes. *)
Definition success_of (recipient : jstring) (hash : jstring)
    : PaymentResult.t :=
  PaymentResult.success recipient amountPerPerson hash (explorerUrl hash).

Definition failure_of (recipient : jstring) (errorMessage : jstring)
    : PaymentResult.t :=
  PaymentResult.failed recipient amountPerPerson errorMessage.

(** No call to the ledger or the wallet stays unanswered. *)
Definition responsive : Prop :=
  (forall key w, snd (loadAccount srv key w) <> Suspended)
  /\ (forall w, snd (fetchBaseFee srv w) <> Suspended)
  /\ (forall xdr opts w, snd (signTransaction srv xdr opts w) <> Suspended)
  /\ (forall tx w, snd (submitTransaction srv tx w) <> Suspended).

(** What a run of the loop over [rest] adds to [results], the events
    it adds to the trace, and how it ends: it comes to its end, it is
    left waiting for a collaborator, or the [catch] block throws the
    [TypeError] of a caught value whose message cannot be tested. *)
Inductive run_of
  : list jstring -> list PaymentResult.t -> list (Event sdk)
    -> completion unit -> Prop :=
| run_done evs : run_of [] [] evs (Normal tt)
| run_waits rest evs : ~ responsive -> run_of rest [] evs Suspended
| run_breaks recipient rest error text evs :
    In (ConsoleError (failure_text recipient) error) evs ->
    errorMessage error = Returns text ->
    run_of (recipient :: rest) [failure_of recipient text] evs (Normal tt)
| run_throws recipient rest error typeError evs :
    In (ConsoleError (failure_text recipient) error) evs ->
    errorMessage error = Raises typeError ->
    run_of (recipient :: rest) [] evs (Thrown typeError)
| run_continues recipient rest hash rs evs evs' c :
    run_of rest rs evs' c ->
    incl evs' evs ->
    run_of (recipient :: rest) (success_of recipient hash :: rs) evs c.

(** The completion of [executeSplit] after a loop that ended with [c]
    and left [rs] in [results]. *)
Definition finish (c : completion unit) (rs : list PaymentResult.t)
    : completion (list PaymentResult.t) :=
  match c with
  | Normal _ => Normal rs
  | Thrown e => Thrown e
  | Suspended => Suspended
  end.

(** Whether a completion is a value. *)
Definition returned {A : Type} (c : completion A) : bool :=
  match c with Normal _ => true | _ => false end.

End Vocabulary.

Arguments submitted {sdk} tr.
Arguments is_call {sdk} ev.
Arguments calls {sdk} tr.
Arguments responsive {sdk} srv.
Arguments run_of {sdk} srv amountPerPerson _ _ _ _.
Arguments returned {A} c.

(** ** A test double

    A scripted ledger and wallet, in the way a unit test of the modules
    would stub Horizon and Freighter: a transaction is the text of what
    it pays, the ledger answers while it is up, and the wallet answers
    each prompt as the script says. *)

Module Double.

Record builder := mkBuilder
  { operations : list jstring; memo : option jstring;
    timeout : option nat }.

Definition sdk : Sdk := {|
  Transaction := jstring;
  TransactionBuilder := builder;
  Operation := jstring;
  Memo := jstring;
  TransactionBuilder_new := fun _ _ _ => Returns (mkBuilder [] None None);
  Operation_payment := fun destination _ amount =>
    Returns (js "pay " ++ amount ++ js " to " ++ destination);
  addOperation := fun b op =>
    mkBuilder (operations b ++ [op]) (memo b) (timeout b);
  Memo_text := fun text =>
    if Nat.leb (JsString.length text) 28 then Returns text
    else Raises (ErrorObject (js "Expects string, array or buffer, max 28 bytes"));
  addMemo := fun b m => mkBuilder (operations b) (Some m) (timeout b);
  setTimeout := fun b t => Returns (mkBuilder (operations b) (memo b) (Some t));
  build := fun b =>
    Returns (join (js "; ") (operations b) ++
             match memo b with
             | Some m => js " memo " ++ m
             | None => []
             end);
  toXDR := fun tx => tx;
  fromXDR := fun xdr _ => Returns xdr
|}.

(** The balance the ledger reports, whether the ledger answers, the
    answers the user will give to the next prompts ([true] to
    approve), and what the wallet rejects a declined request with; with
    no answer left the prompt stays open. *)
Record world := mkWorld
  { xlm : jstring; up : bool; answers : list bool; refusal : thrown }.

Definition srv : Services sdk := {|
  World := world;
  loadAccount := fun publicKey w =>
    if up w
    then (w, Normal (Account.make publicKey (js "1")
                       [BalanceLine.make (js "native") (xlm w)]))
    else (w, Thrown (ErrorObject (js "Network Error")));
  fetchBaseFee := fun w => (w, Normal (of_Z 100));
  signTransaction := fun xdr _ w =>
    match answers w with
    | [] => (w, Suspended)
    | true :: rest =>
        (mkWorld (xlm w) (up w) rest (refusal w),
         Normal (xdr ++ js " signed"))
    | false :: rest =>
        (mkWorld (xlm w) (up w) rest (refusal w), Thrown (refusal w))
    end;
  submitTransaction := fun (tx : Transaction sdk) w =>
    (w, Normal (SubmitResult.make (js "hash of " ++ toXDR sdk tx)))
|}.

Definition Number_toString (x : number) : jstring := toFixed (fun _ => []) x 0.

(** [StrKey.decodeEd25519PublicKey] on the 56-character strings that
    [validateParticipants] hands it: the string is read as base 32
    (A to Z, 2 to 7), which gives 35 bytes; the first one is the
    version byte 48, the last two are the CRC-16 (XMODEM) of the others,
    low byte first; the 32 bytes between them are returned. *)
Definition base32_value (c : code_unit) : option N :=
  if ((65 <=? c) && (c <=? 90))%N then Some (c - 65)%N
  else if ((50 <=? c) && (c <=? 55))%N then Some (c - 24)%N
  else None.

Fixpoint base32_number (s : jstring) (acc : N) : option N :=
  match s with
  | [] => Some acc
  | c :: s' =>
      match base32_value c with
      | Some v => base32_number s' (acc * 32 + v)%N
      | None => None
      end
  end.

(** The [count] low bytes of [v], the highest first. *)
Fixpoint bytes_of (count : nat) (v : N) : list N :=
  match count with
  | O => []
  | S k => bytes_of k (v / 256)%N ++ [(v mod 256)%N]
  end.

Definition crc16_shift (crc : N) : N :=
  if N.testbit crc 15
  then N.land (N.lxor (N.shiftl crc 1) 4129) 65535
  else N.land (N.shiftl crc 1) 65535.

Definition crc16_byte (crc byte : N) : N :=
  Nat.iter 8 crc16_shift (N.lxor crc (N.shiftl byte 8)).

Definition crc16 (data : list N) : N := fold_left crc16_byte data 0%N.

Definition decodeEd25519PublicKey (s : jstring) : sync (list N) :=
  match base32_number s 0 with
  | None => Raises (ErrorObject (js "invalid encoded string"))
  | Some v =>
      if negb (Nat.eqb (JsString.length s) 56)
      then Raises (ErrorObject (js "invalid encoded string"))
      else
        let decoded := bytes_of 35 v in
        let payload := firstn 33 decoded in
        let checksum := skipn 33 decoded in
        let expected := crc16 payload in
        if negb (N.eqb (hd 0%N decoded) 48)
        then Raises (ErrorObject
                       (js "invalid version byte. expected 48, got " ++
                        N_to_string (hd 0%N decoded)))
        else if negb (N.eqb (nth 0 checksum 0%N) (N.land expected 255)
                      && N.eqb (nth 1 checksum 0%N) (N.shiftr expected 8))
             then Raises (ErrorObject (js "invalid checksum"))
             else Returns (skipn 1 payload)
  end.

Definition start (w : world) : State srv := mkState srv w [] [].

(** Four accounts, each a valid address: version byte, 32 bytes of key
    and their checksum. *)
Definition payer : jstring :=
  js "GASTAO2GKFOGO4T5RCJZ5KNUX7FNLYHL6YAQYFZCFU4EGTSZMRXXUDB4".
Definition alice : jstring :=
  js "GBFFKYDLO2AYZF5CVW4MHTWZ4TX7UBIQDMTDCPCHKJOWQ436RGKJ7CTF".
Definition bob : jstring :=
  js "GBXXVBMQTOTLDPGH2LO6R476BEKB6KRVIBFVMYLMO6BI3GFDV244JWOC".
Definition carol : jstring :=
  js "GCKJ7KVVYDF5NYPM64BA2GBDFY4UIT22MVYHXBURTST3FPOI2PPOSZVC".

(** What the wallet of the scenarios rejects a declined request
    with. *)
Definition declined : thrown := ErrorObject (js "User declined access").

(** Scenarios. *)

Definition funded (answers : list bool) : world :=
  mkWorld (js "10.0000000") true answers declined.

Definition wealthy (answers : list bool) : world :=
  mkWorld (js "100.0000000") true answers declined.

Definition ledger_down : world := mkWorld (js "10.0000000") false [] declined.

(** A wallet that rejects a declined request with [undefined]. *)
Definition terse (answers : list bool) : world :=
  mkWorld (js "10.0000000") true answers ThrownUndefined.

Definition amount : js_value := JsString (js "3.33").

(** The user approves the first payment and declines the second. *)
Definition declined_run : State srv * completion (list PaymentResult.t) :=
  executeSplit Number_toString srv payer [alice; bob; carol] amount []
    (start (funded [true; false; true])).

Definition recipients_text : jstring :=
  alice ++ [10%N] ++ bob ++ [10%N] ++ carol.

(** A total of 10 for three recipients, previewed and then executed
    with every prompt approved. *)
Definition preview_run : State srv * completion (option Armed.t) :=
  previewSplit_click Number_toString decodeEd25519PublicKey srv
    (Some payer) (js "10") recipients_text []
    (start (wealthy [true; true; true])).

Definition settled_run : State srv * completion unit :=
  preview_then_onclick Number_toString decodeEd25519PublicKey srv
    (Some payer) (js "10") recipients_text []
    (start (wealthy [true; true; true])).

(** The wallet approves the first payment and rejects the second
    request with [undefined]: the call of [executeSplit], and the call
    of the handler that makes it. *)
Definition unexplained_run : State srv * completion (list PaymentResult.t) :=
  executeSplit Number_toString srv payer [alice; bob] amount []
    (start (terse [true; false])).

Definition unexplained_click : State srv * completion unit :=
  executeSplitHandler Number_toString srv (Some payer) [alice; bob]
    (js "3.33") [] (start (terse [true; false])).

End Double.


(** ** More of split.js *)

(** [s.substring(start, end)], with [None] for an [end] left out: both
    bounds are clamped to the string and swapped when out of order. *)
Definition substring (s : jstring) (start : Z) (finish : option Z)
    : jstring :=
  let len := Z.of_nat (JsString.length s) in
  let clamp := fun i => Z.min (Z.max i 0) len in
  let finalStart := clamp start in
  let finalEnd := match finish with Some e => clamp e | None => len end in
  let from := Z.to_nat (Z.min finalStart finalEnd) in
  let to := Z.to_nat (Z.max finalStart finalEnd) in
  firstn (to - from) (skipn from s).

(** The em dash of [formatAddressShort]. *)
Definition em_dash : jstring := [8212%N].

(** split.js, [formatAddressShort]: six code units from each end. *)
Definition formatAddressShort (address : jstring) : jstring :=
  if negb (JsString.truthy address) then em_dash
  else
    substring address 0 (Some 6%Z) ++ js "..." ++
    substring address (Z.of_nat (JsString.length address) - 6) None.

(** split.js, [renderSplitResults]: the three counts and the title of
    the card (lines 239 to 248), and the test of its footer
    (line 276). *)
Definition successCount (results : list PaymentResult.t) : nat :=
  List.length
    (filter (fun r => JsString.eqb (PaymentResult.status r) (js "success"))
       results).

Definition failedCount (results : list PaymentResult.t) : nat :=
  List.length
    (filter (fun r => JsString.eqb (PaymentResult.status r) (js "failed"))
       results).

Definition totalCount (results : list PaymentResult.t) : nat :=
  List.length results.

Definition all_sent_title : jstring := 9989%N :: js " All payments sent!".

Definition results_title (results : list PaymentResult.t) : jstring :=
  if Nat.eqb (successCount results) (totalCount results)
  then all_sent_title
  else [9888%N; 65039%N] ++ js " " ++
       N_to_string (N.of_nat (successCount results)) ++ js " of " ++
       N_to_string (N.of_nat (totalCount results)) ++ js " succeeded".

Definition retry_hint_shown (results : list PaymentResult.t) : bool :=
  Nat.ltb 0 (failedCount results).

(** ** More vocabulary *)

Section MoreVocabulary.

Variable decodeEd25519PublicKey : jstring -> sync (list N).

(** The reason an entry of [errors] gives is the first test its address
    fails. *)
Definition reason_ok (e : AddressError.t) : Prop :=
  let a := AddressError.address e in
  (AddressError.error e = js "Empty address" /\ a = [])
  \/ (AddressError.error e = js "Must be 56 characters"
      /\ a <> [] /\ JsString.length a <> 56)
  \/ (AddressError.error e = js "Must start with G"
      /\ JsString.length a = 56 /\ startsWith a (js "G") = false)
  \/ (AddressError.error e = js "Invalid Stellar address"
      /\ JsString.length a = 56 /\ startsWith a (js "G") = true
      /\ exists thrown, decodeEd25519PublicKey a = Raises thrown).

End MoreVocabulary.

(** ** The record of a settlement run *)

Section Settlement.

Variable Number_toString : number -> jstring.
Variable sdk : Sdk.
Variable srv : Services sdk.
Variable publicKey : jstring.
Variable amountPerPerson : js_value.
Variable memo : jstring.

Definition is_load (ev : Event sdk) : bool :=
  match ev with CallLoadAccount _ => true | _ => false end.

Definition is_sign (ev : Event sdk) : bool :=
  match ev with CallSignTransaction _ _ => true | _ => false end.

Definition is_submit (ev : Event sdk) : bool :=
  match ev with CallSubmitTransaction _ => true | _ => false end.

Definition is_progress (ev : Event sdk) : bool :=
  match ev with UpdateSplitProgress _ _ _ => true | _ => false end.

Definition count (p : Event sdk -> bool) (tr : list (Event sdk)) : nat :=
  List.length (filter p tr).

(** [transaction] is a payment to [recipient] built on an account and a
    fee that the ledger answered with. *)
Definition built_for (recipient : jstring) (transaction : Transaction sdk)
    : Prop :=
  exists w0 w1 w2 account fee,
    loadAccount srv publicKey w0 = (w1, Normal account)
    /\ fetchBaseFee srv w1 = (w2, Normal fee)
    /\ build_payment Number_toString sdk account fee recipient
         amountPerPerson memo
       = Returns transaction.

(** [signedTx] is what the wallet answered to the request to sign
    [transaction], decoded. *)
Definition signed_from (transaction signedTx : Transaction sdk) : Prop :=
  exists w w' signedXDR,
    signTransaction srv (toXDR sdk transaction) (sign_options publicKey) w
    = (w', Normal signedXDR)
    /\ fromXDR sdk signedXDR TESTNET = Returns signedTx.

(** How a pass through the [try] block stops short: a call or a
    function of the SDK fails with a value, or a call stays
    unanswered. *)
Inductive halt :=
| Fails (error : thrown)
| Waits.

(** What a pass that stops so completes with. *)
Definition completion_of (h : halt) : completion unit :=
  match h with
  | Fails error => Thrown error
  | Waits => Suspended
  end.

Definition halts {A : Type} (c : completion A) (h : halt) : Prop :=
  match c, h with
  | Thrown e, Fails error => e = error
  | Suspended, Waits => True
  | _, _ => False
  end.

(** From the world [w], the account is loaded, the fee fetched and
    the payment to [recipient] built, which leaves the world [w2]. *)
Definition prepared (recipient : jstring) (w : World srv)
    (transaction : Transaction sdk) (w2 : World srv) : Prop :=
  exists w1 account fee,
    loadAccount srv publicKey w = (w1, Normal account)
    /\ fetchBaseFee srv w1 = (w2, Normal fee)
    /\ build_payment Number_toString sdk account fee recipient
         amountPerPerson memo
       = Returns transaction.

(** After that the wallet signs and its answer is decoded to
    [signedTx], which leaves the world [w3]. *)
Definition signed (recipient : jstring) (w : World srv)
    (transaction signedTx : Transaction sdk) (w3 : World srv) : Prop :=
  exists w2 signedXDR,
    prepared recipient w transaction w2
    /\ signTransaction srv (toXDR sdk transaction) (sign_options publicKey)
         w2
       = (w3, Normal signedXDR)
    /\ fromXDR sdk signedXDR TESTNET = Returns signedTx.

(** A pass through the [try] block, entered in the world [w], that
    does not come to its end: the calls it makes up to the one it stops
    at, how it stops, and the world it leaves. *)
Inductive stopped (recipient : jstring) (w : World srv)
  : list (Event sdk) -> halt -> World srv -> Prop :=
| stopped_load w1 (c : completion Account.t) h :
    loadAccount srv publicKey w = (w1, c) ->
    halts c h ->
    stopped recipient w [CallLoadAccount publicKey] h w1
| stopped_fee w1 account w2 (c : completion number) h :
    loadAccount srv publicKey w = (w1, Normal account) ->
    fetchBaseFee srv w1 = (w2, c) ->
    halts c h ->
    stopped recipient w [CallLoadAccount publicKey; CallFetchBaseFee] h w2
| stopped_build w1 account w2 fee error :
    loadAccount srv publicKey w = (w1, Normal account) ->
    fetchBaseFee srv w1 = (w2, Normal fee) ->
    build_payment Number_toString sdk account fee recipient
      amountPerPerson memo
    = Raises error ->
    stopped recipient w [CallLoadAccount publicKey; CallFetchBaseFee]
      (Fails error) w2
| stopped_sign transaction w2 w3 (c : completion jstring) h :
    prepared recipient w transaction w2 ->
    signTransaction srv (toXDR sdk transaction) (sign_options publicKey) w2
    = (w3, c) ->
    halts c h ->
    stopped recipient w
      [CallLoadAccount publicKey; CallFetchBaseFee;
       CallSignTransaction (toXDR sdk transaction) (sign_options publicKey)]
      h w3
| stopped_decode transaction w2 w3 signedXDR error :
    prepared recipient w transaction w2 ->
    signTransaction srv (toXDR sdk transaction) (sign_options publicKey) w2
    = (w3, Normal signedXDR) ->
    fromXDR sdk signedXDR TESTNET = Raises error ->
    stopped recipient w
      [CallLoadAccount publicKey; CallFetchBaseFee;
       CallSignTransaction (toXDR sdk transaction) (sign_options publicKey)]
      (Fails error) w3
| stopped_submit transaction signedTx w3 w4
    (c : completion SubmitResult.t) h :
    signed recipient w transaction signedTx w3 ->
    submitTransaction srv signedTx w3 = (w4, c) ->
    halts c h ->
    stopped recipient w
      [CallLoadAccount publicKey; CallFetchBaseFee;
       CallSignTransaction (toXDR sdk transaction) (sign_options publicKey);
       CallSubmitTransaction signedTx]
      h w4.

(** A pass that comes to its end: its calls, the hash the ledger
    answered the submission with, and the world it leaves. *)
Inductive paid (recipient : jstring) (w : World srv)
  : list (Event sdk) -> jstring -> World srv -> Prop :=
| paid_intro transaction signedTx w3 w4 result :
    signed recipient w transaction signedTx w3 ->
    submitTransaction srv signedTx w3 = (w4, Normal result) ->
    paid recipient w
      [CallLoadAccount publicKey; CallFetchBaseFee;
       CallSignTransaction (toXDR sdk transaction) (sign_options publicKey);
       CallSubmitTransaction signedTx]
      (SubmitResult.hash result) w4.

(** A run of the loop over [rest], entered with [currentIndex] in the
    world [w]: the results it adds, the events it adds, one after the
    other, how it ends, and the world it leaves.  A pass that is paid
    is followed by the run over what is left; a pass that fails with a
    value is recorded as a failure and ends the run, unless the message
    of the value cannot be tested: then the [catch] block throws, after
    writing to the console; a pass that waits leaves the run waiting. *)
Inductive settlement (total : nat)
  : list jstring -> nat -> World srv -> list PaymentResult.t
    -> list (Event sdk) -> completion unit -> World srv -> Prop :=
| settlement_done currentIndex w :
    settlement total [] currentIndex w [] [] (Normal tt) w
| settlement_paid recipient rest currentIndex w cs hash w1 rs evs c w' :
    paid recipient w cs hash w1 ->
    settlement total rest (S currentIndex) w1 rs evs c w' ->
    settlement total (recipient :: rest) currentIndex w
      (success_of amountPerPerson recipient hash :: rs)
      (UpdateSplitProgress (S currentIndex) total (js "processing")
       :: cs
       ++ UpdateSplitProgress (S currentIndex) total (js "success") :: evs)
      c w'
| settlement_failed recipient rest currentIndex w cs error text w' :
    stopped recipient w cs (Fails error) w' ->
    errorMessage error = Returns text ->
    settlement total (recipient :: rest) currentIndex w
      [failure_of amountPerPerson recipient text]
      (UpdateSplitProgress (S currentIndex) total (js "processing")
       :: cs
       ++ [ConsoleError (failure_text recipient) error;
           UpdateSplitProgress (S currentIndex) total (js "failed")])
      (Normal tt) w'
| settlement_thrown recipient rest currentIndex w cs error typeError w' :
    stopped recipient w cs (Fails error) w' ->
    errorMessage error = Raises typeError ->
    settlement total (recipient :: rest) currentIndex w []
      (UpdateSplitProgress (S currentIndex) total (js "processing")
       :: cs ++ [ConsoleError (failure_text recipient) error])
      (Thrown typeError) w'
| settlement_waiting recipient rest currentIndex w cs w' :
    stopped recipient w cs Waits w' ->
    settlement total (recipient :: rest) currentIndex w []
      (UpdateSplitProgress (S currentIndex) total (js "processing") :: cs)
      Suspended w'.

(** The progress signals of a run that recorded [rs]: for each result
    a "processing" and then the status recorded. *)
Fixpoint progress_of (total currentIndex : nat)
    (rs : list PaymentResult.t) : list (Event sdk) :=
  match rs with
  | [] => []
  | r :: rs' =>
      UpdateSplitProgress (S currentIndex) total (js "processing")
      :: UpdateSplitProgress (S currentIndex) total (PaymentResult.status r)
      :: progress_of total (S currentIndex) rs'
  end.

End Settlement.

Arguments is_load {sdk} ev.
Arguments is_sign {sdk} ev.
Arguments is_submit {sdk} ev.
Arguments is_progress {sdk} ev.
Arguments count {sdk} p tr.
Arguments built_for Number_toString {sdk} srv publicKey amountPerPerson memo
  recipient transaction.
Arguments signed_from {sdk} srv publicKey transaction signedTx.
Arguments halts {A} c h.
Arguments prepared Number_toString {sdk} srv publicKey amountPerPerson memo
  recipient w transaction w2.
Arguments signed Number_toString {sdk} srv publicKey amountPerPerson memo
  recipient w transaction signedTx w3.
Arguments stopped Number_toString {sdk} srv publicKey amountPerPerson memo
  recipient w _ _ _.
Arguments paid Number_toString {sdk} srv publicKey amountPerPerson memo
  recipient w _ _ _.
Arguments settlement Number_toString {sdk} srv publicKey amountPerPerson memo
  total _ _ w _ _ _ _.
Arguments progress_of {sdk} total currentIndex rs.

(** ** The balance gate *)

Section Gate.

Variable sdk : Sdk.
Variable srv : Services sdk.

(** What [validateBalanceForPayment] and [validateBalanceForSplit] can
    leave behind when run from [s]: the account query stays open; or
    the balance suffices and the warning is hidden; or the query failed,
    which is logged twice and answered with [true]; or the balance does
    not suffice, the warning is shown for [context] and the answer is
    [false]. *)
Definition gate_outcome (publicKey context : jstring) (s final : State srv)
    (c : completion bool) : Prop :=
  results final = results s
  /\ ((c = Suspended
       /\ trace final = trace s ++ [CallLoadAccount publicKey])
      \/ (c = Normal true
          /\ trace final
             = trace s ++ [CallLoadAccount publicKey; HideBalanceWarning])
      \/ (c = Normal true
          /\ exists error,
               trace final
               = trace s ++
                 [CallLoadAccount publicKey;
                  ConsoleError (js "Error checking balance:") error;
                  ConsoleError (js "Error validating balance:") error])
      \/ (c = Normal false
          /\ exists required available shortfall,
               trace final
               = trace s ++
                 [CallLoadAccount publicKey;
                  ShowBalanceWarning required available shortfall context])).

End Gate.

Arguments gate_outcome {sdk srv} publicKey context s final c.

(** The lines of the recipients field that the preview handler keeps:
    trimmed, the empty ones left out. *)
Definition recipient_lines (recipientsText : jstring) : list jstring :=
  filter (fun addr => Nat.ltb 0 (JsString.length addr))
    (map trim (split 10%N recipientsText)).

(** ** Numbers as rationals

    What the bound on the residue of a split is stated in: the
    rational a finite binary64 number stands for, and the decimal
    digits of a printed number. *)

(** [2 ^ e], for an exponent of either sign. *)
Definition P2 (e : Z) : Q := (2 ^ e)%Q.

(** The rational [x] stands for: [m * 2 ^ e] with its sign for a
    finite number, and 0 for a zero (and for infinities and NaN, which
    have no value). *)
Definition value (x : number) : Q :=
  match x with
  | S754_finite s m e =>
      ((if s then - inject_Z (Z.pos m) else inject_Z (Z.pos m)) * P2 e)%Q
  | _ => 0%Q
  end.

(** Zero, or positive with a fraction part in its mantissa. *)
Definition small (z : number) : Prop :=
  z = S754_zero false
  \/ exists m e, z = S754_finite false m e /\ (e < 0)%Z.

Definition digit_chars (l : jstring) : Prop :=
  Forall (fun c => is_digit c = true) l.

Definition digit_values (l : jstring) : list N :=
  map (fun c => (c - 48)%N) l.

(** The exponent and the dividend that [SFdiv] works with. *)
Definition div_exponent (mx : positive) (ex : Z) (my : positive) (ey : Z)
    : Z :=
  Z.min (fexp prec emax
           (Zdigits2 (Z.pos mx) + ex - (Zdigits2 (Z.pos my) + ey)))
    (ex - ey)%Z.

Definition div_dividend (mx : positive) (ex : Z) (my : positive) (ey : Z)
    : Z :=
  (Z.pos mx * 2 ^ (ex - ey - div_exponent mx ex my ey))%Z.

(** * Theorems *)

(** ** [validateParticipants] *)

Section ValidateParticipants.

Variable decodeEd25519PublicKey : jstring -> sync (list N).

Lemma validate_address_cases (r : Validation.t) (address : jstring)
    (index : nat) :
  (accepts decodeEd25519PublicKey (trim address) = true
   /\ validate_address decodeEd25519PublicKey r address index
      = Returns (push_valid r (trim address)))
  \/ (accepts decodeEd25519PublicKey (trim address) = false
      /\ exists reason,
           validate_address decodeEd25519PublicKey r address index
           = Returns (push_error r
                        (AddressError.make index (trim address) reason))).
Proof.
  unfold validate_address, accepts.
  destruct (JsString.truthy (trim address)); cbn [negb andb];
    [ | right; split; [ reflexivity | eexists; reflexivity ] ].
  destruct (Nat.eqb (JsString.length (trim address)) 56); cbn [negb andb];
    [ | right; split; [ reflexivity | eexists; reflexivity ] ].
  destruct (startsWith (trim address) (js "G")); cbn [negb andb];
    [ | right; split; [ reflexivity | eexists; reflexivity ] ].
  destruct (decodeEd25519PublicKey (trim address)); cbn.
  - left; split; reflexivity.
  - right; split; [ reflexivity | eexists; reflexivity ].
Qed.

Lemma error_entry_shift (address : jstring) (rest : list jstring)
    (index : nat) (e : AddressError.t) :
  error_entry_ok decodeEd25519PublicKey rest (S index) e ->
  error_entry_ok decodeEd25519PublicKey (address :: rest) index e.
Proof.
  intros (Hle & Hnth & Hrej). unfold error_entry_ok.
  repeat split; [ lia | | exact Hrej ].
  replace (AddressError.index e - index)
    with (S (AddressError.index e - S index)) by lia.
  exact Hnth.
Qed.

Lemma forEach_address_spec (addresses : list jstring) :
  forall (index : nat) (r : Validation.t),
  exists errs,
    forEach_address decodeEd25519PublicKey addresses index r
    = Returns (Validation.make
                 (Validation.valid r
                  ++ filter (accepts decodeEd25519PublicKey)
                       (map trim addresses))
                 (Validation.errors r ++ errs))
    /\ List.length (filter (accepts decodeEd25519PublicKey)
                      (map trim addresses))
       + List.length errs = List.length addresses
    /\ Forall (error_entry_ok decodeEd25519PublicKey addresses index) errs.
Proof.
  induction addresses as [ | address rest IH ]; intros index r.
  - exists []. cbn. rewrite !app_nil_r. destruct r; auto.
  - cbn [forEach_address map filter].
    destruct (validate_address_cases r address index)
      as [ [Hacc Hstep] | [Hacc [reason Hstep] ] ];
      rewrite Hstep, Hacc; cbn [sync_bind].
    + destruct (IH (S index) (push_valid r (trim address)))
        as (errs & Hrun & Hlen & Hall).
      exists errs. rewrite Hrun. cbn [push_valid Validation.valid
        Validation.errors]. rewrite <- app_assoc. cbn [app List.length].
      repeat split; [ lia | ].
      eapply Forall_impl; [ | exact Hall ].
      intros e. apply error_entry_shift.
    + destruct (IH (S index)
                  (push_error r
                     (AddressError.make index (trim address) reason)))
        as (errs & Hrun & Hlen & Hall).
      exists (AddressError.make index (trim address) reason :: errs).
      rewrite Hrun. cbn [push_error Validation.valid Validation.errors].
      rewrite <- app_assoc. cbn [app List.length].
      repeat split; [ lia | ].
      constructor.
      * unfold error_entry_ok.
        cbn [AddressError.index AddressError.address].
        rewrite Nat.sub_diag. cbn. auto.
      * eapply Forall_impl; [ | exact Hall ].
        intros e. apply error_entry_shift.
Qed.

Lemma validateParticipants_returns (addresses : list jstring) :
  exists r, validateParticipants decodeEd25519PublicKey addresses = Returns r.
Proof.
  destruct (forEach_address_spec addresses 0 (Validation.make [] []))
    as (errs & Hrun & _).
  eexists. exact Hrun.
Qed.

(** C2. For every list of address strings [validateParticipants]
    returns (it never throws, whatever the decoder throws), the two
    lists it returns have as many entries together as the input, and
    [valid] is the input, trimmed, with the rejected entries left out:
    the accepted addresses in their original order, repeated as often
    as they were given.  Every entry of [errors] points at a rejected
    position. *)
Theorem validateParticipants_partition (addresses : list jstring) :
  exists r,
    validateParticipants decodeEd25519PublicKey addresses = Returns r
    /\ List.length (Validation.valid r) + List.length (Validation.errors r)
       = List.length addresses
    /\ Validation.valid r
       = filter (accepts decodeEd25519PublicKey) (map trim addresses)
    /\ Forall (error_entry_ok decodeEd25519PublicKey addresses 0)
         (Validation.errors r).
Proof.
  destruct (forEach_address_spec addresses 0 (Validation.make [] []))
    as (errs & Hrun & Hlen & Hall).
  eexists. split; [ exact Hrun | ].
  cbn [Validation.valid Validation.errors app]. auto.
Qed.

End ValidateParticipants.

(** ** [toFixed] *)

Section ToFixed.

Variable Number_toString : number -> jstring.

(** The print of a finite number below 1e21 is the print of the
    integer [scaled_nearest] picks. *)
Lemma toFixed_finite (sign : bool) (m : positive) (e : Z) (f : nat) :
  at_least_1e21 m e = false ->
  toFixed Number_toString (S754_finite sign m e) f
  = (if sign then js "-" else []) ++ fixed_digits (scaled_nearest m e f) f.
Proof.
  intros Hsmall. unfold toFixed, JsNumber.toFixed. rewrite Hsmall.
  reflexivity.
Qed.

(** An integer exponent: the scaled value is an integer, and is
    printed as it is. *)
Lemma scaled_nearest_exact (m : positive) (e : Z) (f : nat) :
  (0 <= e)%Z ->
  Z.of_N (scaled_nearest m e f) = (Z.pos m * 10 ^ Z.of_nat f * 2 ^ e)%Z.
Proof.
  intros He. unfold scaled_nearest.
  destruct (Z.leb_spec 0 e) as [ _ | Hlt ]; [ | lia ].
  rewrite Z2N.id; [ reflexivity | ].
  apply Z.mul_nonneg_nonneg; [ | apply Z.pow_nonneg; lia ].
  apply Z.mul_nonneg_nonneg; [ lia | apply Z.pow_nonneg; lia ].
Qed.

(** A negative exponent [e = - k]: the integer [n] picked is within
    one half of [m * 10 ^ f / 2 ^ k], the upper one at a tie.  Both
    sides are multiplied by [2 ^ (k + 1)]. *)
Lemma scaled_nearest_half (m : positive) (e : Z) (f : nat) :
  (e < 0)%Z ->
  (2 ^ (- e + 1) * Z.of_N (scaled_nearest m e f) - 2 ^ (- e)
   <= 2 * (Z.pos m * 10 ^ Z.of_nat f)
   < 2 ^ (- e + 1) * Z.of_N (scaled_nearest m e f) + 2 ^ (- e))%Z.
Proof.
  intros He. unfold scaled_nearest.
  destruct (Z.leb_spec 0 e) as [ Hle | _ ]; [ lia | ].
  set (p := (Z.pos m * 10 ^ Z.of_nat f)%Z).
  assert (Hp : (0 <= p)%Z).
  { apply Z.mul_nonneg_nonneg; [ lia | apply Z.pow_nonneg; lia ]. }
  assert (Hk : (0 < 2 ^ (- e))%Z) by (apply Z.pow_pos_nonneg; lia).
  assert (Hd : (2 ^ (- e + 1) = 2 * 2 ^ (- e))%Z).
  { rewrite Z.pow_add_r by lia. lia. }
  rewrite Z2N.id by (apply Z.div_pos; lia).
  pose proof (Z.mul_div_le (2 * p + 2 ^ (- e)) (2 ^ (- e + 1))) as Hlo.
  pose proof (Z.mul_succ_div_gt (2 * p + 2 ^ (- e)) (2 ^ (- e + 1))) as Hhi.
  lia.
Qed.

Lemma toFixed_prints_nearest (x : number) (f : nat) :
  prints_fixed x = true ->
  prints_nearest x f (toFixed Number_toString x f).
Proof.
  destruct x as [ sign | sign | | sign m e ]; cbn [prints_fixed];
    try discriminate.
  - intros _. reflexivity.
  - intros Hsmall. apply negb_true_iff in Hsmall.
    exists (scaled_nearest m e f). split.
    + split; [ apply scaled_nearest_exact | apply scaled_nearest_half ].
    + apply toFixed_finite. exact Hsmall.
Qed.

End ToFixed.

(** ** [calculateSplit] *)

Section CalculateSplit.

Variable Number_toString : number -> jstring.

Lemma calculateSplit_accepts (totalAmount : js_value) (n : number) :
  truthy totalAmount = true ->
  JsNumber.truthy n = true ->
  le n (of_Z 0) = false ->
  calculateSplit Number_toString totalAmount (Some n)
  = Returns
      (SplitData.make
         (toFixed Number_toString (parseFloat Number_toString totalAmount) 2)
         (toFixed Number_toString
            (parseFloat_string
               (toFixed Number_toString
                  (div (parseFloat Number_toString totalAmount) n) 7)) 2)
         n).
Proof.
  intros Ht Hn Hle. unfold calculateSplit.
  rewrite Ht, Hn, Hle. reflexivity.
Qed.

Lemma calculateSplit_rejects (totalAmount : js_value)
    (numParticipants : option number) :
  rejected totalAmount numParticipants ->
  calculateSplit Number_toString totalAmount numParticipants
  = Raises (ErrorObject (js "Invalid split parameters")).
Proof.
  unfold rejected, calculateSplit.
  destruct numParticipants as [ n | ]; [ | reflexivity ].
  intros [ -> | [ -> | -> ] ]; cbn [negb orb];
    rewrite ?orb_true_r; reflexivity.
Qed.

(** C4, as the code has it.  [calculateSplit] throws "Invalid split
    parameters" exactly when the total is missing or falsy or the
    count is missing, zero, NaN or not above zero; for every other
    pair it returns.  The sign of the total plays no part: for a
    total below zero the count alone decides. *)
Theorem calculateSplit_throws_iff (totalAmount : js_value)
    (numParticipants : option number) :
  (rejected totalAmount numParticipants
   <-> calculateSplit Number_toString totalAmount numParticipants
       = Raises (ErrorObject (js "Invalid split parameters")))
  /\ (~ rejected totalAmount numParticipants
      <-> exists r,
            calculateSplit Number_toString totalAmount numParticipants
            = Returns r)
  /\ (forall x n,
        lt x (of_Z 0) = true ->
        (rejected (JsNumber x) (Some n)
         <-> JsNumber.truthy n = false \/ le n (of_Z 0) = true)).
Proof.
  assert (Hdec : rejected totalAmount numParticipants
                 \/ exists r,
                      calculateSplit Number_toString totalAmount
                        numParticipants = Returns r).
  { destruct numParticipants as [ n | ]; [ | left; right; exact I ].
    destruct (truthy totalAmount) eqn:Ht; [ | left; left; exact Ht ].
    destruct (JsNumber.truthy n) eqn:Hn;
      [ | left; right; left; exact Hn ].
    destruct (le n (of_Z 0)) eqn:Hle;
      [ left; right; right; exact Hle | ].
    right. eexists. apply calculateSplit_accepts; assumption. }
  split; [ | split ].
  - split; [ apply calculateSplit_rejects | ].
    intros Hraises. destruct Hdec as [ H | (r & Hr) ]; [ exact H | ].
    rewrite Hr in Hraises. discriminate.
  - split.
    + intros Hnot. destruct Hdec as [ H | H ]; [ contradiction | exact H ].
    + intros (r & Hr) Hrej. rewrite (calculateSplit_rejects Hrej) in Hr.
      discriminate.
  - intros x n Hneg. unfold rejected. split; [ | auto ].
    intros [ Hfalsy | Hcount ]; [ | exact Hcount ].
    destruct x; cbn in Hfalsy, Hneg; discriminate.
Qed.

(** Two totals whose 7-digit shares differ give the same result: the
    7-digit share cannot be read back from what is returned. *)
Lemma calculateSplit_forgets_precision :
  calculateSplit Number_toString (JsString (js "10.001")) (Some (of_nat 3))
  = calculateSplit Number_toString (JsString (js "10.004"))
      (Some (of_nat 3))
  /\ toFixed Number_toString
       (div (parseFloat_string (js "10.001")) (of_nat 3)) 7
     = js "3.3336667"
  /\ toFixed Number_toString
       (div (parseFloat_string (js "10.004")) (of_nat 3)) 7
     = js "3.3346667".
Proof. repeat split; vm_compute; reflexivity. Qed.

End CalculateSplit.

(** ** [executeSplit] *)

Section ExecuteSplit.

Variable Number_toString : number -> jstring.
Variable sdk : Sdk.
Variable srv : Services sdk.

Variable publicKey : jstring.
Variable amountPerPerson : js_value.
Variable memo : jstring.

(** *** One pass through the [try] block *)

Ltac run_block :=
  unfold try_payment, bind, await, lift, push, updateSplitProgress, emit,
    ret, throw;
  cbn [world trace results].

(** Every step of the block answers: the payment is recorded. *)
Lemma try_payment_succeeds (recipient : jstring) (currentIndex total : nat)
    (s : State srv) w1 w2 w3 w4 sourceAccount fee transaction signedXDR
    signedTx result :
  loadAccount srv publicKey (world s) = (w1, Normal sourceAccount) ->
  fetchBaseFee srv w1 = (w2, Normal fee) ->
  build_payment Number_toString sdk sourceAccount fee recipient
    amountPerPerson memo
  = Returns transaction ->
  signTransaction srv (toXDR sdk transaction) (sign_options publicKey) w2
  = (w3, Normal signedXDR) ->
  fromXDR sdk signedXDR TESTNET = Returns signedTx ->
  submitTransaction srv signedTx w3 = (w4, Normal result) ->
  try_payment Number_toString srv publicKey recipient amountPerPerson memo
    currentIndex total s
  = (mkState srv w4
       (trace s ++
        [CallLoadAccount publicKey; CallFetchBaseFee;
         CallSignTransaction (toXDR sdk transaction)
           (sign_options publicKey);
         CallSubmitTransaction signedTx;
         UpdateSplitProgress currentIndex total (js "success")])
       (results s ++
        [success_of amountPerPerson recipient (SubmitResult.hash result)]),
     Normal tt).
Proof.
  intros Hload Hfee Hbuild Hsign Hxdr Hsubmit. run_block.
  rewrite Hload. cbn [world trace results]. rewrite Hfee, Hbuild.
  cbn [world trace results]. rewrite Hsign, Hxdr.
  cbn [world trace results]. rewrite Hsubmit.
  cbn [world trace results]. rewrite <- ?app_assoc. reflexivity.
Qed.

(** The wallet rejects the signature request: the block throws what
    the wallet threw, after three calls and before any submission. *)
Lemma try_payment_sign_rejected (recipient : jstring)
    (currentIndex total : nat) (s : State srv) w1 w2 w3 sourceAccount fee
    transaction error :
  loadAccount srv publicKey (world s) = (w1, Normal sourceAccount) ->
  fetchBaseFee srv w1 = (w2, Normal fee) ->
  build_payment Number_toString sdk sourceAccount fee recipient
    amountPerPerson memo
  = Returns transaction ->
  signTransaction srv (toXDR sdk transaction) (sign_options publicKey) w2
  = (w3, Thrown error) ->
  try_payment Number_toString srv publicKey recipient amountPerPerson memo
    currentIndex total s
  = (mkState srv w3
       (trace s ++
        [CallLoadAccount publicKey; CallFetchBaseFee;
         CallSignTransaction (toXDR sdk transaction)
           (sign_options publicKey)])
       (results s),
     Thrown error).
Proof.
  intros Hload Hfee Hbuild Hsign. run_block.
  rewrite Hload. cbn [world trace results]. rewrite Hfee, Hbuild.
  cbn [world trace results]. rewrite Hsign.
  rewrite <- ?app_assoc. reflexivity.
Qed.

(** A pass that is paid, and a pass that stops, as the block runs
    them. *)
Lemma try_payment_paid (recipient : jstring) (currentIndex total : nat)
    (s : State srv) cs hash w' :
  paid Number_toString srv publicKey amountPerPerson memo recipient
    (world s) cs hash w' ->
  try_payment Number_toString srv publicKey recipient amountPerPerson memo
    currentIndex total s
  = (mkState srv w'
       (trace s ++ cs ++
        [UpdateSplitProgress currentIndex total (js "success")])
       (results s ++ [success_of amountPerPerson recipient hash]),
     Normal tt).
Proof.
  intros [ transaction signedTx w3 w4 result
             (w2 & signedXDR & (w1 & account & fee & Hload & Hfee & Hbuild)
              & Hsign & Hxdr) Hsubmit ].
  rewrite (try_payment_succeeds recipient currentIndex total s Hload Hfee
             Hbuild Hsign Hxdr Hsubmit).
  reflexivity.
Qed.

Lemma try_payment_stopped (recipient : jstring) (currentIndex total : nat)
    (s : State srv) cs h w' :
  stopped Number_toString srv publicKey amountPerPerson memo recipient
    (world s) cs h w' ->
  try_payment Number_toString srv publicKey recipient amountPerPerson memo
    currentIndex total s
  = (mkState srv w' (trace s ++ cs) (results s), completion_of h).
Proof.
  intros Hstop. run_block.
  destruct Hstop
    as [ w1 c h Hload Hhalt
       | w1 account w2 c h Hload Hfee Hhalt
       | w1 account w2 fee error Hload Hfee Hbuild
       | transaction w2 w3 c h
           (w1 & account & fee & Hload & Hfee & Hbuild) Hsign Hhalt
       | transaction w2 w3 signedXDR error
           (w1 & account & fee & Hload & Hfee & Hbuild) Hsign Hxdr
       | transaction signedTx w3 w4 c h
           (w2 & signedXDR & (w1 & account & fee & Hload & Hfee & Hbuild)
            & Hsign & Hxdr) Hsubmit Hhalt ];
    rewrite Hload; cbn [world trace results];
    try (rewrite Hfee; cbn [world trace results]);
    try (rewrite Hbuild; cbn [world trace results]);
    try (rewrite Hsign; cbn [world trace results]);
    try (rewrite Hxdr; cbn [world trace results]);
    try (rewrite Hsubmit; cbn [world trace results]);
    try (destruct c, h; cbn in Hhalt; try contradiction; subst);
    cbn [completion_of]; rewrite <- ?app_assoc; reflexivity.
Qed.

(** Whatever the collaborators do, a pass entered in [w] is paid or
    stops. *)
Lemma pass_cases (recipient : jstring) (w : World srv) :
  (exists cs hash w',
     paid Number_toString srv publicKey amountPerPerson memo recipient w cs
       hash w')
  \/ (exists cs h w',
        stopped Number_toString srv publicKey amountPerPerson memo recipient
          w cs h w').
Proof.
  destruct (loadAccount srv publicKey w) as [w1 [account | e | ] ] eqn:Hload.
  2: { right. exists [CallLoadAccount publicKey], (Fails e), w1.
       eapply stopped_load; [ exact Hload | reflexivity ]. }
  2: { right. exists [CallLoadAccount publicKey], Waits, w1.
       eapply stopped_load; [ exact Hload | exact I ]. }
  destruct (fetchBaseFee srv w1) as [w2 [fee | e | ] ] eqn:Hfee.
  2: { right. do 3 eexists.
       eapply (@stopped_fee _ _ _ _ _ _ _ _ _ _ _ _ (Fails e));
         [ exact Hload | exact Hfee | reflexivity ]. }
  2: { right. do 3 eexists.
       eapply (@stopped_fee _ _ _ _ _ _ _ _ _ _ _ _ Waits);
         [ exact Hload | exact Hfee | exact I ]. }
  destruct (build_payment Number_toString sdk account fee recipient
              amountPerPerson memo) as [transaction | e] eqn:Hbuild.
  2: { right. do 3 eexists. eapply stopped_build; eassumption. }
  assert (Hprepared : prepared Number_toString srv publicKey amountPerPerson
                        memo recipient w transaction w2).
  { exists w1, account, fee. auto. }
  destruct (signTransaction srv (toXDR sdk transaction)
              (sign_options publicKey) w2) as [w3 [signedXDR | e | ] ]
    eqn:Hsign.
  2: { right. do 3 eexists.
       eapply (@stopped_sign _ _ _ _ _ _ _ _ _ _ _ _ (Fails e));
         [ exact Hprepared | exact Hsign | reflexivity ]. }
  2: { right. do 3 eexists.
       eapply (@stopped_sign _ _ _ _ _ _ _ _ _ _ _ _ Waits);
         [ exact Hprepared | exact Hsign | exact I ]. }
  destruct (fromXDR sdk signedXDR TESTNET) as [signedTx | e] eqn:Hxdr.
  2: { right. do 3 eexists. eapply stopped_decode; eassumption. }
  assert (Hsigned : signed Number_toString srv publicKey amountPerPerson memo
                      recipient w transaction signedTx w3).
  { exists w2, signedXDR. auto. }
  destruct (submitTransaction srv signedTx w3) as [w4 [result | e | ] ]
    eqn:Hsubmit.
  - left. do 3 eexists. eapply paid_intro; eassumption.
  - right. do 3 eexists.
    eapply (@stopped_submit _ _ _ _ _ _ _ _ _ _ _ _ _ (Fails e));
      [ exact Hsigned | exact Hsubmit | reflexivity ].
  - right. do 3 eexists.
    eapply (@stopped_submit _ _ _ _ _ _ _ _ _ _ _ _ _ Waits);
      [ exact Hsigned | exact Hsubmit | exact I ].
Qed.

(** A pass that waits shows a collaborator that does not answer. *)
Lemma stopped_waits (recipient : jstring) (w : World srv) cs w' :
  stopped Number_toString srv publicKey amountPerPerson memo recipient w cs
    Waits w' ->
  ~ responsive srv.
Proof.
  intros Hstop (Hl & Hf & Hs & Hsub).
  inversion Hstop as [ w1 c h Hload Hhalt
                     | w1 account w2 c h Hload Hfee Hhalt
                     | | transaction w2 w3 c h Hprepared Hsign Hhalt
                     | | transaction signedTx w3 w4 c h Hsigned Hsubmit
                           Hhalt ];
    subst; destruct c; cbn in Hhalt; try contradiction.
  - apply (Hl publicKey w). rewrite Hload. reflexivity.
  - apply (Hf w1). rewrite Hfee. reflexivity.
  - apply (Hs (toXDR sdk transaction) (sign_options publicKey) w2).
    rewrite Hsign. reflexivity.
  - apply (Hsub signedTx w3). rewrite Hsubmit. reflexivity.
Qed.

(** *** One pass through the loop body *)

Ltac run_attempt Hpass :=
  unfold attempt, try_catch, bind at 1; rewrite Hpass.

Lemma attempt_paid (recipient : jstring) (currentIndex total : nat)
    (s : State srv) cs hash w' :
  paid Number_toString srv publicKey amountPerPerson memo recipient
    (world s) cs hash w' ->
  attempt Number_toString srv publicKey recipient amountPerPerson memo
    currentIndex total s
  = (mkState srv w'
       (trace s ++ cs ++
        [UpdateSplitProgress currentIndex total (js "success")])
       (results s ++ [success_of amountPerPerson recipient hash]),
     Normal false).
Proof.
  intros Hpaid.
  run_attempt (@try_payment_paid recipient currentIndex total s _ _ _ Hpaid).
  reflexivity.
Qed.

(** The failure of a pass becomes a failed result, and the loop is told
    to stop. *)
Lemma attempt_failed (recipient : jstring) (currentIndex total : nat)
    (s : State srv) cs error text w' :
  stopped Number_toString srv publicKey amountPerPerson memo recipient
    (world s) cs (Fails error) w' ->
  errorMessage error = Returns text ->
  attempt Number_toString srv publicKey recipient amountPerPerson memo
    currentIndex total s
  = (mkState srv w'
       (trace s ++ cs ++
        [ConsoleError (failure_text recipient) error;
         UpdateSplitProgress currentIndex total (js "failed")])
       (results s ++ [failure_of amountPerPerson recipient text]),
     Normal true).
Proof.
  intros Hstop Htext.
  run_attempt (@try_payment_stopped recipient currentIndex total s _ _ _ Hstop).
  cbn [completion_of].
  unfold catch_payment, bind, lift, push, updateSplitProgress, emit, ret.
  rewrite Htext. cbn [world trace results].
  rewrite <- ?app_assoc. reflexivity.
Qed.

(** The [catch] block throws when the message of the caught value
    cannot be tested: nothing is recorded. *)
Lemma attempt_thrown (recipient : jstring) (currentIndex total : nat)
    (s : State srv) cs error typeError w' :
  stopped Number_toString srv publicKey amountPerPerson memo recipient
    (world s) cs (Fails error) w' ->
  errorMessage error = Raises typeError ->
  attempt Number_toString srv publicKey recipient amountPerPerson memo
    currentIndex total s
  = (mkState srv w'
       (trace s ++ cs ++ [ConsoleError (failure_text recipient) error])
       (results s),
     Thrown typeError).
Proof.
  intros Hstop Htext.
  run_attempt (@try_payment_stopped recipient currentIndex total s _ _ _ Hstop).
  cbn [completion_of].
  unfold catch_payment, bind, lift, push, updateSplitProgress, emit, ret,
    throw.
  rewrite Htext. cbn [world trace results].
  rewrite <- ?app_assoc. reflexivity.
Qed.

Lemma attempt_waiting (recipient : jstring) (currentIndex total : nat)
    (s : State srv) cs w' :
  stopped Number_toString srv publicKey amountPerPerson memo recipient
    (world s) cs Waits w' ->
  attempt Number_toString srv publicKey recipient amountPerPerson memo
    currentIndex total s
  = (mkState srv w' (trace s ++ cs) (results s), Suspended).
Proof.
  intros Hstop.
  run_attempt (@try_payment_stopped recipient currentIndex total s _ _ _ Hstop).
  reflexivity.
Qed.

(** *** The loop *)

Lemma split_loop_cons (recipient : jstring) (rest : list jstring)
    (total currentIndex : nat) :
  split_loop Number_toString srv publicKey (recipient :: rest)
    amountPerPerson memo total currentIndex
  = (updateSplitProgress srv (S currentIndex) total (js "processing") ;;
     break <-
       attempt Number_toString srv publicKey recipient amountPerPerson memo
         (S currentIndex) total ;;
     if break : bool then ret tt
     else split_loop Number_toString srv publicKey rest amountPerPerson
            memo total (S currentIndex)).
Proof. reflexivity. Qed.

(** Whatever the collaborators do, the loop has a run. *)
Lemma settlement_exists (total : nat) (rest : list jstring) :
  forall (currentIndex : nat) (w : World srv),
  exists rs evs c w',
    settlement Number_toString srv publicKey amountPerPerson memo total rest
      currentIndex w rs evs c w'.
Proof.
  induction rest as [ | recipient rest IH ]; intros currentIndex w.
  - do 4 eexists. apply settlement_done.
  - destruct (pass_cases recipient w)
      as [ (cs & hash & w1 & Hpaid) | (cs & [ error | ] & w1 & Hstop) ].
    + destruct (IH (S currentIndex) w1) as (rs & evs & c & w' & Hrest).
      do 4 eexists. eapply settlement_paid; eassumption.
    + destruct (errorMessage error) as [ text | typeError ] eqn:Htext.
      * do 4 eexists. eapply settlement_failed; eassumption.
      * do 4 eexists. eapply settlement_thrown; eassumption.
    + do 4 eexists. eapply settlement_waiting; eassumption.
Qed.

(** The loop runs as its run says. *)
Lemma settlement_sound total rest currentIndex w rs evs c w' :
  settlement Number_toString srv publicKey amountPerPerson memo total rest
    currentIndex w rs evs c w' ->
  forall s : State srv,
    world s = w ->
    split_loop Number_toString srv publicKey rest amountPerPerson memo
      total currentIndex s
    = (mkState srv w' (trace s ++ evs) (results s ++ rs), c).
Proof.
  induction 1 as [ currentIndex w
                 | recipient rest currentIndex w cs hash w1 rs evs c w'
                     Hpaid _ IH
                 | recipient rest currentIndex w cs error text w' Hstop Htext
                 | recipient rest currentIndex w cs error typeError w' Hstop
                     Htext
                 | recipient rest currentIndex w cs w' Hstop ];
    intros s Hworld; subst w.
  - cbn. rewrite !app_nil_r. destruct s; reflexivity.
  - rewrite split_loop_cons.
    unfold bind at 1, updateSplitProgress at 1, emit at 1.
    unfold bind at 1.
    rewrite (@attempt_paid recipient (S currentIndex) total _ cs hash w1)
      by exact Hpaid.
    rewrite IH by reflexivity. cbn [world trace results].
    rewrite <- !app_assoc. reflexivity.
  - rewrite split_loop_cons.
    unfold bind at 1, updateSplitProgress at 1, emit at 1.
    unfold bind at 1.
    rewrite (@attempt_failed recipient (S currentIndex) total _ cs error
               text w') by assumption.
    unfold ret. cbn [world trace results].
    rewrite <- !app_assoc. reflexivity.
  - rewrite split_loop_cons.
    unfold bind at 1, updateSplitProgress at 1, emit at 1.
    unfold bind at 1.
    rewrite (@attempt_thrown recipient (S currentIndex) total _ cs error
               typeError w') by assumption.
    cbn [world trace results].
    rewrite <- !app_assoc, app_nil_r. reflexivity.
  - rewrite split_loop_cons.
    unfold bind at 1, updateSplitProgress at 1, emit at 1.
    unfold bind at 1.
    rewrite (@attempt_waiting recipient (S currentIndex) total _ cs w')
      by assumption.
    cbn [world trace results].
    rewrite <- !app_assoc, app_nil_r. reflexivity.
Qed.

(** [executeSplit] runs as the run of its loop says. *)
Lemma executeSplit_sound (participants : list jstring) (s : State srv)
    rs evs c w' :
  settlement Number_toString srv publicKey amountPerPerson memo
    (List.length participants) participants 0 (world s) rs evs c w' ->
  executeSplit Number_toString srv publicKey participants amountPerPerson
    memo s
  = (mkState srv w' (trace s ++ evs) rs, finish c rs).
Proof.
  intros Hshape.
  unfold executeSplit, bind at 1, set_results.
  unfold bind at 1.
  rewrite (settlement_sound Hshape
             (mkState srv (world s) (trace s) []) eq_refl).
  cbn [world trace results app].
  destruct c as [ [] | e | ]; reflexivity.
Qed.

Lemma executeSplit_settlement (participants : list jstring)
    (s : State srv) :
  exists w evs rs c,
    executeSplit Number_toString srv publicKey participants amountPerPerson
      memo s
    = (mkState srv w (trace s ++ evs) rs, finish c rs)
    /\ settlement Number_toString srv publicKey amountPerPerson memo
         (List.length participants) participants 0 (world s) rs evs c w.
Proof.
  destruct (settlement_exists (List.length participants) participants 0
              (world s)) as (rs & evs & c & w & Hshape).
  exists w, evs, rs, c. split; [ | exact Hshape ].
  apply executeSplit_sound. exact Hshape.
Qed.

(** *** What the shape of a run gives *)

Lemma settlement_run_of total rest currentIndex w rs evs c w' :
  settlement Number_toString srv publicKey amountPerPerson memo total rest
    currentIndex w rs evs c w' ->
  run_of srv amountPerPerson rest rs evs c.
Proof.
  induction 1 as [ currentIndex w
                 | recipient rest currentIndex w cs hash w1 rs evs c w'
                     Hpaid _ IH
                 | recipient rest currentIndex w cs error text w' Hstop Htext
                 | recipient rest currentIndex w cs error typeError w' Hstop
                     Htext
                 | recipient rest currentIndex w cs w' Hstop ].
  - constructor.
  - econstructor; [ exact IH | ].
    intros ev Hin. right. apply in_or_app. right. right. exact Hin.
  - econstructor; [ | exact Htext ].
    right. apply in_or_app. right. left. reflexivity.
  - econstructor; [ | exact Htext ].
    right. apply in_or_app. right. left. reflexivity.
  - constructor. exact (stopped_waits Hstop).
Qed.

Lemma executeSplit_spec (participants : list jstring) (s : State srv) :
  exists w evs rs c,
    executeSplit Number_toString srv publicKey participants amountPerPerson
      memo s
    = (mkState srv w (trace s ++ evs) rs, finish c rs)
    /\ run_of srv amountPerPerson participants rs evs c.
Proof.
  destruct (executeSplit_settlement participants s)
    as (w & evs & rs & c & Hrun & Hshape).
  exists w, evs, rs, c. split; [ exact Hrun | ].
  exact (settlement_run_of Hshape).
Qed.

Lemma run_of_length rest rs evs c :
  run_of srv amountPerPerson rest rs evs c ->
  List.length rs <= List.length rest.
Proof. induction 1; cbn; lia. Qed.

Lemma run_of_recipients rest rs evs c :
  run_of srv amountPerPerson rest rs evs c ->
  forall i r,
    nth_error rs i = Some r ->
    nth_error rest i = Some (PaymentResult.recipient r).
Proof.
  induction 1 as [ | | recipient rest error text evs _ _
                   | recipient rest error typeError evs _ _
                   | recipient rest hash rs evs evs' c _ IH _ ];
    intros i r Hnth.
  - destruct i; discriminate.
  - destruct i; discriminate.
  - destruct i as [ | [ | i ] ]; cbn in Hnth; try discriminate.
    injection Hnth as <-. reflexivity.
  - destruct i; discriminate.
  - destruct i as [ | i ]; cbn in Hnth.
    + injection Hnth as <-. reflexivity.
    + cbn. apply IH. exact Hnth.
Qed.

Lemma run_of_failed_is_last rest rs evs c :
  run_of srv amountPerPerson rest rs evs c ->
  forall i r,
    nth_error rs i = Some r ->
    PaymentResult.status r = js "failed" ->
    S i = List.length rs.
Proof.
  induction 1 as [ | | recipient rest error text evs _ _
                   | recipient rest error typeError evs _ _
                   | recipient rest hash rs evs evs' c _ IH _ ];
    intros i r Hnth Hfailed.
  - destruct i; discriminate.
  - destruct i; discriminate.
  - destruct i as [ | [ | i ] ]; cbn in Hnth; try discriminate.
    reflexivity.
  - destruct i; discriminate.
  - destruct i as [ | i ]; cbn in Hnth.
    + injection Hnth as <-. cbn in Hfailed. discriminate.
    + cbn. f_equal. eapply IH; eassumption.
Qed.


(** A run that came to its end paid every participant, or stopped at
    a failure that is its last result. *)
Lemma run_of_returned rest rs evs c :
  run_of srv amountPerPerson rest rs evs c ->
  c = Normal tt ->
  (List.length rs = List.length rest
   /\ Forall (fun r => PaymentResult.status r = js "success") rs)
  \/ (exists error text front recipient,
        errorMessage error = Returns text
        /\ In (ConsoleError (failure_text recipient) error) evs
        /\ rs = front ++ [failure_of amountPerPerson recipient text]).
Proof.
  induction 1 as [ | | recipient rest error text evs Hlogged Htext
                   | recipient rest error typeError evs _ _
                   | recipient rest hash rs evs evs' c _ IH Hincl ];
    intros Hret.
  - left. split; [ reflexivity | constructor ].
  - discriminate.
  - right. exists error, text, [], recipient. auto.
  - discriminate.
  - destruct (IH Hret) as [ (Hlen & Hall)
                          | (error & text & front & recipient' & Htext
                             & Hlogged & ->) ].
    + left. split; [ cbn; congruence | ].
      constructor; [ reflexivity | exact Hall ].
    + right.
      exists error, text,
        (success_of amountPerPerson recipient hash :: front), recipient'.
      split; [ exact Htext | ].
      split; [ apply Hincl; exact Hlogged | reflexivity ].
Qed.

Lemma run_of_waiting rest rs evs c :
  run_of srv amountPerPerson rest rs evs c ->
  c = Suspended -> ~ responsive srv.
Proof. induction 1; intros Hret; try discriminate; auto. Qed.

(** A run throws only what the test of the message of a caught value
    throws. *)
Lemma run_of_thrown rest rs evs c :
  run_of srv amountPerPerson rest rs evs c ->
  forall typeError,
    c = Thrown typeError ->
    exists recipient error,
      In recipient rest
      /\ In (ConsoleError (failure_text recipient) error) evs
      /\ errorMessage error = Raises typeError.
Proof.
  induction 1 as [ | | recipient rest error text evs _ _
                   | recipient rest error typeError' evs Hlogged Htext
                   | recipient rest hash rs evs evs' c _ IH Hincl ];
    intros typeError Hthrown; try discriminate.
  - injection Hthrown as <-. exists recipient, error.
    split; [ left; reflexivity | split; assumption ].
  - destruct (IH typeError Hthrown) as (recipient' & error & Hin & Hlogged
                                        & Htext).
    exists recipient', error.
    split; [ right; exact Hin | ].
    split; [ apply Hincl; exact Hlogged | exact Htext ].
Qed.

(** *** The claims on [executeSplit] *)

(** C1. The payer splits among [A], [B] and any later participants.
    Every step of the payment to [A] answers, and for [B] the account
    load, the fee and the construction answer but the wallet rejects
    the signature request with an error whose message contains "User
    declined".  Then [executeSplit] returns exactly the success of
    [A] followed by the failure of [B] tagged "Declined by user"; the
    trace holds the calls of these two passes and nothing after the
    failure of [B]: two account loads, two signature requests, one
    submission, none of them for a later participant. *)
Theorem executeSplit_second_signature_declined (A B : jstring)
    (later : list jstring) (s : State srv) w1 w2 w3 w4 w5 w6 w7
    accountA feeA txA signedA signedTxA resultA accountB feeB txB error :
  loadAccount srv publicKey (world s) = (w1, Normal accountA) ->
  fetchBaseFee srv w1 = (w2, Normal feeA) ->
  build_payment Number_toString sdk accountA feeA A amountPerPerson memo
  = Returns txA ->
  signTransaction srv (toXDR sdk txA) (sign_options publicKey) w2
  = (w3, Normal signedA) ->
  fromXDR sdk signedA TESTNET = Returns signedTxA ->
  submitTransaction srv signedTxA w3 = (w4, Normal resultA) ->
  loadAccount srv publicKey w4 = (w5, Normal accountB) ->
  fetchBaseFee srv w5 = (w6, Normal feeB) ->
  build_payment Number_toString sdk accountB feeB B amountPerPerson memo
  = Returns txB ->
  signTransaction srv (toXDR sdk txB) (sign_options publicKey) w6
  = (w7, Thrown error) ->
  message_includes error (js "User declined") = Returns true ->
  executeSplit Number_toString srv publicKey (A :: B :: later)
    amountPerPerson memo s
  = (mkState srv w7
       (trace s ++
        [UpdateSplitProgress 1 (S (S (List.length later)))
           (js "processing");
         CallLoadAccount publicKey; CallFetchBaseFee;
         CallSignTransaction (toXDR sdk txA) (sign_options publicKey);
         CallSubmitTransaction signedTxA;
         UpdateSplitProgress 1 (S (S (List.length later))) (js "success");
         UpdateSplitProgress 2 (S (S (List.length later)))
           (js "processing");
         CallLoadAccount publicKey; CallFetchBaseFee;
         CallSignTransaction (toXDR sdk txB) (sign_options publicKey);
         ConsoleError (failure_text B) error;
         UpdateSplitProgress 2 (S (S (List.length later))) (js "failed")])
       [success_of amountPerPerson A (SubmitResult.hash resultA);
        PaymentResult.failed B amountPerPerson (js "Declined by user")],
     Normal
       [success_of amountPerPerson A (SubmitResult.hash resultA);
        PaymentResult.failed B amountPerPerson (js "Declined by user")]).
Proof.
  intros HloadA HfeeA HbuildA HsignA HxdrA HsubmitA HloadB HfeeB HbuildB
    HsignB Hdeclined.
  assert (Htext : errorMessage error = Returns (js "Declined by user")).
  { unfold errorMessage. rewrite Hdeclined. reflexivity. }
  assert (HpaidA : paid Number_toString srv publicKey amountPerPerson memo A
                     (world s)
                     [CallLoadAccount publicKey; CallFetchBaseFee;
                      CallSignTransaction (toXDR sdk txA)
                        (sign_options publicKey);
                      CallSubmitTransaction signedTxA]
                     (SubmitResult.hash resultA) w4).
  { eapply paid_intro; [ | exact HsubmitA ].
    exists w2, signedA. split; [ exists w1, accountA, feeA; auto | auto ]. }
  assert (HstopB : stopped Number_toString srv publicKey amountPerPerson memo
                     B w4
                     [CallLoadAccount publicKey; CallFetchBaseFee;
                      CallSignTransaction (toXDR sdk txB)
                        (sign_options publicKey)]
                     (Fails error) w7).
  { eapply stopped_sign; [ | exact HsignB | reflexivity ].
    exists w5, accountB, feeB. auto. }
  eassert (Hshape : settlement Number_toString srv publicKey amountPerPerson
                      memo (List.length (A :: B :: later)) (A :: B :: later)
                      0 (world s) _ _ _ _).
  { eapply settlement_paid; [ exact HpaidA | ].
    eapply settlement_failed; [ exact HstopB | exact Htext ]. }
  rewrite (@executeSplit_sound (A :: B :: later) s _ _ _ _ Hshape).
  reflexivity.
Qed.

(** X19.  A pass of [executeSplit] that fails, at the account query,
    the fee query, the construction, the signature, its decoding or the
    submission, with a value whose message can be tested becomes a
    failed outcome.  Every run of [executeSplit] is a [settlement]:
    passes that are paid, each recorded as a success, and then at most
    one pass that stops, which is recorded as the failure of its
    participant and ends the run with a return; and whatever settlement
    the collaborators allow is the run [executeSplit] makes.  In
    particular a first pass that fails so ends the run with the failure
    of that participant as the one result, no later participant being
    attempted.  A run throws only the [TypeError] that the test of the
    message raises in the [catch] block, on a caught value it has
    written to the console; it is left waiting only when a collaborator
    leaves a call unanswered; and when it returns, it returns the list
    it recorded, in which either every participant has a success or the
    last entry is the failure the run stopped at. *)
Theorem executeSplit_failures_become_outcomes (participants : list jstring)
    (s : State srv) :
  (exists w evs rs c,
     executeSplit Number_toString srv publicKey participants amountPerPerson
       memo s
     = (mkState srv w (trace s ++ evs) rs, finish c rs)
     /\ settlement Number_toString srv publicKey amountPerPerson memo
          (List.length participants) participants 0 (world s) rs evs c w)
  /\ (forall rs evs c w',
        settlement Number_toString srv publicKey amountPerPerson memo
          (List.length participants) participants 0 (world s) rs evs c w' ->
        executeSplit Number_toString srv publicKey participants
          amountPerPerson memo s
        = (mkState srv w' (trace s ++ evs) rs, finish c rs))
  /\ (forall recipient rest cs error text w',
        participants = recipient :: rest ->
        stopped Number_toString srv publicKey amountPerPerson memo recipient
          (world s) cs (Fails error) w' ->
        errorMessage error = Returns text ->
        executeSplit Number_toString srv publicKey participants
          amountPerPerson memo s
        = (mkState srv w'
             (trace s ++
              UpdateSplitProgress 1 (List.length participants)
                (js "processing")
              :: cs ++
              [ConsoleError (failure_text recipient) error;
               UpdateSplitProgress 1 (List.length participants)
                 (js "failed")])
             [PaymentResult.failed recipient amountPerPerson text],
           Normal [PaymentResult.failed recipient amountPerPerson text]))
  /\ (forall typeError,
        snd (executeSplit Number_toString srv publicKey participants
               amountPerPerson memo s)
        = Thrown typeError ->
        exists recipient error evs,
          trace (fst (executeSplit Number_toString srv publicKey
                        participants amountPerPerson memo s))
          = trace s ++ evs
          /\ In recipient participants
          /\ In (ConsoleError (failure_text recipient) error) evs
          /\ errorMessage error = Raises typeError)
  /\ (snd (executeSplit Number_toString srv publicKey participants
             amountPerPerson memo s) = Suspended ->
      ~ responsive srv)
  /\ (forall rs,
        snd (executeSplit Number_toString srv publicKey participants
               amountPerPerson memo s) = Normal rs ->
        rs = results (fst (executeSplit Number_toString srv publicKey
                             participants amountPerPerson memo s))
        /\ ((List.length rs = List.length participants
             /\ Forall (fun r => PaymentResult.status r = js "success") rs)
            \/ exists error text front recipient,
                 errorMessage error = Returns text
                 /\ rs = front ++
                         [PaymentResult.failed recipient amountPerPerson
                            text])).
Proof.
  split; [ apply executeSplit_settlement | ].
  split; [ intros rs evs c w'; apply executeSplit_sound | ].
  split.
  { intros recipient rest cs error text w' -> Hstop Htext.
    eassert (Hshape : settlement Number_toString srv publicKey
                        amountPerPerson memo
                        (List.length (recipient :: rest)) (recipient :: rest)
                        0 (world s) _ _ _ _).
    { eapply settlement_failed; [ exact Hstop | exact Htext ]. }
    rewrite (@executeSplit_sound (recipient :: rest) s _ _ _ _ Hshape).
    reflexivity. }
  destruct (executeSplit_spec participants s)
    as (w & evs & rs & c & Hrun & Hshape).
  rewrite Hrun. cbn [fst snd results trace].
  destruct c as [ [] | e | ]; cbn [finish].
  - split; [ intros typeError; discriminate | ].
    split; [ discriminate | ].
    intros rs' [= <-].
    split; [ reflexivity | ].
    destruct (run_of_returned Hshape eq_refl)
      as [ Hall | (error & text & front & recipient & Htext & _ & Heq) ];
      [ left; exact Hall | right ].
    exists error, text, front, recipient. split; assumption.
  - split.
    { intros typeError [= <-].
      destruct (run_of_thrown Hshape eq_refl)
        as (recipient & error & Hin & Hlogged & Htext).
      exists recipient, error, evs. auto. }
    split; discriminate.
  - split; [ intros typeError; discriminate | ].
    split; [ intros _; apply (run_of_waiting Hshape eq_refl) | ].
    discriminate.
Qed.

(** C9. The results of [executeSplit] (the list it returns, which is
    the list it has recorded) follow the participants from the first
    one on: there are at most as many, the i-th result is for the i-th
    participant, every result before the last is a success, and a
    failure is the last result. *)
Theorem executeSplit_results_aligned (participants : list jstring)
    (s : State srv) :
  (forall rs,
     snd (executeSplit Number_toString srv publicKey participants
            amountPerPerson memo s) = Normal rs ->
     rs = results (fst (executeSplit Number_toString srv publicKey
                          participants amountPerPerson memo s)))
  /\ List.length
       (results (fst (executeSplit Number_toString srv publicKey
                        participants amountPerPerson memo s)))
     <= List.length participants
  /\ (forall i r,
        nth_error
          (results (fst (executeSplit Number_toString srv publicKey
                           participants amountPerPerson memo s)))
          i = Some r ->
        nth_error participants i = Some (PaymentResult.recipient r)
        /\ (S i <
            List.length
              (results (fst (executeSplit Number_toString srv publicKey
                               participants amountPerPerson memo s))) ->
            PaymentResult.status r = js "success")
        /\ (PaymentResult.status r = js "failed" ->
            S i =
            List.length
              (results (fst (executeSplit Number_toString srv publicKey
                               participants amountPerPerson memo s))))).
Proof.
  destruct (executeSplit_spec participants s)
    as (w & evs & rs & c & Hrun & Hshape).
  rewrite Hrun. cbn [fst snd results].
  split; [ | split ].
  - destruct c as [ [] | e | ]; cbn [finish];
      [ intros rs' [= <-]; reflexivity | discriminate | discriminate ].
  - apply (run_of_length Hshape).
  - intros i r Hnth. split; [ | split ].
    + apply (run_of_recipients Hshape _ Hnth).
    + intros Hlt. destruct r as [ ? ? ? ? | ? ? ? ] eqn:Hr;
        [ reflexivity | ].
      pose proof (run_of_failed_is_last Hshape _ Hnth eq_refl). lia.
    + apply (run_of_failed_is_last Hshape _ Hnth).
Qed.



End ExecuteSplit.

(** What Horizon and the SDK raise for a rejected submission, a stale
    sequence number and an expired validity window carries neither of
    the two texts searched for; a value without a message, such as a
    bare string, carries none at all. *)
Example errorMessage_collapses :
  errorMessage (ErrorObject (js "Request failed with status code 400"))
  = Returns (js "Payment failed")
  /\ errorMessage (ErrorObject (js "tx_bad_seq"))
     = Returns (js "Payment failed")
  /\ errorMessage (ErrorObject (js "tx_too_late"))
     = Returns (js "Payment failed")
  /\ errorMessage (ErrorObject (js "Network Error"))
     = Returns (js "Payment failed")
  /\ errorMessage (ThrownString (js "User declined access"))
     = Returns (js "Payment failed")
  /\ errorMessage (ThrownObject MessageAbsent)
     = Returns (js "Payment failed")
  /\ errorMessage (ThrownObject (MessageArray [JsString (js "User declined")]))
     = Returns (js "Declined by user").
Proof. repeat split; vm_compute; reflexivity. Qed.

(** The values on which the test itself throws. *)
Example errorMessage_throws :
  errorMessage ThrownUndefined
  = Raises (ErrorObject
              (js "Cannot read properties of undefined (reading 'message')"))
  /\ errorMessage ThrownNull
     = Raises (ErrorObject
                 (js "Cannot read properties of null (reading 'message')"))
  /\ errorMessage (ThrownObject MessageOther)
     = Raises (ErrorObject (js "error.message?.includes is not a function")).
Proof. repeat split; reflexivity. Qed.

(** ** balance.js *)

Section Balance.

Variable Number_toString : number -> jstring.
Variable sdk : Sdk.
Variable srv : Services sdk.

Ltac run_check :=
  unfold checkSufficientBalance, try_catch, bind, await, emit, ret, throw;
  cbn [world trace results].

(** [checkSufficientBalance] itself hands a failed query on to its
    caller, after writing it to the console. *)
Lemma checkSufficientBalance_rethrows (publicKey : jstring)
    (amount : js_value) (numPayments : number) (s : State srv) w error :
  loadAccount srv publicKey (world s) = (w, Thrown error) ->
  checkSufficientBalance Number_toString srv publicKey amount numPayments s
  = (mkState srv w
       (trace s ++
        [CallLoadAccount publicKey;
         ConsoleError (js "Error checking balance:") error])
       (results s),
     Thrown error).
Proof.
  intros Hload. run_check. rewrite Hload. cbn [world trace results].
  rewrite <- app_assoc. reflexivity.
Qed.

Lemma checkSufficientBalance_answers (publicKey : jstring)
    (amount : js_value) (numPayments : number) (s : State srv) w account :
  loadAccount srv publicKey (world s) = (w, Normal account) ->
  checkSufficientBalance Number_toString srv publicKey amount numPayments s
  = (mkState srv w (trace s ++ [CallLoadAccount publicKey]) (results s),
     Normal
       (BalanceCheck.make
          (ge (parseFloat_string (native_balance account))
             (estimateTotalCost Number_toString amount numPayments))
          (toFixed Number_toString
             (parseFloat_string (native_balance account)) 2)
          (toFixed Number_toString
             (estimateTotalCost Number_toString amount numPayments) 2)
          (if lt (parseFloat_string (native_balance account))
                (estimateTotalCost Number_toString amount numPayments)
           then toFixed Number_toString
                  (sub (estimateTotalCost Number_toString amount numPayments)
                     (parseFloat_string (native_balance account))) 2
           else js "0"))).
Proof.
  intros Hload. run_check. rewrite Hload. reflexivity.
Qed.

(** C6. When the account query of the balance check fails, the check
    that the form runs before a split, and the one it runs before a
    payment, answer [true]: go ahead.  [checkSufficientBalance] hands
    the failure to them, and they neither throw it on nor turn it into
    a refusal; it is written to the console twice. *)
Theorem balance_check_fails_open (publicKey : jstring)
    (amount : js_value) (numParticipants : number) (s : State srv)
    w error :
  loadAccount srv publicKey (world s) = (w, Thrown error) ->
  validateBalanceForSplit Number_toString srv publicKey amount
    numParticipants s
  = (mkState srv w
       (trace s ++
        [CallLoadAccount publicKey;
         ConsoleError (js "Error checking balance:") error;
         ConsoleError (js "Error validating balance:") error])
       (results s),
     Normal true)
  /\ validateBalanceForPayment Number_toString srv publicKey amount s
     = (mkState srv w
          (trace s ++
           [CallLoadAccount publicKey;
            ConsoleError (js "Error checking balance:") error;
            ConsoleError (js "Error validating balance:") error])
          (results s),
        Normal true)
  /\ snd (checkSufficientBalance Number_toString srv publicKey amount
            numParticipants s)
     = Thrown error.
Proof.
  intros Hload.
  split; [ | split ];
    [ unfold validateBalanceForSplit | unfold validateBalanceForPayment | ];
    try (unfold try_catch at 1, bind at 1);
    rewrite (checkSufficientBalance_rethrows _ _ _ _ Hload);
    [ | | reflexivity ];
    unfold bind, emit, ret; cbn [world trace results];
    rewrite <- app_assoc; reflexivity.
Qed.

(** C7. The amount is 4 and three payments are planned.  The check
    compares the balance with 4 plus three times the fee, a cost above
    4 whose two-digit text is "4.00": its answer is sufficient exactly
    when the balance is at least that cost.  So a balance of 10 is
    reported sufficient, with "10.00" available, "4.00" required and no
    shortfall, and a balance of exactly 4 is reported insufficient,
    with "4.00" available and "4.00" required. *)
Theorem checkSufficientBalance_ten_four_three (publicKey : jstring)
    (amount : js_value) (s : State srv) w account :
  loadAccount srv publicKey (world s) = (w, Normal account) ->
  parseFloat Number_toString amount = of_Z 4 ->
  exists check,
    checkSufficientBalance Number_toString srv publicKey amount (of_Z 3) s
    = (mkState srv w (trace s ++ [CallLoadAccount publicKey]) (results s),
       Normal check)
    /\ BalanceCheck.sufficient check
       = ge (parseFloat_string (native_balance account))
            (add (of_Z 4) (mul BASE_FEE_XLM (of_Z 3)))
    /\ BalanceCheck.required check = js "4.00"
    /\ lt (of_Z 4) (add (of_Z 4) (mul BASE_FEE_XLM (of_Z 3))) = true
    /\ estimateTotalCost Number_toString amount (of_Z 3)
       = add (of_Z 4) (mul BASE_FEE_XLM (of_Z 3))
    /\ (parseFloat_string (native_balance account) = of_Z 10 ->
        check = BalanceCheck.make true (js "10.00") (js "4.00") (js "0"))
    /\ (parseFloat_string (native_balance account) = of_Z 4 ->
        check
        = BalanceCheck.make false (js "4.00") (js "4.00") (js "0.00")).
Proof.
  intros Hload Hamount.
  assert (Hcost : estimateTotalCost Number_toString amount (of_Z 3)
                  = add (of_Z 4) (mul BASE_FEE_XLM (of_Z 3))).
  { unfold estimateTotalCost. rewrite Hamount. reflexivity. }
  rewrite (checkSufficientBalance_answers _ _ _ _ Hload).
  rewrite Hcost.
  eexists. split; [ reflexivity | ].
  cbn [BalanceCheck.sufficient BalanceCheck.required].
  split; [ reflexivity | ].
  split; [ vm_compute; reflexivity | ].
  split; [ vm_compute; reflexivity | ].
  split; [ reflexivity | ].
  split; intros ->; vm_compute; reflexivity.
Qed.

(** The fees count in the comparison: with a balance of exactly 4 the
    same request is refused, while both amounts read "4.00". *)
Lemma checkSufficientBalance_four_four_three (publicKey : jstring)
    (amount : js_value) (s : State srv) w account :
  loadAccount srv publicKey (world s) = (w, Normal account) ->
  parseFloat_string (native_balance account) = of_Z 4 ->
  parseFloat Number_toString amount = of_Z 4 ->
  checkSufficientBalance Number_toString srv publicKey amount (of_Z 3) s
  = (mkState srv w (trace s ++ [CallLoadAccount publicKey]) (results s),
     Normal (BalanceCheck.make false (js "4.00") (js "4.00") (js "0.00"))).
Proof.
  intros Hload Hbalance Hamount.
  rewrite (checkSufficientBalance_answers _ _ _ _ Hload).
  unfold estimateTotalCost. rewrite Hbalance, Hamount.
  vm_compute; reflexivity.
Qed.

End Balance.

(** ** main.js: from the preview to the payments *)

Section Handlers.

Variable Number_toString : number -> jstring.
Variable decodeEd25519PublicKey : jstring -> sync (list N).
Variable sdk : Sdk.
Variable srv : Services sdk.

Lemma calculateSplit_returns_inv (totalAmount : js_value) (n : number)
    (r : SplitData.t) :
  calculateSplit Number_toString totalAmount (Some n) = Returns r ->
  r = SplitData.make
        (toFixed Number_toString (parseFloat Number_toString totalAmount) 2)
        (toFixed Number_toString
           (parseFloat_string
              (toFixed Number_toString
                 (div (parseFloat Number_toString totalAmount) n) 7)) 2)
        n.
Proof.
  unfold calculateSplit.
  destruct (negb (truthy totalAmount) || negb (JsNumber.truthy n)
            || le n (of_Z 0)); [ discriminate | ].
  intros [= <-]. reflexivity.
Qed.

(** The amount text reaches [Operation.payment] as it is. *)
Lemma build_payment_amount (account : Account.t) (fee : number)
    (recipient amount memo : jstring) :
  build_payment Number_toString sdk account fee recipient (JsString amount)
    memo
  = (let* transactionBuilder :=
       TransactionBuilder_new sdk account fee TESTNET in
     let* payment := Operation_payment sdk recipient native amount in
     let* transactionBuilder :=
       (if JsString.truthy memo
        then let* m := Memo_text sdk memo in
             Returns (addMemo sdk (addOperation sdk transactionBuilder
                                     payment) m)
        else Returns (addOperation sdk transactionBuilder payment)) in
     let* transactionBuilder := setTimeout sdk transactionBuilder 30 in
     build sdk transactionBuilder).
Proof. reflexivity. Qed.

End Handlers.

(** * The residue of [calculateSplit]

    How far the amount per person times the count is from the total.
    The amount goes through four roundings: the binary64 quotient, its
    print with seven fractional digits, the binary64 number read back
    from that text, and its print with two.  Each is bounded over the
    rationals, for quotients below [2 ^ 22]. *)

Section Residue.

Unset Implicit Arguments.

Local Open Scope Z_scope.

(** ** Binary64 division, to within two units of the last place *)

Lemma digits2_pos_bounds (p : positive) :
  2 ^ (Z.pos (digits2_pos p) - 1) <= Z.pos p < 2 ^ Z.pos (digits2_pos p).
Proof.
  induction p as [ p IH | p IH | ]; cbn [digits2_pos].
  - rewrite Pos2Z.inj_succ.
    replace (Z.succ (Z.pos (digits2_pos p)) - 1)
      with (Z.succ (Z.pos (digits2_pos p) - 1)) by lia.
    rewrite !Z.pow_succ_r by lia. lia.
  - rewrite Pos2Z.inj_succ.
    replace (Z.succ (Z.pos (digits2_pos p)) - 1)
      with (Z.succ (Z.pos (digits2_pos p) - 1)) by lia.
    rewrite !Z.pow_succ_r by lia. lia.
  - cbn. lia.
Qed.

(** A number below [2 ^ k] has at most [k] digits. *)
Lemma Zdigits2_le (m k : Z) :
  0 <= m -> 0 <= k -> m < 2 ^ k -> Zdigits2 m <= k.
Proof.
  intros Hm Hk Hlt. destruct m as [ | p | p ]; cbn [Zdigits2]; [ lia | | lia ].
  destruct (digits2_pos_bounds p) as (Hlo & _).
  destruct (Z.le_gt_cases (Z.pos (digits2_pos p)) k) as [ Hle | Hgt ];
    [ exact Hle | ].
  assert (2 ^ k <= 2 ^ (Z.pos (digits2_pos p) - 1))
    by (apply Z.pow_le_mono_r; lia).
  lia.
Qed.

Lemma shr_1_m (mrs : shr_record) :
  0 <= shr_m mrs -> shr_m (shr_1 mrs) = shr_m mrs / 2.
Proof.
  destruct mrs as [ m r s ]. cbn [shr_m]. intros Hm.
  destruct m as [ | [ p | p | ] | p ]; cbn [shr_1 shr_m]; try lia.
  - reflexivity.
  - apply (Z.div_unique (Z.pos p~1) 2 (Z.pos p) 1); lia.
  - apply (Z.div_unique (Z.pos p~0) 2 (Z.pos p) 0); lia.
  - reflexivity.
Qed.

Lemma iter_shr_1_m (p : positive) :
  forall mrs : shr_record,
    0 <= shr_m mrs ->
    shr_m (SpecFloat.iter_pos shr_1 p mrs) = shr_m mrs / 2 ^ Z.pos p.
Proof.
  assert (Hstep : forall mrs, 0 <= shr_m mrs -> 0 <= shr_m (shr_1 mrs)).
  { intros mrs Hm. rewrite shr_1_m by exact Hm. apply Z.div_pos; lia. }
  induction p as [ p IH | p IH | ]; intros mrs Hm; cbn [SpecFloat.iter_pos].
  - rewrite IH, IH, shr_1_m by (try rewrite IH; try apply Z.div_pos;
                                  auto; try apply Z.pow_pos_nonneg; lia).
    rewrite !Z.div_div by (try apply Z.pow_pos_nonneg; lia).
    f_equal. rewrite Pos2Z.inj_xI.
    rewrite <- Z.pow_add_r, <- (Z.pow_1_r 2) at 1 by lia.
    rewrite <- Z.pow_add_r by lia. f_equal. lia.
  - rewrite IH, IH by (try rewrite IH; try apply Z.div_pos;
                         auto; try apply Z.pow_pos_nonneg; lia).
    rewrite !Z.div_div by (try apply Z.pow_pos_nonneg; lia).
    f_equal. rewrite Pos2Z.inj_xO.
    rewrite <- Z.pow_add_r by lia. f_equal. lia.
  - rewrite shr_1_m by exact Hm. reflexivity.
Qed.

Lemma shr_spec (mrs : shr_record) (e n : Z) :
  0 <= shr_m mrs ->
  shr_m (fst (shr mrs e n)) = shr_m mrs / 2 ^ Z.max 0 n
  /\ snd (shr mrs e n) = e + Z.max 0 n.
Proof.
  intros Hm. destruct n as [ | p | p ]; cbn [shr fst snd].
  - cbn. rewrite Z.div_1_r. lia.
  - rewrite iter_shr_1_m by exact Hm.
    replace (Z.max 0 (Z.pos p)) with (Z.pos p) by lia. auto.
  - replace (Z.max 0 (Z.neg p)) with 0 by lia.
    cbn. rewrite Z.div_1_r. lia.
Qed.

Lemma shr_fexp_spec (m e : Z) (l : location) :
  0 <= m ->
  shr_m (fst (shr_fexp prec emax m e l))
  = m / 2 ^ Z.max 0 (fexp prec emax (Zdigits2 m + e) - e)
  /\ snd (shr_fexp prec emax m e l)
     = e + Z.max 0 (fexp prec emax (Zdigits2 m + e) - e).
Proof.
  intros Hm. unfold shr_fexp.
  assert (Hrec : shr_m (shr_record_of_loc m l) = m)
    by (destruct l as [ | [ | | ] ]; reflexivity).
  rewrite <- Hrec at 3. apply shr_spec. rewrite Hrec. exact Hm.
Qed.

Lemma round_nearest_even_cases (m : Z) (l : location) :
  round_nearest_even m l = m \/ round_nearest_even m l = m + 1.
Proof.
  destruct l as [ | [ | | ] ]; cbn [round_nearest_even]; auto.
  destruct (Z.even m); auto.
Qed.

(** What [binary_round_aux] makes of a mantissa that is not negative:
    it is cut to [a], rounded to [b], which is [a] or the next integer,
    and cut again to [c]. *)
Lemma binary_round_aux_spec (mx ex : Z) (lx : location) :
  0 <= mx ->
  exists a b c n1 n2,
    n1 = Z.max 0 (fexp prec emax (Zdigits2 mx + ex) - ex)
    /\ a = mx / 2 ^ n1
    /\ (b = a \/ b = a + 1)
    /\ n2 = Z.max 0 (fexp prec emax (Zdigits2 b + (ex + n1)) - (ex + n1))
    /\ c = b / 2 ^ n2
    /\ binary_round_aux prec emax false mx ex lx
       = match c with
         | Z0 => S754_zero false
         | Z.pos m =>
             if ex + n1 + n2 <=? emax - prec
             then S754_finite false m (ex + n1 + n2)
             else S754_infinity false
         | Z.neg _ => S754_nan
         end.
Proof.
  intros Hm. unfold binary_round_aux.
  destruct (shr_fexp_spec mx ex lx Hm) as (Hm1 & He1).
  destruct (shr_fexp prec emax mx ex lx) as [ mrs1 e1 ].
  cbn [fst snd] in Hm1, He1.
  set (n1 := Z.max 0 (fexp prec emax (Zdigits2 mx + ex) - ex)) in *.
  set (b := round_nearest_even (shr_m mrs1) (loc_of_shr_record mrs1)).
  assert (Ha : 0 <= shr_m mrs1).
  { rewrite Hm1. apply Z.div_pos; [ exact Hm | ].
    apply Z.pow_pos_nonneg; lia. }
  assert (Hb : b = shr_m mrs1 \/ b = shr_m mrs1 + 1)
    by apply round_nearest_even_cases.
  assert (Hb0 : 0 <= b) by lia.
  destruct (shr_fexp_spec b e1 loc_Exact Hb0) as (Hm2 & He2).
  destruct (shr_fexp prec emax b e1 loc_Exact) as [ mrs2 e2 ].
  cbn [fst snd] in Hm2, He2.
  exists (shr_m mrs1), b, (shr_m mrs2), n1,
    (Z.max 0 (fexp prec emax (Zdigits2 b + (ex + n1)) - (ex + n1))).
  subst e1. rewrite He2.
  repeat split; try assumption; try reflexivity.
Qed.

Lemma fexp_le (e b : Z) :
  e <= b -> -1021 <= b -> fexp prec emax e <= b - 53.
Proof. unfold fexp, emin, prec, emax. lia. Qed.

Lemma pow2_pos (k : Z) : 0 <= k -> 0 < 2 ^ k.
Proof. intros Hk. apply Z.pow_pos_nonneg; lia. Qed.

(** The quotient of two positive finite numbers below [2 ^ 23]: the
    mantissa [c] and the exponent [e' + k] of the result, which is at
    most -29, and the distance of [c * 2 ^ k] from the exact quotient
    [m' / my], which is at most [2 * 2 ^ k]. *)
Lemma div_core (mx my : positive) (ex ey : Z) :
  Zdigits2 (Z.pos mx) + ex - (Zdigits2 (Z.pos my) + ey) <= 23 ->
  div_dividend mx ex my ey
  < 2 ^ (23 - div_exponent mx ex my ey) * Z.pos my ->
  exists c k,
    0 <= c /\ 0 <= k
    /\ div_exponent mx ex my ey + k <= -29
    /\ SFdiv prec emax (S754_finite false mx ex) (S754_finite false my ey)
       = match c with
         | Z.pos m => S754_finite false m (div_exponent mx ex my ey + k)
         | _ => S754_zero false
         end
    /\ c * 2 ^ k * Z.pos my - 2 * 2 ^ k * Z.pos my
       <= div_dividend mx ex my ey
       <= c * 2 ^ k * Z.pos my + 2 * 2 ^ k * Z.pos my.
Proof.
  intros Hd Hm.
  unfold div_dividend in *.
  set (e' := div_exponent mx ex my ey) in *.
  assert (He' : e' <= -30).
  { unfold e', div_exponent.
    pose proof (fexp_le (Zdigits2 (Z.pos mx) + ex
                         - (Zdigits2 (Z.pos my) + ey)) 23 Hd).
    lia. }
  assert (Hs : 0 <= ex - ey - e') by (unfold e', div_exponent; lia).
  set (s := ex - ey - e') in *.
  set (m' := Z.pos mx * 2 ^ s) in *.
  assert (Hm'0 : 0 <= m').
  { unfold m'. pose proof (pow2_pos s Hs). lia. }
  assert (Hcore : SFdiv_core_binary prec emax (Z.pos mx) ex (Z.pos my) ey
                  = (m' / Z.pos my, e',
                     new_location (Z.pos my) (m' mod Z.pos my))).
  { unfold SFdiv_core_binary. fold (div_exponent mx ex my ey). fold e'.
    fold s.
    assert (Hshift : match s with
                     | Z.pos _ => Z.shiftl (Z.pos mx) s
                     | 0 => Z.pos mx
                     | Z.neg _ => 0
                     end = m').
    { unfold m'. destruct s as [ | p | p ] eqn:Hsp.
      - cbn. lia.
      - rewrite Z.shiftl_mul_pow2 by lia. reflexivity.
      - lia. }
    rewrite Hshift.
    unfold Z.div, Z.modulo.
    destruct (Z.div_eucl m' (Z.pos my)) as [ q r ]. reflexivity. }
  unfold SFdiv. rewrite Hcore. cbn [xorb].
  set (q := m' / Z.pos my).
  assert (Hq0 : 0 <= q) by (apply Z.div_pos; lia).
  assert (Hqlo : q * Z.pos my <= m').
  { rewrite Z.mul_comm. apply Z.mul_div_le. lia. }
  assert (Hqhi : m' < (q + 1) * Z.pos my).
  { rewrite Z.mul_comm. apply Z.mul_succ_div_gt. lia. }
  assert (Hqb : q < 2 ^ (23 - e')) by nia.
  destruct (binary_round_aux_spec q e'
              (new_location (Z.pos my) (m' mod Z.pos my)) Hq0)
    as (a & b & c & n1 & n2 & Hn1 & Ha & Hb & Hn2 & Hc & Hround).
  assert (Hn1' : 0 <= n1) by lia.
  assert (Hn2' : 0 <= n2) by lia.
  pose proof (pow2_pos n1 Hn1') as Hp1.
  pose proof (pow2_pos n2 Hn2') as Hp2.
  assert (Halo : a * 2 ^ n1 <= q).
  { rewrite Ha, Z.mul_comm. apply Z.mul_div_le. lia. }
  assert (Hahi : q < (a + 1) * 2 ^ n1).
  { rewrite Ha, Z.mul_comm. apply Z.mul_succ_div_gt. lia. }
  assert (Ha0 : 0 <= a) by (rewrite Ha; apply Z.div_pos; lia).
  assert (Hb0 : 0 <= b) by lia.
  assert (Hclo : c * 2 ^ n2 <= b).
  { rewrite Hc, Z.mul_comm. apply Z.mul_div_le. lia. }
  assert (Hchi : b < (c + 1) * 2 ^ n2).
  { rewrite Hc, Z.mul_comm. apply Z.mul_succ_div_gt. lia. }
  assert (Hc0 : 0 <= c) by (rewrite Hc; apply Z.div_pos; lia).
  (* the exponents *)
  assert (He1 : e' + n1 <= -30).
  { assert (Zdigits2 q <= 23 - e') by (apply Zdigits2_le; lia).
    pose proof (fexp_le (Zdigits2 q + e') 23). lia. }
  assert (Hab : a < 2 ^ (23 - (e' + n1))).
  { assert (Hsplit : 2 ^ (23 - e') = 2 ^ (23 - (e' + n1)) * 2 ^ n1).
    { rewrite <- Z.pow_add_r by lia. f_equal. lia. }
    rewrite Hsplit in Hqb. nia. }
  assert (He2 : e' + n1 + n2 <= -29).
  { assert (Hbb : b < 2 ^ (24 - (e' + n1))).
    { replace (24 - (e' + n1)) with (Z.succ (23 - (e' + n1))) by lia.
      rewrite Z.pow_succ_r by lia. lia. }
    assert (Zdigits2 b <= 24 - (e' + n1)) by (apply Zdigits2_le; lia).
    pose proof (fexp_le (Zdigits2 b + (e' + n1)) 24). lia. }
  exists c, (n1 + n2).
  split; [ exact Hc0 | ]. split; [ lia | ].
  split; [ lia | ].
  split.
  { rewrite Hround. destruct c as [ | m | m ]; [ reflexivity | | lia ].
    rewrite Z.add_assoc.
    destruct (Z.leb_spec (e' + n1 + n2) (emax - prec)) as [ _ | Hover ];
      [ reflexivity | unfold emax, prec in Hover; lia ]. }
  rewrite Z.pow_add_r by lia.
  set (P := 2 ^ n1 * 2 ^ n2).
  assert (HP : 2 ^ n1 <= P) by (unfold P; nia).
  assert (Hup : q + 1 <= (c + 1) * P).
  { assert ((a + 1) * 2 ^ n1 <= (c + 1) * 2 ^ n2 * 2 ^ n1)
      by (apply Z.mul_le_mono_nonneg_r; lia).
    unfold P. lia. }
  assert (Hdown : c * P <= q + P).
  { assert (c * 2 ^ n2 * 2 ^ n1 <= (a + 1) * 2 ^ n1)
      by (apply Z.mul_le_mono_nonneg_r; lia).
    unfold P in *. lia. }
  assert (Hup' : (q + 1) * Z.pos my <= (c + 1) * P * Z.pos my)
    by (apply Z.mul_le_mono_nonneg_r; lia).
  assert (Hdown' : c * P * Z.pos my <= (q + P) * Z.pos my)
    by (apply Z.mul_le_mono_nonneg_r; lia).
  assert (HPmy : 0 <= P * Z.pos my) by (unfold P; nia).
  replace (c * P * Z.pos my) with (c * (P * Z.pos my)) in * by ring.
  replace ((c + 1) * P * Z.pos my)
    with (c * (P * Z.pos my) + P * Z.pos my) in * by ring.
  replace ((q + P) * Z.pos my)
    with (q * Z.pos my + P * Z.pos my) in * by ring.
  replace (2 * P * Z.pos my) with (2 * (P * Z.pos my)) by ring.
  split; lia.
Qed.

Local Open Scope Q_scope.

(** ** Values as rationals *)

Lemma P2_add (a b : Z) : P2 (a + b) == P2 a * P2 b.
Proof. unfold P2. apply Qpower_plus. discriminate. Qed.

Lemma P2_pos (e : Z) : 0 < P2 e.
Proof. unfold P2. apply Qpower_0_lt. reflexivity. Qed.

Lemma P2_Z (k : Z) : (0 <= k)%Z -> P2 k == inject_Z (2 ^ k).
Proof. intros Hk. unfold P2. symmetry. apply (Zpower_Qpower 2 k Hk). Qed.

Lemma P2_le (a b : Z) : (a <= b)%Z -> P2 a <= P2 b.
Proof.
  intros Hab. unfold P2. apply Qpower_le_compat_l; [ exact Hab | ].
  discriminate.
Qed.

Lemma P2_lt_inv (a b : Z) : P2 a < P2 b -> (a < b)%Z.
Proof.
  intros Hab. apply (Qpower_lt_compat_l_inv 2); [ exact Hab | reflexivity ].
Qed.

Lemma Qmult_lt_compat_pos (a b c : Q) : 0 < c -> a < b -> a * c < b * c.
Proof. intros Hc Hab. apply Qmult_lt_r; assumption. Qed.

Lemma div_faithful (mx my : positive) (ex ey : Z) :
  inject_Z (Z.pos mx) * P2 ex < P2 23 * (inject_Z (Z.pos my) * P2 ey) ->
  exists z,
    SFdiv prec emax (S754_finite false mx ex) (S754_finite false my ey) = z
    /\ (z = S754_zero false
        \/ exists m e, z = S754_finite false m e /\ (e <= -29)%Z)
    /\ - (P2 (-28) * (inject_Z (Z.pos my) * P2 ey))
       <= value z * (inject_Z (Z.pos my) * P2 ey)
          - inject_Z (Z.pos mx) * P2 ex
       <= P2 (-28) * (inject_Z (Z.pos my) * P2 ey).
Proof.
  intros Hlt.
  set (X := inject_Z (Z.pos mx) * P2 ex) in *.
  set (Y := inject_Z (Z.pos my) * P2 ey) in *.
  set (d1 := Z.pos (digits2_pos mx)).
  set (d2 := Z.pos (digits2_pos my)).
  destruct (digits2_pos_bounds mx) as (Hd1 & _).
  destruct (digits2_pos_bounds my) as (_ & Hd2).
  fold d1 in Hd1. fold d2 in Hd2.
  pose proof (P2_pos ex) as Hpex. pose proof (P2_pos ey) as Hpey.
  assert (HY : 0 < Y).
  { unfold Y. apply Qmult_lt_0_compat; [ reflexivity | exact Hpey ]. }
  (* the digits *)
  assert (HD : (d1 + ex - (d2 + ey) <= 23)%Z).
  { assert (H1 : P2 (d1 - 1 + ex) <= X).
    { rewrite P2_add, P2_Z by (unfold d1; lia). unfold X.
      apply Qmult_le_compat_r; [ | apply Qlt_le_weak; exact Hpex ].
      rewrite <- Zle_Qle. exact Hd1. }
    assert (H2 : P2 23 * Y < P2 (23 + d2 + ey)).
    { rewrite !P2_add, P2_Z with (k := d2) by (unfold d2; lia). unfold Y.
      rewrite <- Qmult_assoc. apply Qmult_lt_l; [ apply P2_pos | ].
      apply Qmult_lt_compat_pos; [ exact Hpey | ].
      rewrite <- Zlt_Qlt. exact Hd2. }
    assert (H3 : P2 (d1 - 1 + ex) < P2 (23 + d2 + ey)).
    { eapply Qle_lt_trans; [ exact H1 | ].
      eapply Qlt_trans; [ exact Hlt | exact H2 ]. }
    apply P2_lt_inv in H3. lia. }
  set (e' := div_exponent mx ex my ey).
  assert (He'ex : (e' <= ex - ey)%Z) by (unfold e', div_exponent; lia).
  assert (He'30 : (e' <= -30)%Z).
  { unfold e', div_exponent. fold d1 d2.
    pose proof (fexp_le (d1 + ex - (d2 + ey)) 23 HD).
    cbn [Zdigits2]. fold d1 d2. lia. }
  set (s := (ex - ey - e')%Z).
  assert (Hs : (0 <= s)%Z) by (unfold s; lia).
  set (m' := div_dividend mx ex my ey).
  assert (Hm'Q : inject_Z m' == inject_Z (Z.pos mx) * P2 s).
  { unfold m', div_dividend. fold e'. fold s.
    rewrite inject_Z_mult, P2_Z by exact Hs. reflexivity. }
  assert (HX : X == inject_Z m' * P2 (e' + ey)).
  { rewrite Hm'Q, <- Qmult_assoc, <- P2_add. unfold X.
    replace (s + (e' + ey))%Z with ex by (unfold s; lia). reflexivity. }
  pose proof (P2_pos (e' + ey)) as Hpe.
  assert (Hbound : (m' < 2 ^ (23 - e') * Z.pos my)%Z).
  { rewrite Zlt_Qlt, inject_Z_mult, <- P2_Z by lia.
    apply (Qmult_lt_r _ _ (P2 (e' + ey)) Hpe).
    rewrite <- HX.
    assert (Heq : P2 (23 - e') * inject_Z (Z.pos my) * P2 (e' + ey)
                  == P2 23 * Y).
    { unfold Y. replace (23 - e')%Z with (23 + - e')%Z by lia.
      rewrite !P2_add. 
      assert (Hinv : P2 (- e') * P2 e' == 1).
      { rewrite <- P2_add. replace (- e' + e')%Z with 0%Z by lia.
        reflexivity. }
      transitivity (P2 23 * (P2 (- e') * P2 e')
                    * (inject_Z (Z.pos my) * P2 ey)); [ ring | ].
      rewrite Hinv. ring. }
    rewrite Heq. exact Hlt. }
  destruct (div_core mx my ex ey HD Hbound)
    as (c & k & Hc0 & Hk0 & Hek & Hdiv & Hlo & Hhi).
  fold e' in Hek, Hdiv. fold m' in Hlo, Hhi.
  eexists. split; [ exact Hdiv | ].
  split.
  { destruct c as [ | m | m ]; [ left; reflexivity | | left; reflexivity ].
    right. exists m, (e' + k)%Z. auto. }
  assert (Hvalue : value match c with
                         | Z.pos m => S754_finite false m (e' + k)
                         | _ => S754_zero false
                         end
                   == inject_Z c * P2 (e' + k)).
  { destruct c as [ | m | m ]; cbn [value]; try ring. lia. }
  rewrite Hvalue, HX.
  assert (HVY : inject_Z c * P2 (e' + k) * Y
                == inject_Z (c * 2 ^ k * Z.pos my) * P2 (e' + ey)).
  { unfold Y. rewrite !inject_Z_mult, <- P2_Z by exact Hk0.
    rewrite !P2_add. ring. }
  rewrite HVY.
  assert (HW : inject_Z (2 * 2 ^ k * Z.pos my) * P2 (e' + ey)
               <= P2 (-28) * Y).
  { unfold Y. rewrite !inject_Z_mult, <- P2_Z by exact Hk0.
    assert (Hk29 : P2 (e' + k) <= P2 (-29)) by (apply P2_le; exact Hek).
    assert (H28 : P2 (-28) == 2 * P2 (-29)) by reflexivity.
    rewrite H28.
    assert (Hmy : 0 <= inject_Z (Z.pos my) * P2 ey)
      by (apply Qlt_le_weak; exact HY).
    apply (Qle_trans _ (2 * P2 (e' + k) * (inject_Z (Z.pos my) * P2 ey))).
    - rewrite !P2_add. apply Qle_lteq. right.
      change (inject_Z 2) with 2. ring.
    - rewrite <- !Qmult_assoc.
      apply Qmult_le_l; [ reflexivity | ].
      apply Qmult_le_compat_r; assumption. }
  assert (Hlo2 : (c * 2 ^ k * Z.pos my
                  <= m' + 2 * 2 ^ k * Z.pos my)%Z) by lia.
  rewrite Zle_Qle in Hlo2, Hhi. rewrite inject_Z_plus in Hlo2, Hhi.
  assert (Hlo' := Qmult_le_compat_r _ _ (P2 (e' + ey)) Hlo2
                    (Qlt_le_weak _ _ Hpe)).
  assert (Hhi' := Qmult_le_compat_r _ _ (P2 (e' + ey)) Hhi
                    (Qlt_le_weak _ _ Hpe)).
  split; lra.
Qed.

(** ** Reading back what [toFixed] printed *)

Local Open Scope N_scope.

Lemma digit_values_app (a b : jstring) :
  digit_values (a ++ b) = digit_values a ++ digit_values b.
Proof. apply map_app. Qed.

Lemma digits_value_snoc (ds : list N) (d : N) :
  digits_value (ds ++ [d]) = 10 * digits_value ds + d.
Proof. unfold digits_value. rewrite fold_left_app. reflexivity. Qed.

Lemma digits_value_zeros (j : nat) (ds : list N) :
  digits_value (repeat 0 j ++ ds) = digits_value ds.
Proof.
  unfold digits_value. rewrite fold_left_app.
  assert (Hz : fold_left (fun acc d => 10 * acc + d) (repeat 0 j) 0 = 0).
  { induction j as [ | j IH ]; [ reflexivity | exact IH ]. }
  rewrite Hz. reflexivity.
Qed.

Lemma decimal_digits_spec (fuel : nat) :
  forall (n : N) (acc : jstring),
    n < 2 ^ N.of_nat (S fuel) ->
    exists l,
      decimal_digits (S fuel) n acc = l ++ acc
      /\ l <> []
      /\ digit_chars l
      /\ digits_value (digit_values l) = n.
Proof.
  induction fuel as [ | fuel IH ]; intros n acc Hn.
  - change (2 ^ N.of_nat 1) with 2 in Hn.
    assert (Hmod : n mod 10 = n) by (apply N.mod_small; lia).
    exists [48 + n]. cbn [decimal_digits]. rewrite Hmod.
    destruct (N.ltb_spec n 10) as [ _ | Hbig ]; [ | lia ].
    split; [ reflexivity | ]. split; [ discriminate | ].
    split.
    + constructor; [ | constructor ].
      unfold is_digit. apply andb_true_iff. split; apply N.leb_le; lia.
    + unfold digits_value, digit_values. cbn [map fold_left]. lia.
  - remember (S fuel) as fuel' eqn:Hfuel.
    cbn [decimal_digits].
    assert (Hmod : n mod 10 < 10) by (apply N.mod_lt; lia).
    assert (Hdigit : is_digit (48 + n mod 10) = true).
    { unfold is_digit. apply andb_true_iff.
      generalize dependent (n mod 10). intros d Hd.
      split; apply N.leb_le; lia. }
    destruct (N.ltb_spec n 10) as [ Hsmall | Hbig ].
    + exists [48 + n mod 10]. split; [ reflexivity | ].
      split; [ discriminate | ].
      split; [ constructor; [ exact Hdigit | constructor ] | ].
      unfold digits_value, digit_values. cbn [map fold_left].
      rewrite N.mod_small by exact Hsmall. lia.
    + assert (Hdiv : n / 10 < 2 ^ N.of_nat fuel').
      { rewrite Nat2N.inj_succ, N.pow_succ_r' in Hn.
        apply N.Div0.div_lt_upper_bound. lia. }
      destruct (IH (n / 10) ((48 + n mod 10) :: acc) Hdiv)
        as (l & Hrun & Hne & Hall & Hval).
      exists (l ++ [48 + n mod 10]).
      split; [ rewrite Hrun, <- app_assoc; reflexivity | ].
      split; [ destruct l; discriminate | ].
      split.
      * apply Forall_app. split; [ exact Hall | ].
        constructor; [ exact Hdigit | constructor ].
      * rewrite digit_values_app.
        change (digit_values [48 + n mod 10]) with [48 + n mod 10 - 48].
        rewrite digits_value_snoc, Hval.
        pose proof (N.div_mod n 10). generalize dependent (n mod 10).
        generalize dependent (n / 10). intros. lia.
Qed.

Lemma N_to_string_spec (n : N) :
  exists l,
    N_to_string n = l
    /\ l <> []
    /\ digit_chars l
    /\ digits_value (digit_values l) = n.
Proof.
  unfold N_to_string.
  destruct (decimal_digits_spec (N.to_nat (N.log2 n)) n [])
    as (l & Hrun & Hne & Hall & Hval).
  - rewrite Nat2N.inj_succ, N2Nat.id.
    destruct n as [ | p ]; [ reflexivity | ].
    apply N.log2_spec. lia.
  - exists l. rewrite Hrun, app_nil_r. auto.
Qed.

Lemma digits_of_digit_chars (l r : jstring) :
  digit_chars l ->
  match r with c :: _ => is_digit c = false | [] => True end ->
  digits (l ++ r) = (digit_values l, r).
Proof.
  intros Hall Hr. induction Hall as [ | c l Hc Hall IH ].
  - cbn [app digit_values map]. destruct r as [ | c r ]; [ reflexivity | ].
    cbn [digits]. rewrite Hr. reflexivity.
  - cbn [app digits]. rewrite Hc, IH. reflexivity.
Qed.

Lemma digit_char_cases (c : code_unit) :
  is_digit c = true ->
  c = 48 \/ c = 49 \/ c = 50 \/ c = 51 \/ c = 52
  \/ c = 53 \/ c = 54 \/ c = 55 \/ c = 56 \/ c = 57.
Proof.
  unfold is_digit. intros H. apply andb_true_iff in H.
  destruct H as [ Hlo Hhi ]. apply N.leb_le in Hlo, Hhi. lia.
Qed.

(** The text [fixed_digits] gives for a positive number of fraction
    digits: integer digits, a point, [f] fraction digits, all of them
    the digits of [n]. *)
Lemma fixed_digits_shape (n : N) (f : nat) :
  exists ints fracs,
    fixed_digits n (S f) = ints ++ 46 :: fracs
    /\ ints <> []
    /\ digit_chars ints
    /\ digit_chars fracs
    /\ List.length fracs = S f
    /\ digits_value (digit_values (ints ++ fracs)) = n.
Proof.
  destruct (N_to_string_spec n) as (l & Hrun & Hne & Hall & Hval).
  unfold fixed_digits. rewrite Hrun.
  set (m := repeat 48 (S (S f) - List.length l) ++ l).
  assert (Hlen : (S (S f) <= List.length m)%nat).
  { unfold m. rewrite length_app, repeat_length.
    change code_unit with N. lia. }
  assert (Hm : digit_chars m).
  { unfold m. apply Forall_app. split; [ | exact Hall ].
    apply Forall_forall. intros c Hc. apply repeat_spec in Hc.
    subst c. reflexivity. }
  assert (Hmval : digits_value (digit_values m) = n).
  { unfold m. rewrite digit_values_app.
    unfold digit_values at 1. rewrite map_repeat.
    change (48 - 48) with 0. rewrite digits_value_zeros. exact Hval. }
  exists (firstn (List.length m - S f) m), (skipn (List.length m - S f) m).
  split; [ reflexivity | ].
  split.
  { intros Hnil. apply (f_equal (@List.length _)) in Hnil.
    rewrite length_firstn in Hnil. cbn [List.length] in Hnil. lia. }
  pose proof (firstn_skipn (List.length m - S f) m) as Hsplit.
  rewrite <- Hsplit in Hm. apply Forall_app in Hm.
  destruct Hm as [ Hints Hfracs ].
  split; [ exact Hints | ]. split; [ exact Hfracs | ].
  split; [ rewrite length_skipn; lia | ].
  rewrite Hsplit. exact Hmval.
Qed.

(** Reading back a printed fraction: the digits, scaled. *)
Lemma parseFloat_fixed_digits (n : N) (f : nat) :
  parseFloat_string (fixed_digits n (S f))
  = of_decimal false n (- Z.of_nat (S f)).
Proof.
  destruct (fixed_digits_shape n f)
    as (ints & fracs & -> & Hne & Hints & Hfracs & Hlen & Hval).
  destruct ints as [ | c ints ]; [ contradiction | ].
  pose proof (Forall_inv Hints) as Hc.
  unfold parseFloat_string. cbn [app trimStart].
  assert (Hplain :
            is_white_space c = false /\ (c =? 45) = false
            /\ (c =? 43) = false /\ (c =? 73) = false).
  { destruct (digit_char_cases c Hc)
      as [ -> | [ -> | [ -> | [ -> | [ -> | [ -> | [ -> | [ -> | [ -> | -> ]]]]]]]]];
      repeat split; reflexivity. }
  destruct Hplain as (Hws & Hminus & Hplus & HI).
  rewrite Hws, Hminus, Hplus.
  unfold unsigned_literal.
  change (startsWith (c :: ints ++ 46 :: fracs) (js "Infinity"))
    with ((c =? 73) && startsWith (ints ++ 46 :: fracs) (js "nfinity")).
  rewrite HI. cbn [andb].
  pose proof (digits_of_digit_chars (c :: ints) (46 :: fracs) Hints
                (eq_refl : is_digit 46 = false)) as Hhead.
  cbn [app] in Hhead.
  pose proof (digits_of_digit_chars fracs [] Hfracs I) as Htail.
  rewrite app_nil_r in Htail.
  unfold jstring, code_unit in *. rewrite Hhead.
  change (digit_values (c :: ints)) with ((c - 48) :: digit_values ints).
  cbn iota. change (46 =? 46) with true. cbn iota. rewrite Htail.
  change ((c - 48) :: digit_values ints) with (digit_values (c :: ints)).
  rewrite <- digit_values_app. unfold jstring, code_unit in *.
  rewrite Hval. unfold digit_values. rewrite length_map, Hlen.
  cbn [exponent_part]. reflexivity.
Qed.

(** ** The residue of a split *)

Local Open Scope Q_scope.

Lemma P2_neg28 : P2 (-28) == 1 # 268435456.
Proof. reflexivity. Qed.

Lemma P2_opp (k : Z) : P2 (- k) * P2 k == 1.
Proof.
  rewrite <- P2_add. replace (- k + k)%Z with 0%Z by lia. reflexivity.
Qed.

(** The integer [toFixed] prints is within one half of the scaled
    value. *)
Lemma scaled_nearest_value (m : positive) (e : Z) (f : nat) :
  - (1 # 2)
  <= inject_Z (Z.of_N (scaled_nearest m e f))
     - value (S754_finite false m e) * inject_Z (10 ^ Z.of_nat f)
  <= 1 # 2.
Proof.
  cbn [value].
  destruct (Z.leb_spec 0 e) as [ Hpos | Hneg ].
  - rewrite (@scaled_nearest_exact m e f Hpos), (P2_Z e Hpos).
    rewrite !inject_Z_mult. split; ring_simplify; discriminate.
  - pose proof (@scaled_nearest_half m e f Hneg) as [ Hlo Hhi ].
    set (n := Z.of_N (scaled_nearest m e f)) in *.
    set (M := (Z.pos m * 10 ^ Z.of_nat f)%Z) in *.
    assert (Hd : (2 ^ (- e + 1) = 2 * 2 ^ (- e))%Z).
    { rewrite Z.pow_add_r by lia. lia. }
    rewrite Hd in Hlo, Hhi.
    assert (Hlo' : (2 * 2 ^ (- e) * n <= 2 * M + 2 ^ (- e))%Z) by lia.
    assert (Hhi' : (2 * M <= 2 * 2 ^ (- e) * n + 2 ^ (- e))%Z) by lia.
    subst M. rewrite Zle_Qle in Hlo', Hhi'.
    rewrite !inject_Z_plus, !inject_Z_mult in Hlo', Hhi'.
    rewrite <- (P2_Z (- e)) in Hlo', Hhi' by lia.
    pose proof (P2_opp (- e)) as Hone.
    replace (- - e)%Z with e in Hone by lia.
    pose proof (P2_pos e) as Hu.
    apply (Qmult_le_compat_r _ _ (P2 e)) in Hlo'; [ | apply Qlt_le_weak, Hu ].
    apply (Qmult_le_compat_r _ _ (P2 e)) in Hhi'; [ | apply Qlt_le_weak, Hu ].
    set (a := inject_Z (Z.pos m)) in *.
    set (t := inject_Z (10 ^ Z.of_nat f)) in *.
    set (q := inject_Z n) in *.
    assert (Hlo2 : 2 * q * (P2 e * P2 (- e)) <= 2 * (a * P2 e * t)
                                               + P2 e * P2 (- e)).
    { eapply Qle_trans; [ | eapply Qle_trans; [ exact Hlo' | ] ].
      - apply Qle_lteq. right. change (inject_Z 2) with 2. ring.
      - apply Qle_lteq. right. change (inject_Z 2) with 2. ring. }
    assert (Hhi2 : 2 * (a * P2 e * t) <= 2 * q * (P2 e * P2 (- e))
                                        + P2 e * P2 (- e)).
    { eapply Qle_trans; [ | eapply Qle_trans; [ exact Hhi' | ] ].
      - apply Qle_lteq. right. change (inject_Z 2) with 2. ring.
      - apply Qle_lteq. right. change (inject_Z 2) with 2. ring. }
    rewrite Hone in Hlo2, Hhi2.
    split; lra.
Qed.

(** A positive number with a negative exponent and a value below
    [2 ^ 24] is printed in fixed notation. *)
Lemma small_not_1e21 (m : positive) (e : Z) :
  (e < 0)%Z ->
  value (S754_finite false m e) < P2 24 ->
  at_least_1e21 m e = false.
Proof.
  intros He Hv. cbn [value] in Hv. unfold at_least_1e21.
  destruct (Z.leb_spec 0 e) as [ Hpos | _ ]; [ lia | ].
  apply Z.leb_gt.
  apply (Qmult_lt_compat_pos _ _ (P2 (- e)) (P2_pos _)) in Hv.
  assert (Hm : inject_Z (Z.pos m) < P2 24 * P2 (- e)).
  { eapply Qle_lt_trans; [ | exact Hv ].
    apply Qle_lteq. right.
    rewrite <- Qmult_assoc.
    pose proof (P2_opp (- e)) as Hone.
    replace (- - e)%Z with e in Hone by lia.
    rewrite Hone. ring. }
  rewrite (P2_Z 24), (P2_Z (- e)), <- inject_Z_mult in Hm by lia.
  rewrite <- Zlt_Qlt in Hm.
  assert (Hk : (0 < 2 ^ (- e))%Z) by (apply Z.pow_pos_nonneg; lia).
  assert (H24 : (2 ^ 24 < 10 ^ 21)%Z) by reflexivity.
  nia.
Qed.

Variable Number_toString : number -> jstring.

(** What [toFixed] prints for a small number: the digits of an
    integer within one half of the scaled value. *)
Lemma toFixed_value (z : number) (f : nat) :
  small z ->
  value z < P2 24 ->
  exists k : N,
    toFixed Number_toString z (S f) = fixed_digits k (S f)
    /\ - (1 # 2)
       <= inject_Z (Z.of_N k) - value z * inject_Z (10 ^ Z.of_nat (S f))
       <= 1 # 2.
Proof.
  intros [ -> | (m & e & -> & He) ] Hv.
  - exists 0%N. split; [ reflexivity | ].
    cbn [value]. change (inject_Z (Z.of_N 0)) with 0. split; lra.
  - exists (scaled_nearest m e (S f)). split.
    + rewrite (@toFixed_finite Number_toString false m e (S f)
                 (@small_not_1e21 m e He Hv)).
      reflexivity.
    + apply scaled_nearest_value.
Qed.

(** Reading a 7-digit fraction back: the binary64 number is within
    [2 ^ -28] of the decimal. *)
Lemma of_decimal_value (k : N) :
  (Z.of_N k < 2 ^ 23 * 10 ^ 7)%Z ->
  small (of_decimal false k (-7))
  /\ - (P2 (-28) * 10000000)
     <= value (of_decimal false k (-7)) * 10000000 - inject_Z (Z.of_N k)
     <= P2 (-28) * 10000000.
Proof.
  intros Hk. destruct k as [ | p ].
  - split; [ left; reflexivity | ].
    cbn [of_decimal value]. change (inject_Z (Z.of_N 0)) with 0.
    pose proof (P2_pos (-28)). split; lra.
  - change (of_decimal false (N.pos p) (-7))
      with (SFdiv prec emax (S754_finite false p 0)
              (S754_finite false 10000000 0)).
    change (Z.of_N (N.pos p)) with (Z.pos p) in *.
    destruct (@div_faithful p 10000000 0 0) as (z & Hz & Hshape & Hlo & Hhi).
    { change (P2 0) with 1. rewrite (P2_Z 23) by lia.
      rewrite !Qmult_1_r, <- inject_Z_mult, <- Zlt_Qlt.
      change (2 ^ 23 * 10 ^ 7)%Z with (2 ^ 23 * Z.pos 10000000)%Z in Hk.
      exact Hk. }
    rewrite Hz. split.
    + destruct Hshape as [ -> | (m & e & -> & He) ]; [ left; reflexivity | ].
      right. exists m, e. split; [ reflexivity | lia ].
    + change (P2 0) with 1 in Hlo, Hhi.
      change (inject_Z (Z.pos 10000000)) with 10000000 in Hlo, Hhi.
      rewrite !Qmult_1_r in Hlo, Hhi. split; assumption.
Qed.


Lemma residue_budget (c vw k vz X Y : Q) :
  0 < Y ->
  - (1 # 2) <= c - vw * 100 <= 1 # 2 ->
  - ((1 # 268435456) * 10000000) <= vw * 10000000 - k
  <= (1 # 268435456) * 10000000 ->
  - (1 # 2) <= k - vz * 10000000 <= 1 # 2 ->
  - ((1 # 268435456) * Y) <= vz * Y - X <= (1 # 268435456) * Y ->
  Qabs (c / 100 * Y - X) <= Y * (50001 # 10000000).
Proof.
  intros HY [ Hc1 Hc2 ] [ Hw1 Hw2 ] [ Hk1 Hk2 ] [ Hz1 Hz2 ].
  set (d := c * (1 # 100) - vz).
  assert (Hd : - (500005746 # 100000000000) <= d
               /\ d <= 500005746 # 100000000000).
  { unfold d. split; lra. }
  destruct Hd as [ Hd1 Hd2 ].
  apply (Qmult_le_compat_r _ _ Y) in Hd1; [ | apply Qlt_le_weak, HY ].
  apply (Qmult_le_compat_r _ _ Y) in Hd2; [ | apply Qlt_le_weak, HY ].
  assert (Heq : c / 100 * Y - X == d * Y + (vz * Y - X)).
  { unfold d. field. }
  rewrite Heq. clear Heq.
  generalize dependent (d * Y). intros a Ha1 Ha2.
  generalize dependent (vz * Y). intros b Hb1 Hb2.
  apply Qabs_Qle_condition. split; lra.
Qed.

(** C3, as the code has it.  For a positive finite total [T] (the
    number [parseFloat] reads) and a positive finite count [C] with
    [T < 2 ^ 22 * C], the amount per person that [calculateSplit]
    returns is the text of a whole number of hundredths, and that
    amount times [C] differs from [T] by at most [C * 0.0050001]: half
    a hundredth per participant from the second print, and the three
    roundings before it (the binary64 quotient, its print with seven
    fractional digits, and the number read back) add less than
    0.0000001 each. *)
Theorem calculateSplit_residue_bound (totalAmount : js_value) (n : number)
    (r : SplitData.t) (mT mN : positive) (eT eN : Z) :
  calculateSplit Number_toString totalAmount (Some n) = Returns r ->
  parseFloat Number_toString totalAmount = S754_finite false mT eT ->
  n = S754_finite false mN eN ->
  value (parseFloat Number_toString totalAmount) < P2 22 * value n ->
  exists cents : N,
    SplitData.perPerson r = fixed_digits cents 2
    /\ parseFloat_string (SplitData.perPerson r)
       = of_decimal false cents (-2)
    /\ Qabs (inject_Z (Z.of_N cents) / 100 * value n
             - value (parseFloat Number_toString totalAmount))
       <= value n * (50001 # 10000000).
Proof.
  intros Hsplit HT -> Hsmall.
  rewrite (@calculateSplit_returns_inv Number_toString _ _ _ Hsplit).
  cbn [SplitData.perPerson]. rewrite HT in *. clear Hsplit HT.
  cbn [value] in *.
  set (X := inject_Z (Z.pos mT) * P2 eT) in *.
  set (Y := inject_Z (Z.pos mN) * P2 eN) in *.
  assert (HY : 0 < Y).
  { unfold Y. apply Qmult_lt_0_compat; [ reflexivity | apply P2_pos ]. }
  (* the quotient *)
  destruct (@div_faithful mT mN eT eN) as (z & Hz & Hzs & Hz1 & Hz2).
  { eapply Qlt_le_trans; [ exact Hsmall | ].
    apply Qmult_le_compat_r; [ apply P2_le; lia | apply Qlt_le_weak, HY ]. }
  fold X Y in Hz1, Hz2. unfold div. rewrite Hz. clear Hz.
  assert (Hzsmall : small z).
  { destruct Hzs as [ -> | (m & e & -> & He) ]; [ left; reflexivity | ].
    right. exists m, e. split; [ reflexivity | lia ]. }
  rewrite P2_neg28 in Hz1, Hz2.
  assert (Hzv : value z < 4194305).
  { apply (Qmult_lt_r _ _ Y HY).
    assert (H22 : P2 22 == 4194304) by reflexivity.
    rewrite H22 in Hsmall. lra. }
  (* its 7-digit print *)
  destruct (@toFixed_value z 6 Hzsmall) as (k & Hk & Hk1 & Hk2).
  { eapply Qlt_trans; [ exact Hzv | reflexivity ]. }
  rewrite Hk. clear Hk.
  change (inject_Z (10 ^ Z.of_nat 7)) with 10000000 in Hk1, Hk2.
  rewrite (parseFloat_fixed_digits k 6).
  change (- Z.of_nat 7)%Z with (-7)%Z.
  (* read back *)
  assert (Hkz : (Z.of_N k < 2 ^ 23 * 10 ^ 7)%Z).
  { rewrite Zlt_Qlt.
    change (inject_Z (2 ^ 23 * 10 ^ 7)) with 83886080000000. lra. }
  destruct (@of_decimal_value k Hkz) as (Hws & Hw1 & Hw2).
  rewrite P2_neg28 in Hw1, Hw2.
  set (w := of_decimal false k (-7)) in *.
  (* the 2-digit print *)
  destruct (@toFixed_value w 1 Hws) as (c & Hc & Hc1 & Hc2).
  { assert (H24 : P2 24 == 16777216) by reflexivity.
    rewrite H24. lra. }
  change (inject_Z (10 ^ Z.of_nat 2)) with 100 in Hc1, Hc2.
  exists c. split; [ exact Hc | ].
  split; [ rewrite Hc; apply (parseFloat_fixed_digits c 1) | ].
  apply (@residue_budget _ (value w) (inject_Z (Z.of_N k)) (value z) X Y);
    [ exact HY | split; assumption .. ].
Qed.

End Residue.

Set Implicit Arguments.

(** * The claims at concrete inputs *)

(** C3. Ten split three ways: the amount per person is "3.33", three
    times that misses the total by a cent, which is not within
    0.0000001. *)
Lemma calculateSplit_residue_counterexample :
  calculateSplit Double.Number_toString (JsString (js "10"))
    (Some (of_nat 3))
  = Returns (SplitData.make (js "10.00") (js "3.33") (of_nat 3))
  /\ le (abs (sub (mul (parseFloat_string (js "3.33")) (of_nat 3))
                (parseFloat_string (js "10"))))
        (of_decimal false 1 (-7))
     = false
  /\ toFixed Double.Number_toString
       (abs (sub (mul (parseFloat_string (js "3.33")) (of_nat 3))
               (parseFloat_string (js "10")))) 7
     = js "0.0100000".
Proof. repeat split; vm_compute; reflexivity. Qed.

(** C4. A total of -10 with a count of 2 is not rejected. *)
Lemma calculateSplit_negative_total_counterexample :
  lt (parseFloat_string (js "-10")) (of_Z 0) = true
  /\ calculateSplit Double.Number_toString (JsString (js "-10"))
       (Some (of_nat 2))
     = Returns (SplitData.make (js "-10.00") (js "-5.00") (of_nat 2)).
Proof. split; vm_compute; reflexivity. Qed.

(** C5. Ten for three recipients, previewed and executed: the button is
    armed with "3.33" and the three transactions submitted pay 3.33
    each, while the seven-digit share is "3.3333333"; and two totals
    with different seven-digit shares give one and the same result, so
    the seven-digit share cannot be recovered from it. *)
Lemma split_submits_two_digits_counterexample :
  snd Double.preview_run
  = Normal (Some (Armed.make [Double.alice; Double.bob; Double.carol]
                    (js "3.33") []))
  /\ submitted (trace (fst Double.settled_run))
     = [js "pay 3.33 to " ++ Double.alice ++ js " signed";
        js "pay 3.33 to " ++ Double.bob ++ js " signed";
        js "pay 3.33 to " ++ Double.carol ++ js " signed"]
  /\ toFixed Double.Number_toString
       (div (parseFloat_string (js "10")) (of_nat 3)) 7
     = js "3.3333333"
  /\ calculateSplit Double.Number_toString (JsString (js "10.001"))
       (Some (of_nat 3))
     = calculateSplit Double.Number_toString (JsString (js "10.004"))
         (Some (of_nat 3))
  /\ toFixed Double.Number_toString
       (div (parseFloat_string (js "10.001")) (of_nat 3)) 7
     <> toFixed Double.Number_toString
          (div (parseFloat_string (js "10.004")) (of_nat 3)) 7.
Proof.
  split; [ vm_compute; reflexivity | ].
  split; [ vm_compute; reflexivity | ].
  split; [ vm_compute; reflexivity | ].
  split; [ vm_compute; reflexivity | ].
  vm_compute. intros Heq. discriminate Heq.
Qed.

(** C1 at the test double: Alice is paid, Bob's prompt is declined,
    Carol is never reached. *)
Lemma executeSplit_second_signature_declined_witness :
  snd Double.declined_run
  = Normal
      [success_of Double.amount Double.alice
         (js "hash of pay 3.33 to " ++ Double.alice ++ js " signed");
       PaymentResult.failed Double.bob Double.amount (js "Declined by user")]
  /\ calls (trace (fst Double.declined_run))
     = [CallLoadAccount Double.payer; CallFetchBaseFee;
        CallSignTransaction (js "pay 3.33 to " ++ Double.alice)
          (sign_options Double.payer);
        CallSubmitTransaction
          (js "pay 3.33 to " ++ Double.alice ++ js " signed"
           : Transaction Double.sdk);
        CallLoadAccount Double.payer; CallFetchBaseFee;
        CallSignTransaction (js "pay 3.33 to " ++ Double.bob)
          (sign_options Double.payer)].
Proof.
  unfold Double.declined_run.
  rewrite (@executeSplit_second_signature_declined Double.Number_toString
             Double.sdk Double.srv Double.payer Double.amount []
             Double.alice Double.bob [Double.carol]
             (Double.start (Double.funded [true; false; true]))
             _ _ _ _ _ _ _ _ _ _ _ _ _ _ _ _ _
             eq_refl eq_refl eq_refl eq_refl eq_refl eq_refl
             eq_refl eq_refl eq_refl eq_refl eq_refl).
  split; reflexivity.
Defined.

(** C6 at the test double: the ledger is down, the check says go
    ahead. *)
Lemma balance_check_fails_open_witness :
  snd (validateBalanceForSplit Double.Number_toString Double.srv
         Double.payer (JsString (js "10")) (of_nat 3)
         (Double.start Double.ledger_down))
  = Normal true
  /\ snd (validateBalanceForPayment Double.Number_toString Double.srv
            Double.payer (JsString (js "10"))
            (Double.start Double.ledger_down))
     = Normal true.
Proof.
  destruct (@balance_check_fails_open Double.Number_toString Double.sdk
              Double.srv Double.payer (JsString (js "10")) (of_nat 3)
              (Double.start Double.ledger_down) Double.ledger_down
              (ErrorObject (js "Network Error")) eq_refl)
    as (Hsplit & Hpayment & _).
  rewrite Hsplit, Hpayment. split; reflexivity.
Defined.

(** C7 at the test double: a balance of "10.0000000", an amount of "4",
    three payments. *)
Lemma checkSufficientBalance_ten_four_three_witness :
  snd (checkSufficientBalance Double.Number_toString Double.srv Double.payer
         (JsString (js "4")) (of_Z 3) (Double.start (Double.funded [])))
  = Normal (BalanceCheck.make true (js "10.00") (js "4.00") (js "0")).
Proof.
  destruct (@checkSufficientBalance_ten_four_three Double.Number_toString
              Double.sdk Double.srv Double.payer (JsString (js "4"))
              (Double.start (Double.funded [])) (Double.funded [])
              (Account.make Double.payer (js "1")
                 [BalanceLine.make (js "native") (js "10.0000000")]))
    as (check & Hcheck & _ & _ & _ & _ & Hten & _).
  - reflexivity.
  - vm_compute. reflexivity.
  - rewrite Hcheck. cbn [snd]. rewrite Hten; [ reflexivity | ].
    vm_compute. reflexivity.
Defined.


(** C3 at ten split three ways: "3.33" is 333 hundredths, and
    3.33 * 3 = 9.99 is within 3 * 0.0050001 of 10. *)
Lemma calculateSplit_residue_bound_witness :
  exists cents : N,
    SplitData.perPerson
      (SplitData.make (js "10.00") (js "3.33") (of_nat 3))
    = fixed_digits cents 2
    /\ parseFloat_string
         (SplitData.perPerson
            (SplitData.make (js "10.00") (js "3.33") (of_nat 3)))
       = of_decimal false cents (-2)
    /\ (Qabs (inject_Z (Z.of_N cents) / 100 * value (of_nat 3)
              - value (parseFloat Double.Number_toString
                         (JsString (js "10"))))
        <= value (of_nat 3) * (50001 # 10000000))%Q.
Proof.
  apply (@calculateSplit_residue_bound Double.Number_toString
           (JsString (js "10")) (of_nat 3)
           (SplitData.make (js "10.00") (js "3.33") (of_nat 3))
           5629499534213120 6755399441055744 (-49) (-51)).
  - vm_compute. reflexivity.
  - vm_compute. reflexivity.
  - vm_compute. reflexivity.
  - vm_compute. reflexivity.
Defined.

(** Half a hundredth per participant is not enough: 0.12499999 for one
    participant prints as "0.1250000", which reads back as 0.125 and
    prints as "0.13", more than 0.005 above the total. *)
Lemma calculateSplit_half_cent_exceeded :
  calculateSplit Double.Number_toString (JsString (js "0.12499999"))
    (Some (of_nat 1))
  = Returns (SplitData.make (js "0.12") (js "0.13") (of_nat 1))
  /\ toFixed Double.Number_toString
       (div (parseFloat_string (js "0.12499999")) (of_nat 1)) 7
     = js "0.1250000"
  /\ (value (of_nat 1) * (5 # 1000)
      < Qabs (inject_Z 13 / 100 * value (of_nat 1)
              - value (parseFloat_string (js "0.12499999"))))%Q.
Proof. repeat split; vm_compute; reflexivity. Qed.

(** C8.  The wallet approves the first request and rejects the second
    with [undefined].  The payment to the first participant is
    submitted and recorded.  For the second the [catch] block writes
    the caught value to the console and then throws on reading its
    message, so [executeSplit] ends by throwing that [TypeError]: no
    outcome is recorded for the second participant, and the list with
    the success of the first is not returned.  [executeSplitHandler],
    which made the call, catches the error and raises its alert box,
    and renders no result. *)
Theorem executeSplit_undefined_rejection_throws :
  snd Double.unexplained_run
  = Thrown (ErrorObject
              (js "Cannot read properties of undefined (reading 'message')"))
  /\ map PaymentResult.recipient (results (fst Double.unexplained_run))
     = [Double.alice]
  /\ map PaymentResult.status (results (fst Double.unexplained_run))
     = [js "success"]
  /\ submitted (trace (fst Double.unexplained_run))
     = [js "pay 3.33 to " ++ Double.alice ++ js " signed"]
  /\ In (ConsoleError (failure_text Double.bob) ThrownUndefined)
       (trace (fst Double.unexplained_run))
  /\ errorMessage ThrownUndefined
     = Raises (ErrorObject
                 (js "Cannot read properties of undefined (reading 'message')"))
  /\ snd Double.unexplained_click = Normal tt
  /\ In (Alert (js "Error executing split. See console for details."))
       (trace (fst Double.unexplained_click))
  /\ existsb (fun ev => match ev with
                        | RenderSplitResults _ => true
                        | _ => false
                        end)
       (trace (fst Double.unexplained_click))
     = false.
Proof.
  split; [ vm_compute; reflexivity | ].
  split; [ vm_compute; reflexivity | ].
  split; [ vm_compute; reflexivity | ].
  split; [ vm_compute; reflexivity | ].
  split; [ vm_compute; tauto | ].
  split; [ vm_compute; reflexivity | ].
  split; [ vm_compute; reflexivity | ].
  split; [ vm_compute; tauto | ].
  vm_compute. reflexivity.
Qed.

(** * Further properties *)

(** ** [trim] *)

Lemma trimStart_head (s : jstring) :
  match trimStart s with
  | [] => True
  | c :: _ => is_white_space c = false
  end.
Proof.
  induction s as [ | c s IH ]; cbn [trimStart]; [ exact I | ].
  destruct (is_white_space c) eqn:Hc; [ exact IH | exact Hc ].
Qed.

Lemma trimStart_fixed (s : jstring) :
  match s with
  | [] => True
  | c :: _ => is_white_space c = false
  end ->
  trimStart s = s.
Proof.
  destruct s as [ | c s ]; [ reflexivity | ].
  intros Hc. cbn [trimStart]. rewrite Hc. reflexivity.
Qed.

Lemma trimStart_snoc (s : jstring) (c : code_unit) :
  is_white_space c = false ->
  trimStart (s ++ [c]) = trimStart s ++ [c].
Proof.
  intros Hc. induction s as [ | d s IH ]; cbn [app trimStart].
  - rewrite Hc. reflexivity.
  - destruct (is_white_space d); [ exact IH | reflexivity ].
Qed.

(** A trimmed string starts with no white space. *)
Lemma trim_head (s : jstring) :
  match trim s with
  | [] => True
  | c :: _ => is_white_space c = false
  end.
Proof.
  unfold trim, trimEnd.
  pose proof (trimStart_head s) as Hhead.
  destruct (trimStart s) as [ | c t ]; [ exact I | ].
  cbn [rev]. rewrite (@trimStart_snoc (rev t) c Hhead), rev_unit. exact Hhead.
Qed.

Lemma trim_idempotent (s : jstring) : trim (trim s) = trim s.
Proof.
  unfold trim at 1. rewrite (@trimStart_fixed _ (trim_head s)).
  unfold trim, trimEnd. rewrite rev_involutive.
  rewrite (@trimStart_fixed _ (trimStart_head (rev (trimStart s)))).
  reflexivity.
Qed.

(** ** More on [validateParticipants] *)

Section Revalidation.

Variable decodeEd25519PublicKey : jstring -> sync (list N).

(** Addresses that are already trimmed and pass the four tests go to
    [valid], all of them, in order. *)
Lemma forEach_address_accepts (addresses : list jstring) :
  Forall (fun a => trim a = a /\ accepts decodeEd25519PublicKey a = true)
    addresses ->
  forall index r,
    forEach_address decodeEd25519PublicKey addresses index r
    = Returns (Validation.make (Validation.valid r ++ addresses)
                 (Validation.errors r)).
Proof.
  induction 1 as [ | a rest (Htrim & Hacc) _ IH ]; intros index r.
  - cbn. rewrite app_nil_r. destruct r; reflexivity.
  - cbn [forEach_address].
    destruct (validate_address_cases decodeEd25519PublicKey r a index)
      as [ (_ & Hstep) | (Hrej & _) ].
    + rewrite Hstep. cbn [sync_bind]. rewrite IH, Htrim.
      cbn [push_valid Validation.valid Validation.errors].
      rewrite <- app_assoc. reflexivity.
    + rewrite Htrim, Hacc in Hrej. discriminate.
Qed.

Lemma filter_accepts_stable (addresses : list jstring) :
  Forall (fun a => trim a = a /\ accepts decodeEd25519PublicKey a = true)
    (filter (accepts decodeEd25519PublicKey) (map trim addresses)).
Proof.
  apply Forall_forall. intros a Hin.
  apply filter_In in Hin. destruct Hin as (Hin & Hacc).
  apply in_map_iff in Hin. destruct Hin as (x & <- & _).
  split; [ apply trim_idempotent | exact Hacc ].
Qed.

(** X1. What [validateParticipants] returns as [valid] is stable:
    validated again, the list comes back as it is and [errors] is
    empty. *)
Theorem validateParticipants_revalidate (addresses : list jstring)
    (r : Validation.t) :
  validateParticipants decodeEd25519PublicKey addresses = Returns r ->
  validateParticipants decodeEd25519PublicKey (Validation.valid r)
  = Returns (Validation.make (Validation.valid r) []).
Proof.
  intros Hrun.
  destruct (forEach_address_spec decodeEd25519PublicKey addresses 0
              (Validation.make [] []))
    as (errs & Hspec & _).
  unfold validateParticipants in Hrun. rewrite Hspec in Hrun.
  injection Hrun as <-. cbn [Validation.valid app].
  unfold validateParticipants.
  rewrite (forEach_address_accepts (filter_accepts_stable addresses)).
  reflexivity.
Qed.

(** The entries of [errors], one run of [forEach] at a time: their
    addresses are the rejected ones in order, their positions ascend
    from [index] on, and each gives the reason of the first test its
    address fails. *)
Lemma forEach_address_errors (addresses : list jstring) :
  forall (index : nat) (r : Validation.t),
  exists errs,
    forEach_address decodeEd25519PublicKey addresses index r
    = Returns (Validation.make
                 (Validation.valid r
                  ++ filter (accepts decodeEd25519PublicKey)
                       (map trim addresses))
                 (Validation.errors r ++ errs))
    /\ map AddressError.address errs
       = filter (fun a => negb (accepts decodeEd25519PublicKey a))
           (map trim addresses)
    /\ Forall (fun e => index <= AddressError.index e) errs
    /\ StronglySorted Nat.lt (map AddressError.index errs)
    /\ Forall (reason_ok decodeEd25519PublicKey) errs.
Proof.
  induction addresses as [ | address rest IH ]; intros index r.
  - exists []. cbn. rewrite !app_nil_r.
    destruct r; repeat split; constructor.
  - cbn [forEach_address map filter].
    assert (Hstep :
      (accepts decodeEd25519PublicKey (trim address) = true
       /\ validate_address decodeEd25519PublicKey r address index
          = Returns (push_valid r (trim address)))
      \/ (accepts decodeEd25519PublicKey (trim address) = false
          /\ exists e,
               validate_address decodeEd25519PublicKey r address index
               = Returns (push_error r e)
               /\ AddressError.index e = index
               /\ AddressError.address e = trim address
               /\ reason_ok decodeEd25519PublicKey e)).
    { unfold validate_address, accepts, reason_ok.
      destruct (trim address) as [ | c t ] eqn:Htrim.
      - right. split; [ reflexivity | ]. eexists.
        cbn [JsString.truthy negb]. split; [ reflexivity | ].
        cbn [AddressError.index AddressError.address AddressError.error].
        auto.
      - cbn [JsString.truthy negb andb].
        destruct (Nat.eqb (JsString.length (c :: t)) 56) eqn:Hlen;
          cbn [negb andb].
        + apply Nat.eqb_eq in Hlen.
          destruct (startsWith (c :: t) (js "G")) eqn:Hg; cbn [negb andb].
          * destruct (decodeEd25519PublicKey (c :: t)) as [ key | thrown ]
              eqn:Hdec; cbn [sync_bind sync_try].
            -- left. split; reflexivity.
            -- right. split; [ reflexivity | ]. eexists.
               split; [ reflexivity | ].
               cbn [AddressError.index AddressError.address
                      AddressError.error].
               repeat split. right. right. right.
               repeat split; try assumption. exists thrown. exact Hdec.
          * right. split; [ reflexivity | ]. eexists.
            split; [ reflexivity | ].
            cbn [AddressError.index AddressError.address AddressError.error].
            repeat split. right. right. left. auto.
        + apply Nat.eqb_neq in Hlen.
          right. split; [ reflexivity | ]. eexists.
          split; [ reflexivity | ].
          cbn [AddressError.index AddressError.address AddressError.error].
          repeat split. right. left.
          repeat split; [ discriminate | exact Hlen ]. }
    destruct Hstep as [ (Hacc & Hstep) | (Hacc & e & Hstep & Hidx & Haddr & Hwhy) ];
      rewrite Hstep, Hacc; cbn [sync_bind negb].
    + destruct (IH (S index) (push_valid r (trim address)))
        as (errs & Hrun & Haddrs & Hfrom & Hsorted & Hreasons).
      exists errs. rewrite Hrun.
      cbn [push_valid Validation.valid Validation.errors].
      rewrite <- app_assoc. cbn [app].
      repeat split; try assumption.
      eapply Forall_impl; [ | exact Hfrom ]. cbn. intros; lia.
    + destruct (IH (S index) (push_error r e))
        as (errs & Hrun & Haddrs & Hfrom & Hsorted & Hreasons).
      exists (e :: errs). rewrite Hrun.
      cbn [push_error Validation.valid Validation.errors].
      rewrite <- app_assoc. cbn [app map].
      repeat split.
      * rewrite Haddr, Haddrs. reflexivity.
      * constructor; [ lia | ].
        eapply Forall_impl; [ | exact Hfrom ]. cbn. intros; lia.
      * constructor; [ exact Hsorted | ].
        apply Forall_map. eapply Forall_impl; [ | exact Hfrom ].
        cbn. intros; lia.
      * constructor; assumption.
Qed.

(** X2. The entries of [errors] are the rejected addresses, all of
    them, in the order of the input, and their positions ascend
    strictly: no position is reported twice. *)
Theorem validateParticipants_errors_in_order (addresses : list jstring) :
  exists r,
    validateParticipants decodeEd25519PublicKey addresses = Returns r
    /\ map AddressError.address (Validation.errors r)
       = filter (fun a => negb (accepts decodeEd25519PublicKey a))
           (map trim addresses)
    /\ StronglySorted Nat.lt (map AddressError.index (Validation.errors r)).
Proof.
  destruct (forEach_address_errors addresses 0 (Validation.make [] []))
    as (errs & Hrun & Haddrs & _ & Hsorted & _).
  eexists. split; [ exact Hrun | ].
  cbn [Validation.errors app]. split; assumption.
Qed.

(** X3. Every entry of [errors] gives the reason of the first test its
    address fails: "Empty address" for an address that is empty once
    trimmed, "Must be 56 characters" for another length, "Must start
    with G" for 56 characters with another first one, and "Invalid
    Stellar address" only when the decoder throws on 56 characters that
    start with G. *)
Theorem validateParticipants_reasons (addresses : list jstring) :
  exists r,
    validateParticipants decodeEd25519PublicKey addresses = Returns r
    /\ Forall (reason_ok decodeEd25519PublicKey) (Validation.errors r).
Proof.
  destruct (forEach_address_errors addresses 0 (Validation.make [] []))
    as (errs & Hrun & _ & _ & _ & Hreasons).
  eexists. split; [ exact Hrun | ].
  cbn [Validation.errors app]. exact Hreasons.
Qed.

End Revalidation.

(** ** The record of a run of [executeSplit] *)

Section SettlementRecord.

Variable Number_toString : number -> jstring.
Variable sdk : Sdk.
Variable srv : Services sdk.
Variable publicKey : jstring.
Variable amountPerPerson : js_value.
Variable memo : jstring.

(** *** The calls of a pass *)

Lemma prepared_built_for recipient w transaction w2 :
  prepared Number_toString srv publicKey amountPerPerson memo recipient w
    transaction w2 ->
  built_for Number_toString srv publicKey amountPerPerson memo recipient
    transaction.
Proof.
  intros (w1 & account & fee & Hload & Hfee & Hbuild).
  exists w, w1, w2, account, fee. auto.
Qed.

Lemma signed_signed_from recipient w transaction signedTx w3 :
  signed Number_toString srv publicKey amountPerPerson memo recipient w
    transaction signedTx w3 ->
  built_for Number_toString srv publicKey amountPerPerson memo recipient
    transaction
  /\ signed_from srv publicKey transaction signedTx.
Proof.
  intros (w2 & signedXDR & Hprepared & Hsign & Hxdr).
  split; [ exact (prepared_built_for Hprepared) | ].
  exists w2, w3, signedXDR. auto.
Qed.

Lemma stopped_shape recipient w cs h w' :
  stopped Number_toString srv publicKey amountPerPerson memo recipient w cs
    h w' ->
  cs = [CallLoadAccount publicKey]
  \/ cs = [CallLoadAccount publicKey; CallFetchBaseFee]
  \/ (exists transaction,
        built_for Number_toString srv publicKey amountPerPerson memo
          recipient transaction
        /\ cs = [CallLoadAccount publicKey; CallFetchBaseFee;
                 CallSignTransaction (toXDR sdk transaction)
                   (sign_options publicKey)])
  \/ (exists transaction signedTx,
        built_for Number_toString srv publicKey amountPerPerson memo
          recipient transaction
        /\ signed_from srv publicKey transaction signedTx
        /\ cs = [CallLoadAccount publicKey; CallFetchBaseFee;
                 CallSignTransaction (toXDR sdk transaction)
                   (sign_options publicKey);
                 CallSubmitTransaction signedTx]).
Proof.
  destruct 1
    as [ w1 c h Hload Hhalt
       | w1 account w2 c h Hload Hfee Hhalt
       | w1 account w2 fee error Hload Hfee Hbuild
       | transaction w2 w3 c h Hprepared Hsign Hhalt
       | transaction w2 w3 signedXDR error Hprepared Hsign Hxdr
       | transaction signedTx w3 w4 c h Hsigned Hsubmit Hhalt ];
    auto.
  - right. right. left. exists transaction.
    split; [ exact (prepared_built_for Hprepared) | reflexivity ].
  - right. right. left. exists transaction.
    split; [ exact (prepared_built_for Hprepared) | reflexivity ].
  - right. right. right. exists transaction, signedTx.
    destruct (signed_signed_from Hsigned) as (Hbuilt & Hfrom). auto.
Qed.

Lemma paid_shape recipient w cs hash w' :
  paid Number_toString srv publicKey amountPerPerson memo recipient w cs hash
    w' ->
  exists transaction signedTx w3 result,
    built_for Number_toString srv publicKey amountPerPerson memo recipient
      transaction
    /\ signed_from srv publicKey transaction signedTx
    /\ submitTransaction srv signedTx w3 = (w', Normal result)
    /\ hash = SubmitResult.hash result
    /\ cs = [CallLoadAccount publicKey; CallFetchBaseFee;
             CallSignTransaction (toXDR sdk transaction)
               (sign_options publicKey);
             CallSubmitTransaction signedTx].
Proof.
  destruct 1 as [ transaction signedTx w3 w4 result Hsigned Hsubmit ].
  destruct (signed_signed_from Hsigned) as (Hbuilt & Hfrom).
  exists transaction, signedTx, w3, result. auto.
Qed.

(** *** Counting the calls *)

Lemma count_cons (p : Event sdk -> bool) (ev : Event sdk)
    (tr : list (Event sdk)) :
  count p (ev :: tr) = (if p ev then 1 else 0) + count p tr.
Proof. unfold count. cbn [filter]. destruct (p ev); reflexivity. Qed.

Lemma count_app (p : Event sdk -> bool) (tr tr' : list (Event sdk)) :
  count p (tr ++ tr') = count p tr + count p tr'.
Proof. unfold count. rewrite filter_app, length_app. reflexivity. Qed.

Lemma steps_counts recipient w cs h w' :
  stopped Number_toString srv publicKey amountPerPerson memo recipient w cs
    h w' ->
  count is_load cs = 1
  /\ count is_sign cs <= 1
  /\ count is_submit cs <= count is_sign cs
  /\ filter is_progress cs = [].
Proof.
  intros Hstop.
  destruct (stopped_shape Hstop)
    as [ -> | [ -> | [ (transaction & _ & ->)
                     | (transaction & signedTx & _ & _ & ->) ] ] ];
    cbn; repeat split; lia.
Qed.

Lemma paid_counts recipient w cs hash w' :
  paid Number_toString srv publicKey amountPerPerson memo recipient w cs hash
    w' ->
  count is_load cs = 1
  /\ count is_sign cs = 1
  /\ count is_submit cs = 1
  /\ filter is_progress cs = [].
Proof. destruct 1; cbn; repeat split. Qed.

Lemma successCount_success (recipient hash : jstring)
    (rs : list PaymentResult.t) :
  successCount (success_of amountPerPerson recipient hash :: rs)
  = S (successCount rs).
Proof. reflexivity. Qed.

Lemma successCount_failure (recipient text : jstring)
    (rs : list PaymentResult.t) :
  successCount (failure_of amountPerPerson recipient text :: rs)
  = successCount rs.
Proof. reflexivity. Qed.

Lemma settlement_counts total rest currentIndex w rs evs c w' :
  settlement Number_toString srv publicKey amountPerPerson memo total rest
    currentIndex w rs evs c w' ->
  count is_load evs = List.length rs + (if returned c then 0 else 1)
  /\ count is_sign evs <= count is_load evs
  /\ count is_submit evs <= count is_sign evs
  /\ successCount rs <= count is_submit evs
  /\ count is_submit evs <= S (successCount rs)
  /\ List.length rs + (if returned c then 0 else 1) <= List.length rest.
Proof.
  induction 1 as [ currentIndex w
                 | recipient rest currentIndex w cs hash w1 rs evs c w'
                     Hpaid _ IH
                 | recipient rest currentIndex w cs error text w' Hstop Htext
                 | recipient rest currentIndex w cs error typeError w' Hstop
                     Htext
                 | recipient rest currentIndex w cs w' Hstop ].
  - cbn. repeat split; lia.
  - destruct (paid_counts Hpaid) as (Hl & Hs & Hsub & _).
    destruct IH as (IHl & IHs & IHsub & IHlo & IHhi & IHlen).
    rewrite successCount_success.
    rewrite !count_cons, !count_app, !count_cons. cbn [is_load is_sign
      is_submit List.length].
    repeat split; lia.
  - destruct (steps_counts Hstop) as (Hl & Hs & Hsub & _).
    rewrite successCount_failure.
    rewrite !count_cons, !count_app, !count_cons. cbn [is_load is_sign
      is_submit List.length successCount totalCount filter].
    cbn. repeat split; lia.
  - destruct (steps_counts Hstop) as (Hl & Hs & Hsub & _).
    rewrite !count_cons, !count_app, !count_cons. cbn [is_load is_sign
      is_submit List.length successCount totalCount filter].
    cbn. repeat split; lia.
  - destruct (steps_counts Hstop) as (Hl & Hs & Hsub & _).
    rewrite !count_cons. cbn [is_load is_sign is_submit List.length].
    cbn. repeat split; lia.
Qed.

(** X4. A run of [executeSplit] loads the payer's account once for
    every participant it attempts and for no other: when it returns,
    the account was loaded exactly as many times as there are results,
    and when it does not (it is left waiting, or it throws) exactly
    once more.
    It never asks for more signatures than it loaded accounts, never
    submits more than was signed, and every success stands for a
    submission, of which at most one more was made. *)
Theorem executeSplit_call_accounting (participants : list jstring)
    (s : State srv) :
  exists evs,
    trace (fst (executeSplit Number_toString srv publicKey participants
                  amountPerPerson memo s))
    = trace s ++ evs
    /\ (forall rs,
          snd (executeSplit Number_toString srv publicKey participants
                 amountPerPerson memo s) = Normal rs ->
          count is_load evs = List.length rs)
    /\ (returned (snd (executeSplit Number_toString srv publicKey
                          participants amountPerPerson memo s)) = false ->
        count is_load evs
        = S (List.length
               (results (fst (executeSplit Number_toString srv publicKey
                                participants amountPerPerson memo s)))))
    /\ count is_load evs
       <= S (List.length
               (results (fst (executeSplit Number_toString srv publicKey
                                participants amountPerPerson memo s))))
    /\ count is_load evs <= List.length participants
    /\ count is_sign evs <= count is_load evs
    /\ count is_submit evs <= count is_sign evs
    /\ successCount
         (results (fst (executeSplit Number_toString srv publicKey
                          participants amountPerPerson memo s)))
       <= count is_submit evs
    /\ count is_submit evs
       <= S (successCount
               (results (fst (executeSplit Number_toString srv publicKey
                                participants amountPerPerson memo s)))).
Proof.
  destruct (@executeSplit_settlement Number_toString sdk srv publicKey
              amountPerPerson memo participants s)
    as (w & evs & rs & c & Hrun & Hshape).
  rewrite Hrun. cbn [fst snd trace results].
  destruct (settlement_counts Hshape)
    as (Hl & Hs & Hsub & Hlo & Hhi & Hlen).
  exists evs. split; [ reflexivity | ].
  split.
  { destruct c as [ [] | e | ]; cbn [finish returned] in *;
      [ intros rs' [= <-]; lia | discriminate | discriminate ]. }
  split.
  { destruct c as [ [] | e | ]; cbn [finish returned] in *;
      [ discriminate | intros _; lia | intros _; lia ]. }
  destruct c as [ [] | e | ]; cbn [returned] in *; repeat split; lia.
Qed.

(** *** Where submissions and results come from *)

Lemma steps_submitted recipient w cs h w' (tx : Transaction sdk) :
  stopped Number_toString srv publicKey amountPerPerson memo recipient w cs
    h w' ->
  In (CallSubmitTransaction tx) cs ->
  exists transaction,
    built_for Number_toString srv publicKey amountPerPerson memo recipient
      transaction
    /\ signed_from srv publicKey transaction tx
    /\ In (CallSignTransaction (toXDR sdk transaction)
             (sign_options publicKey)) cs.
Proof.
  intros Hstop.
  destruct (stopped_shape Hstop)
    as [ -> | [ -> | [ (transaction & _ & ->)
                     | (transaction & signedTx & Hbuilt & Hfrom & ->) ] ] ];
    cbn [In]; intros Hin;
    repeat (destruct Hin as [ Hin | Hin ]; try discriminate Hin);
    try contradiction.
  injection Hin as <-. exists transaction. cbn [In]. auto 6.
Qed.

Lemma paid_submitted recipient w cs hash w' (tx : Transaction sdk) :
  paid Number_toString srv publicKey amountPerPerson memo recipient w cs hash
    w' ->
  In (CallSubmitTransaction tx) cs ->
  exists transaction,
    built_for Number_toString srv publicKey amountPerPerson memo recipient
      transaction
    /\ signed_from srv publicKey transaction tx
    /\ In (CallSignTransaction (toXDR sdk transaction)
             (sign_options publicKey)) cs.
Proof.
  intros Hpaid.
  destruct (paid_shape Hpaid)
    as (transaction & signedTx & w3 & result & Hbuilt & Hfrom & _ & _ & ->).
  cbn [In]; intros Hin;
    repeat (destruct Hin as [ Hin | Hin ]; try discriminate Hin);
    try contradiction.
  injection Hin as <-. exists transaction. cbn [In]. auto 6.
Qed.

Lemma settlement_submitted total rest currentIndex w rs evs c w' tx :
  settlement Number_toString srv publicKey amountPerPerson memo total rest
    currentIndex w rs evs c w' ->
  In (CallSubmitTransaction tx) evs ->
  exists recipient transaction,
    In recipient rest
    /\ built_for Number_toString srv publicKey amountPerPerson memo recipient
         transaction
    /\ signed_from srv publicKey transaction tx
    /\ In (CallSignTransaction (toXDR sdk transaction)
             (sign_options publicKey)) evs.
Proof.
  induction 1 as [ currentIndex w
                 | recipient rest currentIndex w cs hash w1 rs evs c w'
                     Hpaid _ IH
                 | recipient rest currentIndex w cs error text w' Hstop Htext
                 | recipient rest currentIndex w cs error typeError w' Hstop
                     Htext
                 | recipient rest currentIndex w cs w' Hstop ];
    intros Hin.
  - destruct Hin.
  - destruct Hin as [ Hin | Hin ]; [ discriminate Hin | ].
    apply in_app_or in Hin. destruct Hin as [ Hin | [ Hin | Hin ] ];
      [ | discriminate Hin | ].
    + destruct (@paid_submitted _ _ _ _ _ tx Hpaid Hin)
        as (transaction & Hbuilt & Hsigned & Hreq).
      exists recipient, transaction. repeat split; try assumption.
      * left. reflexivity.
      * right. apply in_or_app. left. exact Hreq.
    + destruct (IH Hin) as (r & transaction & Hr & Hbuilt & Hsigned & Hreq).
      exists r, transaction. repeat split; try assumption.
      * right. exact Hr.
      * right. apply in_or_app. right. right. exact Hreq.
  - destruct Hin as [ Hin | Hin ]; [ discriminate Hin | ].
    apply in_app_or in Hin.
    destruct Hin as [ Hin | [ Hin | [ Hin | [] ] ] ];
      try discriminate Hin.
    destruct (@steps_submitted _ _ _ _ _ tx Hstop Hin)
      as (transaction & Hbuilt & Hsigned & Hreq).
    exists recipient, transaction. repeat split; try assumption.
    + left. reflexivity.
    + right. apply in_or_app. left. exact Hreq.
  - destruct Hin as [ Hin | Hin ]; [ discriminate Hin | ].
    apply in_app_or in Hin.
    destruct Hin as [ Hin | [ Hin | [] ] ]; try discriminate Hin.
    destruct (@steps_submitted _ _ _ _ _ tx Hstop Hin)
      as (transaction & Hbuilt & Hsigned & Hreq).
    exists recipient, transaction. repeat split; try assumption.
    + left. reflexivity.
    + right. apply in_or_app. left. exact Hreq.
  - destruct Hin as [ Hin | Hin ]; [ discriminate Hin | ].
    destruct (@steps_submitted _ _ _ _ _ tx Hstop Hin)
      as (transaction & Hbuilt & Hsigned & Hreq).
    exists recipient, transaction. repeat split; try assumption.
    + left. reflexivity.
    + right. exact Hreq.
Qed.

(** X5. [executeSplit] submits nothing but what the wallet signed:
    every transaction it hands to the ledger is the decoded answer of
    the wallet to a request recorded in the same run, and that request
    was for a payment to one of the participants, of the amount and
    with the memo given, built on an account and a fee the ledger had
    just answered with. *)
Theorem executeSplit_submits_signed (participants : list jstring)
    (s : State srv) :
  exists evs,
    trace (fst (executeSplit Number_toString srv publicKey participants
                  amountPerPerson memo s))
    = trace s ++ evs
    /\ forall tx,
         In (CallSubmitTransaction tx) evs ->
         exists recipient transaction,
           In recipient participants
           /\ built_for Number_toString srv publicKey amountPerPerson memo
                recipient transaction
           /\ signed_from srv publicKey transaction tx
           /\ In (CallSignTransaction (toXDR sdk transaction)
                    (sign_options publicKey)) evs.
Proof.
  destruct (@executeSplit_settlement Number_toString sdk srv publicKey
              amountPerPerson memo participants s)
    as (w & evs & rs & c & Hrun & Hshape).
  rewrite Hrun. cbn [fst trace].
  exists evs. split; [ reflexivity | ].
  intros tx. apply (settlement_submitted tx Hshape).
Qed.

Lemma settlement_results total rest currentIndex w rs evs c w' r :
  settlement Number_toString srv publicKey amountPerPerson memo total rest
    currentIndex w rs evs c w' ->
  In r rs ->
  PaymentResult.amount r = amountPerPerson
  /\ In (PaymentResult.recipient r) rest
  /\ (PaymentResult.status r = js "success" ->
      exists tx w0 w1 result,
        In (CallSubmitTransaction tx) evs
        /\ submitTransaction srv tx w0 = (w1, Normal result)
        /\ r = success_of amountPerPerson (PaymentResult.recipient r)
                 (SubmitResult.hash result)).
Proof.
  induction 1 as [ currentIndex w
                 | recipient rest currentIndex w cs hash w1 rs evs c w'
                     Hpaid _ IH
                 | recipient rest currentIndex w cs error text w' Hstop Htext
                 | recipient rest currentIndex w cs error typeError w' Hstop
                     Htext
                 | recipient rest currentIndex w cs w' Hstop ];
    intros Hin.
  - destruct Hin.
  - destruct Hin as [ <- | Hin ].
    + split; [ reflexivity | ]. split; [ left; reflexivity | ].
      intros _.
      destruct (paid_shape Hpaid)
        as (transaction & signedTx & w3 & result & _ & _ & Hsubmit & ->
            & ->).
      exists signedTx, w3, w1, result. split; [ | split; auto ].
      right. cbn [app In]. auto.
    + destruct (IH Hin) as (Hamount & Hrecipient & Hsuccess).
      split; [ exact Hamount | ]. split; [ right; exact Hrecipient | ].
      intros Hstatus.
      destruct (Hsuccess Hstatus)
        as (tx & w0 & w2 & result & Hsub & Hans & Hr).
      exists tx, w0, w2, result. split; [ | split; assumption ].
      right. apply in_or_app. right. right. exact Hsub.
  - destruct Hin as [ <- | [] ].
    split; [ reflexivity | ]. split; [ left; reflexivity | ].
    cbn. discriminate.
  - destruct Hin.
  - destruct Hin.
Qed.

(** X6. Every result of [executeSplit] is for one of the participants
    and carries the one amount the run was given; every success carries
    the hash the ledger answered a submission of the same run with, and
    the explorer link of that hash. *)
Theorem executeSplit_results_provenance (participants : list jstring)
    (s : State srv) :
  exists evs,
    trace (fst (executeSplit Number_toString srv publicKey participants
                  amountPerPerson memo s))
    = trace s ++ evs
    /\ forall r,
         In r (results (fst (executeSplit Number_toString srv publicKey
                               participants amountPerPerson memo s))) ->
         PaymentResult.amount r = amountPerPerson
         /\ In (PaymentResult.recipient r) participants
         /\ (PaymentResult.status r = js "success" ->
             exists tx w w' result,
               In (CallSubmitTransaction tx) evs
               /\ submitTransaction srv tx w = (w', Normal result)
               /\ r = PaymentResult.success (PaymentResult.recipient r)
                        amountPerPerson (SubmitResult.hash result)
                        (js "https://stellar.expert/explorer/testnet/tx/"
                         ++ SubmitResult.hash result)).
Proof.
  destruct (@executeSplit_settlement Number_toString sdk srv publicKey
              amountPerPerson memo participants s)
    as (w & evs & rs & c & Hrun & Hshape).
  rewrite Hrun. cbn [fst trace results].
  exists evs. split; [ reflexivity | ].
  intros r. apply (settlement_results r Hshape).
Qed.

(** *** The progress signals *)

Lemma settlement_progress total rest currentIndex w rs evs c w' :
  settlement Number_toString srv publicKey amountPerPerson memo total rest
    currentIndex w rs evs c w' ->
  filter is_progress evs
  = progress_of total currentIndex rs
    ++ (if returned c then []
        else [UpdateSplitProgress (S (currentIndex + List.length rs)) total
                (js "processing")]).
Proof.
  induction 1 as [ currentIndex w
                 | recipient rest currentIndex w cs hash w1 rs evs c w'
                     Hpaid _ IH
                 | recipient rest currentIndex w cs error text w' Hstop Htext
                 | recipient rest currentIndex w cs error typeError w' Hstop
                     Htext
                 | recipient rest currentIndex w cs w' Hstop ].
  - reflexivity.
  - destruct (paid_counts Hpaid) as (_ & _ & _ & Hnone).
    cbn [filter is_progress]. rewrite filter_app, Hnone.
    cbn [filter is_progress app progress_of List.length]. rewrite IH.
    replace (S currentIndex + List.length rs)
      with (currentIndex + S (List.length rs)) by lia.
    reflexivity.
  - destruct (steps_counts Hstop) as (_ & _ & _ & Hnone).
    cbn [filter is_progress]. rewrite filter_app, Hnone.
    cbn. reflexivity.
  - destruct (steps_counts Hstop) as (_ & _ & _ & Hnone).
    cbn [filter is_progress]. rewrite filter_app, Hnone.
    cbn [filter is_progress progress_of app List.length returned].
    rewrite Nat.add_0_r. reflexivity.
  - destruct (steps_counts Hstop) as (_ & _ & _ & Hnone).
    cbn [filter is_progress]. rewrite Hnone.
    cbn [progress_of app List.length returned]. rewrite Nat.add_0_r.
    reflexivity.
Qed.

Lemma progress_of_bounds total currentIndex rs current total' status :
  In (UpdateSplitProgress current total' status)
    (progress_of (sdk := sdk) total currentIndex rs) ->
  total' = total /\ currentIndex < current <= currentIndex + List.length rs.
Proof.
  revert currentIndex.
  induction rs as [ | r rs IH ]; intros currentIndex Hin; [ destruct Hin | ].
  cbn [progress_of In List.length] in Hin.
  destruct Hin as [ Hin | [ Hin | Hin ] ].
  - injection Hin as <- <- _. cbn [List.length].
    split; [ reflexivity | lia ].
  - injection Hin as <- <- _. cbn [List.length].
    split; [ reflexivity | lia ].
  - destruct (IH _ Hin) as (Htotal & Hrange).
    split; [ exact Htotal | cbn [List.length]; lia ].
Qed.

(** X7. The progress signals of a run that returns are, for each
    result in turn, "processing" and then the status recorded for it,
    numbered from 1 and always out of the number of participants.  A
    run left waiting has sent one more "processing", for the
    participant it waits on. *)
Theorem executeSplit_progress_signals (participants : list jstring)
    (s : State srv) :
  exists evs,
    trace (fst (executeSplit Number_toString srv publicKey participants
                  amountPerPerson memo s))
    = trace s ++ evs
    /\ (forall rs,
          snd (executeSplit Number_toString srv publicKey participants
                 amountPerPerson memo s) = Normal rs ->
          filter is_progress evs
          = progress_of (List.length participants) 0 rs)
    /\ (snd (executeSplit Number_toString srv publicKey participants
               amountPerPerson memo s) = Suspended ->
        filter is_progress evs
        = progress_of (List.length participants) 0
            (results (fst (executeSplit Number_toString srv publicKey
                             participants amountPerPerson memo s)))
          ++ [UpdateSplitProgress
                (S (List.length
                      (results
                         (fst (executeSplit Number_toString srv publicKey
                                 participants amountPerPerson memo s)))))
                (List.length participants) (js "processing")]).
Proof.
  destruct (@executeSplit_settlement Number_toString sdk srv publicKey
              amountPerPerson memo participants s)
    as (w & evs & rs & c & Hrun & Hshape).
  rewrite Hrun. cbn [fst snd trace results].
  pose proof (settlement_progress Hshape) as Hprogress.
  exists evs. split; [ reflexivity | ].
  destruct c as [ [] | e | ]; cbn [finish returned] in *; split;
    try discriminate.
  - intros rs' [= <-]. rewrite Hprogress, app_nil_r. reflexivity.
  - intros _. exact Hprogress.
Qed.

(** X8. Every progress signal of a run counts out of the number of
    participants and names a position from 1 up to that number: the
    bar never shows more than the whole. *)
Theorem executeSplit_progress_bounds (participants : list jstring)
    (s : State srv) :
  exists evs,
    trace (fst (executeSplit Number_toString srv publicKey participants
                  amountPerPerson memo s))
    = trace s ++ evs
    /\ forall current total status,
         In (UpdateSplitProgress current total status) evs ->
         total = List.length participants /\ 1 <= current <= total.
Proof.
  destruct (@executeSplit_settlement Number_toString sdk srv publicKey
              amountPerPerson memo participants s)
    as (w & evs & rs & c & Hrun & Hshape).
  rewrite Hrun. cbn [fst trace].
  pose proof (settlement_progress Hshape) as Hprogress.
  destruct (settlement_counts Hshape) as (_ & _ & _ & _ & _ & Hlen).
  exists evs. split; [ reflexivity | ].
  intros current total status Hin.
  assert (Hin' : In (UpdateSplitProgress current total status)
                   (filter is_progress evs)).
  { apply filter_In. split; [ exact Hin | reflexivity ]. }
  rewrite Hprogress in Hin'. apply in_app_or in Hin'.
  destruct Hin' as [ Hin' | Hin' ].
  - destruct (@progress_of_bounds _ _ _ _ _ _ Hin') as (-> & Hrange).
    destruct (returned c); split; try reflexivity; lia.
  - destruct (returned c); [ destruct Hin' | ].
    destruct Hin' as [ Hin' | [] ]. injection Hin' as <- <- _.
    split; [ reflexivity | cbn in *; lia ].
Qed.

(** *** The summary card *)

Lemma settlement_summary total rest currentIndex w rs evs c w' :
  settlement Number_toString srv publicKey amountPerPerson memo total rest
    currentIndex w rs evs c w' ->
  c = Normal tt ->
  (successCount rs = List.length rest
   /\ failedCount rs = 0
   /\ totalCount rs = successCount rs)
  \/ (successCount rs < List.length rest
      /\ failedCount rs = 1
      /\ totalCount rs = S (successCount rs)).
Proof.
  induction 1 as [ currentIndex w
                 | recipient rest currentIndex w cs hash w1 rs evs c w'
                     Hpaid _ IH
                 | recipient rest currentIndex w cs error text w' Hstop Htext
                 | recipient rest currentIndex w cs error typeError w' Hstop
                     Htext
                 | recipient rest currentIndex w cs w' Hstop ];
    intros Hret; try discriminate.
  - left. repeat split.
  - rewrite successCount_success.
    change (failedCount (success_of amountPerPerson recipient hash :: rs))
      with (failedCount rs).
    unfold totalCount in *. cbn [List.length].
    destruct (IH Hret) as [ (Hs & Hf & Ht) | (Hs & Hf & Ht) ];
      [ left | right ]; repeat split; lia.
  - right. cbn. repeat split; lia.
Qed.

(** X9. The summary card of a run that returned tells the truth about
    it.  It reads "All payments sent!" and shows no retry hint exactly
    when every participant has a success; otherwise exactly one result
    failed, the retry hint is shown, and the title counts the successes
    out of the payments attempted, one more than succeeded, however
    many participants were left unattempted. *)
Theorem renderSplitResults_summary (participants : list jstring)
    (s : State srv) (rs : list PaymentResult.t) :
  snd (executeSplit Number_toString srv publicKey participants
         amountPerPerson memo s) = Normal rs ->
  (successCount rs = List.length participants
   /\ failedCount rs = 0
   /\ retry_hint_shown rs = false
   /\ results_title rs = all_sent_title)
  \/ (successCount rs < List.length participants
      /\ failedCount rs = 1
      /\ retry_hint_shown rs = true
      /\ results_title rs
         = [9888%N; 65039%N] ++ js " " ++
           N_to_string (N.of_nat (successCount rs)) ++ js " of " ++
           N_to_string (N.of_nat (S (successCount rs))) ++ js " succeeded").
Proof.
  destruct (@executeSplit_settlement Number_toString sdk srv publicKey
              amountPerPerson memo participants s)
    as (w & evs & rs' & c & Hrun & Hshape).
  rewrite Hrun. cbn [snd].
  destruct c as [ [] | e | ]; cbn [finish]; [ | discriminate | discriminate ].
  intros [= <-].
  destruct (settlement_summary Hshape eq_refl)
    as [ (Hs & Hf & Ht) | (Hs & Hf & Ht) ]; [ left | right ];
    unfold retry_hint_shown, results_title; rewrite Hf, Ht.
  - rewrite Nat.eqb_refl. auto.
  - destruct (Nat.eqb_spec (successCount rs') (S (successCount rs')));
      [ lia | ].
    repeat split; auto.
Qed.

End SettlementRecord.

(** ** [formatAddressShort] *)

Lemma substring_head (s : jstring) (n : nat) :
  substring s 0 (Some (Z.of_nat n)) = firstn n s.
Proof.
  unfold substring, JsString.length.
  set (len := List.length s).
  replace (Z.min (Z.max 0 0) (Z.of_nat len)) with 0%Z by lia.
  replace (Z.min (Z.max (Z.of_nat n) 0) (Z.of_nat len))
    with (Z.of_nat (Nat.min n len)) by lia.
  rewrite Z.min_l, Z.max_r by lia.
  cbn [Z.to_nat skipn]. rewrite Nat.sub_0_r, Nat2Z.id.
  destruct (Nat.min_spec n len) as [ (Hlt & ->) | (Hge & ->) ];
    [ reflexivity | ].
  subst len. rewrite !firstn_all2; [ reflexivity | lia | lia ].
Qed.

Lemma substring_tail (s : jstring) (n : nat) :
  substring s (Z.of_nat (JsString.length s) - Z.of_nat n) None
  = skipn (List.length s - n) s.
Proof.
  unfold substring, JsString.length.
  set (len := List.length s).
  assert (Hclamp : Z.min (Z.max (Z.of_nat len - Z.of_nat n) 0) (Z.of_nat len)
                   = Z.of_nat (len - n)) by lia.
  rewrite Hclamp. rewrite Z.min_l, Z.max_r by lia.
  rewrite !Nat2Z.id.
  apply firstn_all2. rewrite length_skipn. subst len. lia.
Qed.

(** X10. [formatAddressShort] shows the first six and the last six
    code units of an address around three dots, fifteen code units in
    all for an address of six or more; a shorter address is shown
    whole on both sides; an empty one gives a dash. *)
Theorem formatAddressShort_shape (address : jstring) :
  (address = [] -> formatAddressShort address = em_dash)
  /\ (address <> [] ->
      formatAddressShort address
      = firstn 6 address ++ js "..."
        ++ skipn (List.length address - 6) address)
  /\ (6 <= List.length address ->
      List.length (formatAddressShort address) = 15)
  /\ (address <> [] -> List.length address < 6 ->
      formatAddressShort address = address ++ js "..." ++ address).
Proof.
  assert (Hshape : address <> [] ->
                   formatAddressShort address
                   = firstn 6 address ++ js "..."
                     ++ skipn (List.length address - 6) address).
  { intros Hne. unfold formatAddressShort.
    destruct address as [ | c t ]; [ contradiction | ].
    cbn [JsString.truthy negb].
    change 6%Z with (Z.of_nat 6).
    rewrite (substring_head (c :: t) 6), (substring_tail (c :: t) 6).
    reflexivity. }
  split; [ intros ->; reflexivity | ].
  split; [ exact Hshape | ].
  split.
  - intros Hlen. rewrite Hshape by (intros ->; cbn in Hlen; lia).
    rewrite !length_app, length_firstn, length_skipn. cbn [js List.length].
    lia.
  - intros Hne Hlen. rewrite (Hshape Hne).
    rewrite firstn_all2 by lia.
    replace (List.length address - 6) with 0 by lia. reflexivity.
Qed.

(** ** balance.js: what the checks report *)

Lemma JsString_eqb_eq (s t : jstring) : JsString.eqb s t = true <-> s = t.
Proof.
  revert t. induction s as [ | c s IH ]; intros [ | d t ]; cbn.
  - split; reflexivity.
  - split; discriminate.
  - split; discriminate.
  - rewrite andb_true_iff, N.eqb_eq, IH. split.
    + intros (-> & ->). reflexivity.
    + intros [= -> ->]. auto.
Qed.

(** [find] stops at the first line whose asset type is "native". *)
Lemma find_native (balances : list BalanceLine.t) :
  (find (fun b => JsString.eqb (BalanceLine.asset_type b) (js "native"))
     balances = None
   /\ Forall (fun b => BalanceLine.asset_type b <> js "native") balances)
  \/ exists pre b post,
       balances = pre ++ b :: post
       /\ Forall (fun b => BalanceLine.asset_type b <> js "native") pre
       /\ BalanceLine.asset_type b = js "native"
       /\ find (fun b => JsString.eqb (BalanceLine.asset_type b) (js "native"))
            balances = Some b.
Proof.
  induction balances as [ | b rest IH ].
  - left. split; [ reflexivity | constructor ].
  - cbn [find].
    destruct (JsString.eqb (BalanceLine.asset_type b) (js "native")) eqn:Hb.
    + right. exists [], b, rest. apply JsString_eqb_eq in Hb.
      repeat split; auto.
    + assert (Hne : BalanceLine.asset_type b <> js "native").
      { intros Heq. apply JsString_eqb_eq in Heq. congruence. }
      destruct IH as [ (Hnone & Hall)
                     | (pre & b' & post & -> & Hall & Hb' & Hfind) ].
      * left. split; [ exact Hnone | constructor; assumption ].
      * right. exists (b :: pre), b', post. repeat split; auto.
Qed.

(** The order of two numbers, read the other way round. *)
Lemma SFcompare_swap (a b : number) :
  SFcompare b a = option_map CompOpp (SFcompare a b).
Proof.
  destruct a as [ sa | sa | | sa ma ea ], b as [ sb | sb | | sb mb eb ];
    cbn; try destruct sa; try destruct sb; try reflexivity;
    rewrite (Z.compare_antisym ea eb);
    destruct (Z.compare ea eb); cbn; try reflexivity;
    pose proof (Pos.compare_cont_antisym ma mb Eq) as Hswap;
    cbn in Hswap; rewrite <- Hswap;
    destruct (Pos.compare_cont Eq ma mb); reflexivity.
Qed.

Lemma SFcompare_unordered (a b : number) :
  SFcompare a b = None -> a = NaN \/ b = NaN.
Proof.
  destruct a as [ sa | sa | | sa ma ea ], b as [ sb | sb | | sb mb eb ];
    cbn; try destruct sa; try destruct sb; try discriminate; auto.
Qed.

(** [a >= b] and [a < b] never hold together, and both fail only when
    one of the two is not a number. *)
Lemma ge_lt_cases (a b : number) :
  (ge a b = true /\ lt a b = false)
  \/ (ge a b = false /\ lt a b = true)
  \/ (ge a b = false /\ lt a b = false /\ (a = NaN \/ b = NaN)).
Proof.
  unfold ge, lt, SFleb, SFltb. rewrite (SFcompare_swap a b).
  destruct (SFcompare a b) as [ [ | | ] | ] eqn:Hcmp; cbn; auto.
  right. right. repeat split. apply (SFcompare_unordered _ _ Hcmp).
Qed.

Section BalanceReports.

Variable Number_toString : number -> jstring.
Variable sdk : Sdk.
Variable srv : Services sdk.

Lemma checkSufficientBalance_waits (publicKey : jstring)
    (amount : js_value) (numPayments : number) (s : State srv) w :
  loadAccount srv publicKey (world s) = (w, Suspended) ->
  checkSufficientBalance Number_toString srv publicKey amount numPayments s
  = (mkState srv w (trace s ++ [CallLoadAccount publicKey]) (results s),
     Suspended).
Proof.
  intros Hload.
  unfold checkSufficientBalance, try_catch, bind, await, emit, ret, throw.
  cbn [world trace results]. rewrite Hload. reflexivity.
Qed.

(** X11. The answer of [checkSufficientBalance] never reports a
    shortfall together with a sufficient balance.  An insufficient
    balance is reported with the two-digit text of the difference,
    unless the balance or the cost is not a number: then the answer is
    insufficient with a shortfall of "0". *)
Theorem checkSufficientBalance_shortfall (publicKey : jstring)
    (amount : js_value) (numPayments : number) (s : State srv) w account :
  loadAccount srv publicKey (world s) = (w, Normal account) ->
  exists check,
    snd (checkSufficientBalance Number_toString srv publicKey amount
           numPayments s) = Normal check
    /\ (BalanceCheck.sufficient check = true ->
        BalanceCheck.shortfall check = js "0")
    /\ (BalanceCheck.sufficient check = false ->
        BalanceCheck.shortfall check
        = toFixed Number_toString
            (sub (estimateTotalCost Number_toString amount numPayments)
               (parseFloat_string (native_balance account))) 2
        \/ (BalanceCheck.shortfall check = js "0"
            /\ (parseFloat_string (native_balance account) = NaN
                \/ estimateTotalCost Number_toString amount numPayments
                   = NaN))).
Proof.
  intros Hload.
  rewrite (checkSufficientBalance_answers _ _ _ _ _ Hload). cbn [snd].
  eexists. split; [ reflexivity | ].
  cbn [BalanceCheck.sufficient BalanceCheck.shortfall].
  destruct (ge_lt_cases (parseFloat_string (native_balance account))
              (estimateTotalCost Number_toString amount numPayments))
    as [ (Hge & Hlt) | [ (Hge & Hlt) | (Hge & Hlt & Hnan) ] ];
    rewrite Hge, Hlt; split; intros Heq; try discriminate Heq; auto.
Qed.

(** X12. The balance that [refreshBalance] displays and returns, and
    that [checkSufficientBalance] reports as available, is read from
    the first balance line of the account whose asset type is "native";
    when there is no such line, or its balance is the empty string, the
    balance is taken to be "0". *)
Theorem refreshBalance_first_native_line (publicKey : jstring)
    (amount : js_value) (numPayments : number) (s : State srv) w account :
  loadAccount srv publicKey (world s) = (w, Normal account) ->
  exists balance,
    refreshBalance Number_toString srv publicKey s
    = (mkState srv w
         (trace s ++
          [CallLoadAccount publicKey;
           SetBalanceDisplay
             (toFixed Number_toString (parseFloat_string balance) 2
              ++ js " XLM")])
         (results s),
       Normal (parseFloat_string balance))
    /\ (exists check,
          snd (checkSufficientBalance Number_toString srv publicKey amount
                 numPayments s) = Normal check
          /\ BalanceCheck.available check
             = toFixed Number_toString (parseFloat_string balance) 2)
    /\ ((Forall (fun b => BalanceLine.asset_type b <> js "native")
           (Account.balances account)
         /\ balance = js "0")
        \/ exists pre b post,
             Account.balances account = pre ++ b :: post
             /\ Forall (fun b => BalanceLine.asset_type b <> js "native") pre
             /\ BalanceLine.asset_type b = js "native"
             /\ balance = (if JsString.truthy (BalanceLine.balance b)
                           then BalanceLine.balance b else js "0")).
Proof.
  intros Hload. exists (native_balance account).
  split; [ | split ].
  - unfold refreshBalance, try_catch, bind, await, emit, ret.
    cbn [world trace results]. rewrite Hload. cbn [world trace results].
    rewrite <- app_assoc. reflexivity.
  - rewrite (checkSufficientBalance_answers _ _ _ _ _ Hload). cbn [snd].
    eexists. split; reflexivity.
  - unfold native_balance.
    destruct (find_native (Account.balances account))
      as [ (Hnone & Hall) | (pre & b & post & Hsplit & Hall & Hb & Hfind) ].
    + rewrite Hnone. left. auto.
    + rewrite Hfind. right. exists pre, b, post. auto.
Qed.

Lemma validateBalanceForSplit_gate (publicKey : jstring)
    (totalAmount : js_value) (numParticipants : number) (s : State srv) :
  gate_outcome publicKey (js "split") s
    (fst (validateBalanceForSplit Number_toString srv publicKey totalAmount
            numParticipants s))
    (snd (validateBalanceForSplit Number_toString srv publicKey totalAmount
            numParticipants s)).
Proof.
  destruct (validateBalanceForSplit Number_toString srv publicKey totalAmount numParticipants s)
    as [ final c ] eqn:Hrun.
  cbn [fst snd]. revert Hrun.
  unfold validateBalanceForSplit, try_catch at 1, bind at 1.
  destruct (loadAccount srv publicKey (world s))
    as [ w [ account | error | ] ] eqn:Hload.
  - rewrite (checkSufficientBalance_answers _ _ _ _ _ Hload).
    cbn [BalanceCheck.sufficient BalanceCheck.required
         BalanceCheck.available BalanceCheck.shortfall].
    destruct (ge (parseFloat_string (native_balance account))
                (estimateTotalCost Number_toString totalAmount
                   numParticipants));
      cbn [negb];
      unfold bind, showBalanceWarning, hideBalanceWarning, emit, ret;
      cbn [world trace results]; rewrite <- app_assoc;
      intros [= <- <-]; cbn [trace results];
      (split; [ reflexivity | ]).
    + right. left. split; reflexivity.
    + right. right. right. split; [ reflexivity | ].
      do 3 eexists. reflexivity.
  - rewrite (checkSufficientBalance_rethrows _ _ _ _ _ Hload).
    unfold bind, emit, ret. cbn [world trace results].
    rewrite <- app_assoc. intros [= <- <-]. cbn [trace results].
    split; [ reflexivity | ].
    right. right. left. split; [ reflexivity | ].
    exists error. reflexivity.
  - rewrite (checkSufficientBalance_waits _ _ _ _ Hload).
    intros [= <- <-]. cbn [trace results]. split; [ reflexivity | ].
    left. split; reflexivity.
Qed.

Lemma validateBalanceForPayment_gate (publicKey : jstring)
    (amount : js_value) (s : State srv) :
  gate_outcome publicKey (js "payment") s
    (fst (validateBalanceForPayment Number_toString srv publicKey amount s))
    (snd (validateBalanceForPayment Number_toString srv publicKey amount s)).
Proof.
  destruct (validateBalanceForPayment Number_toString srv publicKey amount s)
    as [ final c ] eqn:Hrun.
  cbn [fst snd]. revert Hrun.
  unfold validateBalanceForPayment, try_catch at 1, bind at 1.
  destruct (loadAccount srv publicKey (world s))
    as [ w [ account | error | ] ] eqn:Hload.
  - rewrite (checkSufficientBalance_answers _ _ _ _ _ Hload).
    cbn [BalanceCheck.sufficient BalanceCheck.required
         BalanceCheck.available BalanceCheck.shortfall].
    destruct (ge (parseFloat_string (native_balance account))
                (estimateTotalCost Number_toString amount (of_Z 1)));
      cbn [negb];
      unfold bind, showBalanceWarning, hideBalanceWarning, emit, ret;
      cbn [world trace results]; rewrite <- app_assoc;
      intros [= <- <-]; cbn [trace results];
      (split; [ reflexivity | ]).
    + right. left. split; reflexivity.
    + right. right. right. split; [ reflexivity | ].
      do 3 eexists. reflexivity.
  - rewrite (checkSufficientBalance_rethrows _ _ _ _ _ Hload).
    unfold bind, emit, ret. cbn [world trace results].
    rewrite <- app_assoc. intros [= <- <-]. cbn [trace results].
    split; [ reflexivity | ].
    right. right. left. split; [ reflexivity | ].
    exists error. reflexivity.
  - rewrite (checkSufficientBalance_waits _ _ _ _ Hload).
    intros [= <- <-]. cbn [trace results]. split; [ reflexivity | ].
    left. split; reflexivity.
Qed.

(** X13. The two balance gates never throw and ask the ledger once.
    They answer [false] only after showing the warning, for "split" and
    for "payment"; they answer [true] after hiding the warning, or
    after a failed query that they log; and they stay open only when
    the account query does. *)
Theorem validateBalance_gates (publicKey : jstring) (amount : js_value)
    (numParticipants : number) (s : State srv) :
  gate_outcome publicKey (js "split") s
    (fst (validateBalanceForSplit Number_toString srv publicKey amount
            numParticipants s))
    (snd (validateBalanceForSplit Number_toString srv publicKey amount
            numParticipants s))
  /\ gate_outcome publicKey (js "payment") s
       (fst (validateBalanceForPayment Number_toString srv publicKey amount
               s))
       (snd (validateBalanceForPayment Number_toString srv publicKey amount
               s)).
Proof.
  split;
    [ apply validateBalanceForSplit_gate
    | apply validateBalanceForPayment_gate ].
Qed.

End BalanceReports.

(** ** main.js: the split form *)

Lemma filter_keeps_all {A : Type} (p : A -> bool) (l : list A) :
  List.length (filter p l) = List.length l ->
  filter p l = l /\ Forall (fun a => p a = true) l.
Proof.
  induction l as [ | a l IH ]; cbn [filter List.length].
  - intros _. split; [ reflexivity | constructor ].
  - destruct (p a) eqn:Hp; cbn [List.length]; intros Hlen.
    + injection Hlen as Hlen. destruct (IH Hlen) as (Hall & Hforall).
      rewrite Hall. split; [ reflexivity | constructor; assumption ].
    + pose proof (filter_length_le p l). lia.
Qed.

Lemma recipient_lines_trimmed (recipientsText : jstring) :
  Forall (fun a => trim a = a /\ a <> []) (recipient_lines recipientsText).
Proof.
  apply Forall_forall. intros a Hin. unfold recipient_lines in Hin.
  apply filter_In in Hin. destruct Hin as (Hin & Hlen).
  apply in_map_iff in Hin. destruct Hin as (x & <- & _).
  split; [ apply trim_idempotent | ].
  intros Hnil. rewrite Hnil in Hlen. discriminate Hlen.
Qed.

Lemma map_trim_trimmed (addresses : list jstring) :
  Forall (fun a => trim a = a /\ a <> []) addresses ->
  map trim addresses = addresses.
Proof.
  induction 1 as [ | a l (Ha & _) _ IH ]; cbn [map];
    [ reflexivity | rewrite Ha, IH; reflexivity ].
Qed.

Section SplitForm.

Variable Number_toString : number -> jstring.
Variable decodeEd25519PublicKey : jstring -> sync (list N).
Variable sdk : Sdk.
Variable srv : Services sdk.

Local Abbreviation previewSplitBtn := (js "previewSplitBtn").

(** The paths of the preview handler for a connected wallet: one of
    the three checks of the form raises an alert box; or the form is in
    order and [calculateSplit] refuses; or the balance gate is asked and
    decides. *)
Lemma previewSplit_click_cases (key total recipientsText memoValue : jstring)
    (s : State srv) :
  (exists text,
     previewSplit_click Number_toString decodeEd25519PublicKey srv
       (Some key) total recipientsText memoValue s
     = (mkState srv (world s) (trace s ++ [Alert text]) (results s),
        Normal None))
  \/ (JsString.truthy total = true
      /\ le (parseFloat_string total) (of_Z 0) = false
      /\ recipient_lines recipientsText <> []
      /\ Forall (fun a => accepts decodeEd25519PublicKey a = true)
           (recipient_lines recipientsText)
      /\ ((exists error text,
             previewSplit_click Number_toString decodeEd25519PublicKey srv
               (Some key) total recipientsText memoValue s
             = (mkState srv (world s)
                  (trace s ++
                   [ConsoleError (js "Split calculation error:") error;
                    Alert text])
                  (results s),
                Normal None))
          \/ (exists splitData,
                calculateSplit Number_toString (JsString total)
                  (Some (of_nat (List.length
                                   (recipient_lines recipientsText))))
                = Returns splitData
                /\ previewSplit_click Number_toString decodeEd25519PublicKey
                     srv (Some key) total recipientsText memoValue s
                   = (let gate :=
                        validateBalanceForSplit Number_toString srv key
                          (JsString total)
                          (of_nat (List.length
                                     (recipient_lines recipientsText))) s in
                      match snd gate with
                      | Normal true =>
                          (mkState srv (world (fst gate))
                             (trace (fst gate) ++
                              [RenderSplitPreview splitData
                                 (recipient_lines recipientsText);
                               SetButtonText previewSplitBtn
                                 (js "Execute Split")])
                             (results (fst gate)),
                           Normal
                             (Some (Armed.make
                                      (recipient_lines recipientsText)
                                      (SplitData.perPerson splitData)
                                      (trim memoValue))))
                      | Normal false => (fst gate, Normal None)
                      | Thrown error =>
                          (mkState srv (world (fst gate))
                             (trace (fst gate) ++
                              [ConsoleError (js "Split calculation error:")
                                 error;
                               Alert (js "Error calculating split. Please check your inputs.")])
                             (results (fst gate)),
                           Normal None)
                      | Suspended => (fst gate, Suspended)
                      end)))).
Proof.
  remember (previewSplit_click Number_toString decodeEd25519PublicKey srv
              (Some key) total recipientsText memoValue s) as run eqn:Hrun.
  unfold previewSplit_click in Hrun.
  destruct (JsString.truthy key) eqn:Hkey; cbn [negb] in Hrun;
    [ | left; eexists; rewrite Hrun; reflexivity ].
  change (filter (fun addr => Nat.ltb 0 (JsString.length addr))
            (map trim (split 10%N recipientsText)))
    with (recipient_lines recipientsText) in Hrun.
  destruct (JsString.truthy total) eqn:Htruthy; cbn [negb orb] in Hrun;
    [ | left; eexists; rewrite Hrun; reflexivity ].
  destruct (le (parseFloat_string total) (of_Z 0)) eqn:Hle;
    [ left; eexists; rewrite Hrun; reflexivity | ].
  destruct (Nat.eqb (List.length (recipient_lines recipientsText)) 0)
    eqn:Hempty; [ left; eexists; rewrite Hrun; reflexivity | ].
  assert (Hne : recipient_lines recipientsText <> [])
    by (intros Hnil; rewrite Hnil in Hempty; discriminate Hempty).
  pose proof (recipient_lines_trimmed recipientsText) as Htrimmed.
  destruct (forEach_address_spec decodeEd25519PublicKey
              (recipient_lines recipientsText) 0 (Validation.make [] []))
    as (errs & Hspec & Hlen & _).
  rewrite (map_trim_trimmed Htrimmed) in Hspec, Hlen.
  cbn [Validation.valid Validation.errors app] in Hspec.
  unfold bind at 1, validateParticipants in Hrun. rewrite Hspec in Hrun.
  unfold lift at 1, ret at 1 in Hrun.
  cbn [Validation.valid Validation.errors] in Hrun.
  destruct errs as [ | e errs ];
    cbn [List.length Nat.ltb Nat.leb] in Hrun;
    [ | left; eexists; rewrite Hrun; reflexivity ].
  cbn [List.length] in Hlen. rewrite Nat.add_0_r in Hlen.
  destruct (filter_keeps_all _ _ Hlen) as (Hall & Haccepted).
  rewrite Hall in Hrun. right.
  split; [ reflexivity | ]. split; [ reflexivity | ].
  split; [ exact Hne | ]. split; [ exact Haccepted | ].
  unfold try_catch, bind at 1 in Hrun.
  destruct (calculateSplit Number_toString (JsString total)
              (Some (of_nat (List.length (recipient_lines recipientsText)))))
    as [ splitData | error ]; unfold lift at 1 in Hrun.
  - right. exists splitData. split; [ reflexivity | ].
    unfold ret at 1, bind at 1 in Hrun. cbv zeta.
    destruct (validateBalanceForSplit Number_toString srv key
                (JsString total)
                (of_nat (List.length (recipient_lines recipientsText))) s)
      as [ final [ [ | ] | error | ] ]; cbn [negb fst snd] in Hrun |- *;
      unfold bind, emit, ret in Hrun; cbn [world trace results] in Hrun;
      rewrite <- ?app_assoc in Hrun; exact Hrun.
  - left. exists error. eexists. unfold throw, bind, emit, ret in Hrun.
    cbn [world trace results] in Hrun. rewrite <- app_assoc in Hrun.
    exact Hrun.
Qed.

(** X14. The click handler of the preview button never throws.  It
    asks the ledger at most once, for the account of the connected
    wallet, and asks no other collaborator; it arms the button only
    after that query; and it stays open only while that query does. *)
Theorem previewSplit_click_settles (publicKey : option jstring)
    (total recipientsText memoValue : jstring) (s : State srv) :
  exists final c evs,
    previewSplit_click Number_toString decodeEd25519PublicKey srv publicKey
      total recipientsText memoValue s = (final, c)
    /\ trace final = trace s ++ evs
    /\ (forall error, c <> Thrown error)
    /\ (calls evs = []
        \/ exists key, publicKey = Some key
                       /\ calls evs = [CallLoadAccount key])
    /\ (forall armed, c = Normal (Some armed) ->
        exists key, publicKey = Some key
                    /\ calls evs = [CallLoadAccount key])
    /\ (c = Suspended ->
        exists key, publicKey = Some key /\ evs = [CallLoadAccount key]).
Proof.
  destruct publicKey as [ key | ].
  2:{ do 3 eexists. split; [ reflexivity | ]. cbn [trace].
      split; [ reflexivity | ].
      split; [ discriminate | ].
      split; [ left; reflexivity | ].
      split; discriminate. }
  destruct (previewSplit_click_cases key total recipientsText memoValue s)
    as [ (text & Hrun)
       | (_ & _ & _ & _ & [ (error & text & Hrun)
                          | (splitData & _ & Hrun) ]) ];
    rewrite Hrun.
  - do 3 eexists. split; [ reflexivity | ]. cbn [trace].
    split; [ reflexivity | ].
    split; [ discriminate | ].
    split; [ left; reflexivity | ].
    split; discriminate.
  - do 3 eexists. split; [ reflexivity | ]. cbn [trace].
    split; [ reflexivity | ].
    split; [ discriminate | ].
    split; [ left; reflexivity | ].
    split; discriminate.
  - cbv zeta.
    pose proof (validateBalanceForSplit_gate Number_toString key
                  (JsString total)
                  (of_nat (List.length (recipient_lines recipientsText))) s)
      as Hgate.
    destruct (validateBalanceForSplit Number_toString srv key
                (JsString total)
                (of_nat (List.length (recipient_lines recipientsText))) s)
      as [ final c ].
    cbn [fst snd] in Hgate |- *.
    destruct Hgate
      as (_ & [ (-> & Htrace)
              | [ (-> & Htrace)
                | [ (-> & error & Htrace)
                  | (-> & required & available & shortfall & Htrace) ] ] ]);
      do 3 eexists; (split; [ reflexivity | ]); cbn [trace];
      rewrite Htrace, <- ?app_assoc;
      (split; [ reflexivity | ]);
      (split; [ discriminate | ]);
      (split; [ right; exists key; split; reflexivity | ]);
      split; try discriminate; intros; exists key; split; reflexivity.
Qed.

(** X15. When the preview handler arms the button, the recipients it
    arms it with are all the non-empty lines of the recipients field,
    trimmed, in their order: there is at least one, and each one passed
    the four tests of [validateParticipants].  The memo is the trimmed
    memo field, and the total field is not empty and not at or below
    zero. *)
Theorem previewSplit_click_arms_checked (publicKey : option jstring)
    (total recipientsText memoValue : jstring) (s : State srv)
    (armed : Armed.t) :
  snd (previewSplit_click Number_toString decodeEd25519PublicKey srv
         publicKey total recipientsText memoValue s)
  = Normal (Some armed) ->
  Armed.participants armed = recipient_lines recipientsText
  /\ Armed.participants armed <> []
  /\ Forall (fun a => accepts decodeEd25519PublicKey a = true
                      /\ trim a = a)
       (Armed.participants armed)
  /\ Armed.memo armed = trim memoValue
  /\ total <> []
  /\ le (parseFloat_string total) (of_Z 0) = false.
Proof.
  destruct publicKey as [ key | ]; [ | discriminate ].
  destruct (previewSplit_click_cases key total recipientsText memoValue s)
    as [ (text & Hrun)
       | (Htruthy & Hle & Hne & Hacc & [ (error & text & Hrun)
                                       | (splitData & _ & Hrun) ]) ];
    rewrite Hrun; try discriminate.
  cbv zeta.
  destruct (validateBalanceForSplit Number_toString srv key
              (JsString total)
              (of_nat (List.length (recipient_lines recipientsText))) s)
    as [ final [ [ | ] | error | ] ]; cbn [fst snd]; try discriminate.
  intros [= <-]. cbn [Armed.participants Armed.memo].
  split; [ reflexivity | ].
  split; [ exact Hne | ].
  split.
  { pose proof (recipient_lines_trimmed recipientsText) as Htrimmed.
    rewrite Forall_forall in Hacc, Htrimmed |- *.
    intros a Hin. split; [ apply Hacc | apply Htrimmed ]; exact Hin. }
  split; [ reflexivity | ].
  split; [ | exact Hle ].
  intros ->. discriminate Htruthy.
Qed.

(** X16. A total that does not read as a number passes the checks of
    the form, because [NaN <= 0] is false: when the handler then arms
    the button, the amount per person it arms it with is the text
    "NaN". *)
Theorem previewSplit_click_unparsed_total (publicKey : option jstring)
    (total recipientsText memoValue : jstring) (s : State srv)
    (armed : Armed.t) :
  parseFloat_string total = NaN ->
  snd (previewSplit_click Number_toString decodeEd25519PublicKey srv
         publicKey total recipientsText memoValue s)
  = Normal (Some armed) ->
  Armed.amountPerPerson armed = js "NaN".
Proof.
  intros Hnan.
  destruct publicKey as [ key | ]; [ | discriminate ].
  destruct (previewSplit_click_cases key total recipientsText memoValue s)
    as [ (text & Hrun)
       | (_ & _ & _ & _ & [ (error & text & Hrun)
                          | (splitData & Hsplit & Hrun) ]) ];
    rewrite Hrun; try discriminate.
  cbv zeta.
  destruct (validateBalanceForSplit Number_toString srv key
              (JsString total)
              (of_nat (List.length (recipient_lines recipientsText))) s)
    as [ final [ [ | ] | error | ] ]; cbn [fst snd]; try discriminate.
  intros [= <-]. cbn [Armed.amountPerPerson].
  rewrite (@calculateSplit_returns_inv _ _ _ _ Hsplit).
  cbn [SplitData.perPerson parseFloat]. rewrite Hnan.
  reflexivity.
Qed.

End SplitForm.

(** ** main.js: [executeSplitHandler] *)

Section SplitExecution.

Variable Number_toString : number -> jstring.
Variable sdk : Sdk.
Variable srv : Services sdk.

Local Abbreviation previewSplitBtn := (js "previewSplitBtn").

(** The state in which the handler calls [executeSplit]: the button
    has been set to loading. *)
Local Abbreviation started s :=
  (mkState srv (world s)
     (trace s ++ [SetButtonLoading previewSplitBtn true]) (results s)).

Lemma steps_no_button (publicKey : jstring) (amountPerPerson : js_value)
    (memo recipient : jstring) w (cs : list (Event sdk)) h w' (id : jstring)
    (l : bool) :
  stopped Number_toString srv publicKey amountPerPerson memo recipient w cs
    h w' ->
  ~ In (SetButtonLoading id l) cs.
Proof. destruct 1; cbn; intuition discriminate. Qed.

(** [executeSplit] does not touch the button. *)
Lemma settlement_no_button (publicKey : jstring) (amountPerPerson : js_value)
    (memo : jstring) total rest currentIndex w rs evs c w'
    (id : jstring) (l : bool) :
  settlement Number_toString srv publicKey amountPerPerson memo total rest
    currentIndex w rs evs c w' ->
  ~ In (SetButtonLoading id l) evs.
Proof.
  induction 1 as [ currentIndex w
                 | recipient rest currentIndex w cs hash w1 rs evs c w'
                     Hpaid _ IH
                 | recipient rest currentIndex w cs error text w' Hstop Htext
                 | recipient rest currentIndex w cs error typeError w' Hstop
                     Htext
                 | recipient rest currentIndex w cs w' Hstop ];
    intros Hin.
  - destruct Hin.
  - destruct Hin as [ Hin | Hin ]; [ discriminate Hin | ].
    apply in_app_or in Hin. destruct Hin as [ Hin | Hin ].
    + destruct Hpaid. cbn in Hin. intuition discriminate.
    + destruct Hin as [ Hin | Hin ]; [ discriminate Hin | exact (IH Hin) ].
  - destruct Hin as [ Hin | Hin ]; [ discriminate Hin | ].
    apply in_app_or in Hin. destruct Hin as [ Hin | Hin ].
    + exact (@steps_no_button _ _ _ _ _ _ _ _ _ _ Hstop Hin).
    + cbn in Hin. intuition discriminate.
  - destruct Hin as [ Hin | Hin ]; [ discriminate Hin | ].
    apply in_app_or in Hin. destruct Hin as [ Hin | Hin ].
    + exact (@steps_no_button _ _ _ _ _ _ _ _ _ _ Hstop Hin).
    + cbn in Hin. intuition discriminate.
  - destruct Hin as [ Hin | Hin ]; [ discriminate Hin | ].
    exact (@steps_no_button _ _ _ _ _ _ _ _ _ _ Hstop Hin).
Qed.

Ltac enter_handler :=
  unfold executeSplitHandler, setButtonLoading;
  cbn [JsString.truthy negb];
  unfold bind at 1, emit at 1; cbn [world trace results];
  unfold try_catch at 1, bind at 1.

(** The handler, after [executeSplit] returned [rs] in [final]. *)
Lemma executeSplitHandler_after (c0 : code_unit) (key' : jstring)
    (participants : list jstring) (amountPerPerson memo : jstring)
    (s final : State srv) (rs : list PaymentResult.t) :
  executeSplit Number_toString srv (c0 :: key') participants
    (JsString amountPerPerson) memo (started s) = (final, Normal rs) ->
  executeSplitHandler Number_toString srv (Some (c0 :: key')) participants
    amountPerPerson memo s
  = match loadAccount srv (c0 :: key') (world final) with
    | (w, Normal account) =>
        (mkState srv w
           (trace final ++
            [RenderSplitResults rs; CallLoadAccount (c0 :: key');
             SetBalanceDisplay
               (toFixed Number_toString
                  (parseFloat_string (native_balance account)) 2
                ++ js " XLM");
             InitializeHistory (c0 :: key');
             SetButtonText previewSplitBtn (js "Preview Split");
             SetButtonLoading previewSplitBtn false])
           (results final),
         Normal tt)
    | (w, Thrown error) =>
        (mkState srv w
           (trace final ++
            [RenderSplitResults rs; CallLoadAccount (c0 :: key');
             ConsoleError (js "Error refreshing balance:") error;
             ConsoleError (js "Split execution error:") error;
             Alert (js "Error executing split. See console for details.");
             SetButtonText previewSplitBtn (js "Preview Split");
             SetButtonLoading previewSplitBtn false])
           (results final),
         Normal tt)
    | (w, Suspended) =>
        (mkState srv w
           (trace final ++
            [RenderSplitResults rs; CallLoadAccount (c0 :: key')])
           (results final),
         Suspended)
    end.
Proof.
  intros Hsplit. enter_handler. rewrite Hsplit.
  unfold refreshBalance, try_catch, bind, await, emit, ret, throw.
  cbn [world trace results JsString.truthy].
  destruct (loadAccount srv (c0 :: key') (world final))
    as [ w [ account | error | ] ];
    cbn [world trace results]; rewrite <- ?app_assoc; reflexivity.
Qed.

(** The handler, when [executeSplit] throws. *)
Lemma executeSplitHandler_caught (c0 : code_unit) (key' : jstring)
    (participants : list jstring) (amountPerPerson memo : jstring)
    (s final : State srv) (error : thrown) :
  executeSplit Number_toString srv (c0 :: key') participants
    (JsString amountPerPerson) memo (started s) = (final, Thrown error) ->
  executeSplitHandler Number_toString srv (Some (c0 :: key')) participants
    amountPerPerson memo s
  = (mkState srv (world final)
       (trace final ++
        [ConsoleError (js "Split execution error:") error;
         Alert (js "Error executing split. See console for details.");
         SetButtonText previewSplitBtn (js "Preview Split");
         SetButtonLoading previewSplitBtn false])
       (results final),
     Normal tt).
Proof.
  intros Hsplit. enter_handler. rewrite Hsplit.
  unfold bind, emit, ret. cbn [world trace results].
  rewrite <- ?app_assoc. reflexivity.
Qed.

(** X17. [executeSplitHandler] never throws.  Without a connected
    wallet (the key is [null] or the empty string) it raises the alert
    box and does nothing else.  Otherwise it first sets the button to
    loading; when it comes to its end, it ends by setting the text of
    the button back to "Preview Split" and taking the loading state
    off, on either path of its [try].  When it does not come to its end,
    because a prompt or a query stays open, the button is left
    loading. *)
Theorem executeSplitHandler_releases_button (publicKey : option jstring)
    (participants : list jstring) (amountPerPerson memo : jstring)
    (s : State srv) :
  exists final c evs,
    executeSplitHandler Number_toString srv publicKey participants
      amountPerPerson memo s = (final, c)
    /\ trace final = trace s ++ evs
    /\ (((publicKey = None \/ publicKey = Some [])
         /\ c = Normal tt
         /\ evs = [Alert (js "Connect your wallet first.")])
        \/ (exists key evs0,
              publicKey = Some key
              /\ key <> []
              /\ evs = SetButtonLoading previewSplitBtn true :: evs0
              /\ ((c = Normal tt
                   /\ exists evs',
                        evs0 = evs' ++
                               [SetButtonText previewSplitBtn
                                  (js "Preview Split");
                                SetButtonLoading previewSplitBtn false])
                  \/ (c = Suspended
                      /\ forall l,
                           ~ In (SetButtonLoading previewSplitBtn l)
                               evs0)))).
Proof.
  destruct publicKey as [ [ | c0 key' ] | ].
  2: { set (key := c0 :: key').
  destruct (@executeSplit_settlement Number_toString sdk srv key
              (JsString amountPerPerson) memo participants (started s))
    as (w & evs & rs & c & Hsplit & Hshape).
  cbn [trace] in Hsplit. rewrite <- app_assoc in Hsplit.
  cbn [app] in Hsplit.
  assert (Hkey : key <> []) by discriminate.
  destruct c as [ [] | error | ]; cbn [finish] in Hsplit.
  - pose proof (executeSplitHandler_after _ _ _ _ _ _ Hsplit) as Hrun.
    fold key in Hrun. cbn [world trace results] in Hrun.
    destruct (loadAccount srv key w) as [ w' [ account | error | ] ].
    + do 3 eexists. split; [ exact Hrun | ]. cbn [trace].
      split; [ rewrite <- app_assoc; reflexivity | ].
      right. exists key. eexists. split; [ reflexivity | ].
      split; [ exact Hkey | ]. split; [ reflexivity | ].
      left. split; [ reflexivity | ].
      exists (evs ++
              [RenderSplitResults rs; CallLoadAccount key;
               SetBalanceDisplay
                 (toFixed Number_toString
                    (parseFloat_string (native_balance account)) 2
                  ++ js " XLM");
               InitializeHistory key]).
      rewrite <- app_assoc. reflexivity.
    + do 3 eexists. split; [ exact Hrun | ]. cbn [trace].
      split; [ rewrite <- app_assoc; reflexivity | ].
      right. exists key. eexists. split; [ reflexivity | ].
      split; [ exact Hkey | ]. split; [ reflexivity | ].
      left. split; [ reflexivity | ].
      exists (evs ++
              [RenderSplitResults rs; CallLoadAccount key;
               ConsoleError (js "Error refreshing balance:") error;
               ConsoleError (js "Split execution error:") error;
               Alert (js "Error executing split. See console for details.")]).
      rewrite <- app_assoc. reflexivity.
    + do 3 eexists. split; [ exact Hrun | ]. cbn [trace].
      split; [ rewrite <- app_assoc; reflexivity | ].
      right. exists key. eexists. split; [ reflexivity | ].
      split; [ exact Hkey | ]. split; [ reflexivity | ].
      right. split; [ reflexivity | ].
      intros l Hin. apply in_app_or in Hin. destruct Hin as [ Hin | Hin ].
      * exact (@settlement_no_button _ _ _ _ _ _ _ _ _ _ _ _ _ Hshape Hin).
      * cbn in Hin. intuition discriminate.
  - pose proof (executeSplitHandler_caught _ _ _ _ _ _ Hsplit) as Hrun.
    fold key in Hrun. cbn [world trace results] in Hrun.
    do 3 eexists. split; [ exact Hrun | ]. cbn [trace].
    split; [ rewrite <- app_assoc; reflexivity | ].
    right. exists key. eexists. split; [ reflexivity | ].
    split; [ exact Hkey | ]. split; [ reflexivity | ].
    left. split; [ reflexivity | ].
    exists (evs ++
            [ConsoleError (js "Split execution error:") error;
             Alert (js "Error executing split. See console for details.")]).
    rewrite <- app_assoc. reflexivity.
  - exists (mkState srv w
              (trace s ++ SetButtonLoading previewSplitBtn true :: evs) rs),
      Suspended, (SetButtonLoading previewSplitBtn true :: evs).
    split.
    { unfold key in *. enter_handler. rewrite Hsplit. reflexivity. }
    split; [ reflexivity | ].
    right. exists key, evs. split; [ reflexivity | ].
    split; [ exact Hkey | ]. split; [ reflexivity | ].
    right. split; [ reflexivity | ].
    intros l. exact (@settlement_no_button _ _ _ _ _ _ _ _ _ _ _ _ l Hshape).
  }
  - do 3 eexists. split; [ reflexivity | ]. cbn [trace].
    split; [ reflexivity | ]. left. auto.
  - do 3 eexists. split; [ reflexivity | ]. cbn [trace].
    split; [ reflexivity | ]. left. auto.
Qed.

(** X18. With a wallet connected, when [executeSplit] has returned and
    the account query of [refreshBalance] then fails, the handler has
    shown the results of the split and goes on to report "Error
    executing split. See console for details.", whatever the results
    are; the history is not refreshed and the button is reset. *)
Theorem executeSplitHandler_refresh_failure (key : jstring)
    (participants : list jstring) (amountPerPerson memo : jstring)
    (s final : State srv) (rs : list PaymentResult.t) w error :
  key <> [] ->
  executeSplit Number_toString srv key participants
    (JsString amountPerPerson) memo (started s) = (final, Normal rs) ->
  loadAccount srv key (world final) = (w, Thrown error) ->
  executeSplitHandler Number_toString srv (Some key) participants
    amountPerPerson memo s
  = (mkState srv w
       (trace final ++
        [RenderSplitResults rs; CallLoadAccount key;
         ConsoleError (js "Error refreshing balance:") error;
         ConsoleError (js "Split execution error:") error;
         Alert (js "Error executing split. See console for details.");
         SetButtonText previewSplitBtn (js "Preview Split");
         SetButtonLoading previewSplitBtn false])
       (results final),
     Normal tt).
Proof.
  intros Hkey Hsplit Hload.
  destruct key as [ | c0 key' ]; [ contradiction | ].
  pose proof (executeSplitHandler_after _ _ _ _ _ _ Hsplit) as Hrun.
  rewrite Hload in Hrun. exact Hrun.
Qed.

End SplitExecution.

(** ** main.js: from the preview to the payments *)

Section PreviewToPayments.

Variable Number_toString : number -> jstring.
Variable decodeEd25519PublicKey : jstring -> sync (list N).
Variable sdk : Sdk.
Variable srv : Services sdk.

Local Abbreviation previewSplitBtn := (js "previewSplitBtn").

(** A payment that was built took its amount text to
    [Operation.payment] as it is. *)
Lemma build_payment_pays (account : Account.t) (fee : number)
    (recipient amount memo : jstring) (transaction : Transaction sdk) :
  build_payment Number_toString sdk account fee recipient (JsString amount)
    memo
  = Returns transaction ->
  exists payment,
    Operation_payment sdk recipient native amount = Returns payment.
Proof.
  unfold build_payment.
  destruct (TransactionBuilder_new sdk account fee TESTNET)
    as [ builder | e ]; cbn [sync_bind toString]; [ | discriminate ].
  destruct (Operation_payment sdk recipient native amount)
    as [ payment | e ]; cbn [sync_bind]; [ | discriminate ].
  intros _. exists payment. reflexivity.
Qed.

(** What [executeSplitHandler] submits was signed by the wallet from a
    payment built for one of its participants with its amount. *)
Lemma executeSplitHandler_submissions (publicKey : option jstring)
    (participants : list jstring) (amountPerPerson memo : jstring)
    (s : State srv) :
  exists evs,
    trace (fst (executeSplitHandler Number_toString srv publicKey
                  participants amountPerPerson memo s))
    = trace s ++ evs
    /\ forall tx,
         In (CallSubmitTransaction tx) evs ->
         exists key recipient transaction,
           publicKey = Some key
           /\ In recipient participants
           /\ built_for Number_toString srv key (JsString amountPerPerson)
                memo recipient transaction
           /\ signed_from srv key transaction tx.
Proof.
  destruct publicKey as [ [ | c0 key' ] | ].
  2: { set (key := c0 :: key').
  destruct (@executeSplit_settlement Number_toString sdk srv key
              (JsString amountPerPerson) memo participants
              (mkState srv (world s)
                 (trace s ++ [SetButtonLoading previewSplitBtn true])
                 (results s)))
    as (w & evs & rs & c & Hsplit & Hshape).
  cbn [trace world] in Hsplit, Hshape.
  assert (Hsub : forall tx,
             In (CallSubmitTransaction tx) evs ->
             exists key0 recipient transaction,
               Some key = Some key0
               /\ In recipient participants
               /\ built_for Number_toString srv key0
                    (JsString amountPerPerson) memo recipient transaction
               /\ signed_from srv key0 transaction tx).
  { intros tx Hin.
    destruct (@settlement_submitted _ _ _ _ _ _ _ _ _ _ _ _ _ _ tx Hshape
                Hin)
      as (recipient & transaction & Hrec & Hbuilt & Hfrom & _).
    exists key, recipient, transaction. auto. }
  destruct c as [ [] | error | ]; cbn [finish] in Hsplit.
  - pose proof (executeSplitHandler_after Number_toString _ _ _ _ _ _
                  Hsplit) as Hrun.
    fold key in Hrun. cbn [world trace results] in Hrun.
    destruct (loadAccount srv key w) as [ w' [ account | error | ] ];
      rewrite <- !app_assoc in Hrun;
      apply (f_equal (fun r => trace (fst r))) in Hrun;
      cbn [fst trace] in Hrun; eexists; (split; [ exact Hrun | ]);
      intros tx Hin; cbn [app In] in Hin;
      destruct Hin as [ Hin | Hin ]; try discriminate Hin;
      apply in_app_or in Hin; destruct Hin as [ Hin | Hin ];
      try (apply Hsub; exact Hin);
      cbn [In] in Hin; intuition discriminate.
  - pose proof (executeSplitHandler_caught Number_toString _ _ _ _ _ _
                  Hsplit) as Hrun.
    fold key in Hrun. cbn [world trace results] in Hrun.
    rewrite <- !app_assoc in Hrun;
      apply (f_equal (fun r => trace (fst r))) in Hrun;
      cbn [fst trace] in Hrun; eexists; (split; [ exact Hrun | ]);
      intros tx Hin; cbn [app In] in Hin;
      destruct Hin as [ Hin | Hin ]; try discriminate Hin;
      apply in_app_or in Hin; destruct Hin as [ Hin | Hin ];
      try (apply Hsub; exact Hin);
      cbn [In] in Hin; intuition discriminate.
  - assert (Hrun : executeSplitHandler Number_toString srv (Some key)
                     participants amountPerPerson memo s
                   = (mkState srv w
                        ((trace s ++ [SetButtonLoading previewSplitBtn true])
                         ++ evs) rs,
                      Suspended)).
    { unfold key in *. unfold executeSplitHandler, setButtonLoading.
      cbn [JsString.truthy negb].
      unfold bind at 1, emit at 1. cbn [world trace results].
      unfold try_catch at 1, bind at 1. rewrite Hsplit. reflexivity. }
    rewrite <- !app_assoc in Hrun;
      apply (f_equal (fun r => trace (fst r))) in Hrun;
      cbn [fst trace] in Hrun; eexists; (split; [ exact Hrun | ]);
      intros tx Hin; cbn [app In] in Hin;
      destruct Hin as [ Hin | Hin ]; try discriminate Hin;
      apply Hsub; exact Hin. }
  - exists [Alert (js "Connect your wallet first.")].
    split; [ reflexivity | ].
    intros tx Hin. cbn in Hin. intuition discriminate.
  - exists [Alert (js "Connect your wallet first.")].
    split; [ reflexivity | ].
    intros tx Hin. cbn in Hin. intuition discriminate.
Qed.

(** C5, as the code has it.  When a click on the preview button arms
    the button, the amount it arms it with is the [perPerson] text of
    [calculateSplit] on the total and the number of valid recipients:
    the seven-digit quotient re-rounded to two digits, the same text
    the preview shows.  The seven-digit text is no part of what
    [calculateSplit] returns.  In the run of [executeSplitHandler] that
    the armed button starts, from whatever state, every transaction
    handed to the ledger is the signed form of a payment to one of the
    armed recipients for which [Operation.payment] was given that
    two-digit text as the amount. *)
Theorem preview_arms_displayed_amount (publicKey : option jstring)
    (total recipientsText memoValue : jstring) (s : State srv)
    (armed : Armed.t) :
  snd (previewSplit_click Number_toString decodeEd25519PublicKey srv
         publicKey total recipientsText memoValue s)
  = Normal (Some armed) ->
  exists splitData,
    calculateSplit Number_toString (JsString total)
      (Some (of_nat (List.length (Armed.participants armed))))
    = Returns splitData
    /\ Armed.amountPerPerson armed = SplitData.perPerson splitData
    /\ SplitData.perPerson splitData
       = toFixed Number_toString
           (parseFloat_string
              (toFixed Number_toString
                 (div (parseFloat_string total)
                    (of_nat (List.length (Armed.participants armed))))
                 7)) 2
    /\ In (RenderSplitPreview splitData (Armed.participants armed))
         (trace (fst (previewSplit_click Number_toString
                        decodeEd25519PublicKey srv publicKey total
                        recipientsText memoValue s)))
    /\ forall s' : State srv,
       exists evs,
         trace (fst (executeSplitHandler Number_toString srv publicKey
                       (Armed.participants armed)
                       (Armed.amountPerPerson armed) (Armed.memo armed) s'))
         = trace s' ++ evs
         /\ forall tx,
              In (CallSubmitTransaction tx) evs ->
              exists key recipient account fee transaction payment,
                publicKey = Some key
                /\ In recipient (Armed.participants armed)
                /\ Operation_payment sdk recipient native
                     (SplitData.perPerson splitData)
                   = Returns payment
                /\ build_payment Number_toString sdk account fee recipient
                     (JsString (SplitData.perPerson splitData))
                     (Armed.memo armed)
                   = Returns transaction
                /\ signed_from srv key transaction tx.
Proof.
  intros Harmed.
  destruct publicKey as [ key | ]; [ | discriminate Harmed ].
  destruct (previewSplit_click_cases Number_toString decodeEd25519PublicKey
              key total recipientsText memoValue s)
    as [ (text & Hrun)
       | (_ & _ & _ & _ & [ (error & text & Hrun)
                          | (splitData & Hsplit & Hrun) ]) ];
    rewrite Hrun in Harmed |- *; try discriminate Harmed.
  cbv zeta in Harmed |- *.
  destruct (validateBalanceForSplit Number_toString srv key
              (JsString total)
              (of_nat (List.length (recipient_lines recipientsText))) s)
    as [ final [ [ | ] | error | ] ]; cbn [fst snd] in Harmed |- *;
    try discriminate Harmed.
  injection Harmed as <-.
  cbn [Armed.participants Armed.amountPerPerson Armed.memo trace].
  exists splitData. split; [ exact Hsplit | ].
  split; [ reflexivity | ].
  split.
  { rewrite (@calculateSplit_returns_inv _ _ _ _ Hsplit). reflexivity. }
  split.
  { apply in_or_app. right. left. reflexivity. }
  intros s'.
  destruct (executeSplitHandler_submissions (Some key)
              (recipient_lines recipientsText)
              (SplitData.perPerson splitData) (trim memoValue) s')
    as (evs & Htrace & Hsub).
  exists evs. split; [ exact Htrace | ].
  intros tx Hin.
  destruct (Hsub tx Hin)
    as (key0 & recipient & transaction & Hkey & Hrec
        & (w0 & w1 & w2 & account & fee & _ & _ & Hbuild) & Hfrom).
  destruct (build_payment_pays _ _ _ _ _ Hbuild) as (payment & Hpay).
  exists key0, recipient, account, fee, transaction, payment. auto 7.
Qed.

End PreviewToPayments.

(** * The further properties at the test double *)

(** X1: three lines, the second one too short; the two accepted
    addresses come back unchanged. *)
Lemma validateParticipants_revalidate_witness :
  exists r,
    validateParticipants Double.decodeEd25519PublicKey
      [32%N :: Double.alice; js "GSHORT"; Double.bob] = Returns r
    /\ validateParticipants Double.decodeEd25519PublicKey (Validation.valid r)
       = Returns (Validation.make (Validation.valid r) []).
Proof.
  eexists. split.
  - vm_compute. reflexivity.
  - apply (@validateParticipants_revalidate Double.decodeEd25519PublicKey
             [32%N :: Double.alice; js "GSHORT"; Double.bob]).
    vm_compute. reflexivity.
Defined.

(** X9: the user approves the first payment and declines the second;
    the card counts one failure and shows the retry hint. *)
Lemma renderSplitResults_summary_witness :
  exists rs,
    snd Double.declined_run = Normal rs
    /\ failedCount rs = 1
    /\ retry_hint_shown rs = true.
Proof.
  eexists. split; [ vm_compute; reflexivity | ].
  match goal with
  | |- failedCount ?rs = 1 /\ _ =>
      destruct (@renderSplitResults_summary Double.Number_toString Double.sdk
                  Double.srv Double.payer Double.amount []
                  [Double.alice; Double.bob; Double.carol]
                  (Double.start (Double.funded [true; false; true])) rs)
        as [ (Hs & _) | (_ & Hf & Hr & _) ]
  end.
  - vm_compute. reflexivity.
  - vm_compute in Hs. discriminate Hs.
  - split; [ exact Hf | exact Hr ].
Defined.

(** X11: a balance of "10.0000000" against an amount of "40". *)
Lemma checkSufficientBalance_shortfall_witness :
  exists check,
    snd (checkSufficientBalance Double.Number_toString Double.srv
           Double.payer (JsString (js "40")) (of_Z 3)
           (Double.start (Double.funded []))) = Normal check
    /\ (BalanceCheck.sufficient check = true ->
        BalanceCheck.shortfall check = js "0").
Proof.
  destruct (@checkSufficientBalance_shortfall Double.Number_toString
              Double.sdk Double.srv Double.payer (JsString (js "40"))
              (of_Z 3) (Double.start (Double.funded [])) (Double.funded [])
              (Account.make Double.payer (js "1")
                 [BalanceLine.make (js "native") (js "10.0000000")]) eq_refl)
    as (check & Hrun & Hzero & _).
  exists check. split; [ exact Hrun | exact Hzero ].
Defined.

(** X12: the account of the test double has one line, the native
    one. *)
Lemma refreshBalance_first_native_line_witness :
  exists balance,
    snd (refreshBalance Double.Number_toString Double.srv Double.payer
           (Double.start (Double.funded [])))
    = Normal (parseFloat_string balance).
Proof.
  destruct (@refreshBalance_first_native_line Double.Number_toString
              Double.sdk Double.srv Double.payer (JsString (js "4"))
              (of_Z 3) (Double.start (Double.funded [])) (Double.funded [])
              (Account.make Double.payer (js "1")
                 [BalanceLine.make (js "native") (js "10.0000000")]) eq_refl)
    as (balance & Hrun & _).
  exists balance. rewrite Hrun. reflexivity.
Defined.

(** X15: the preview of ten for Alice, Bob and Carol. *)
Lemma previewSplit_click_arms_checked_witness :
  exists armed,
    snd Double.preview_run = Normal (Some armed)
    /\ Armed.participants armed = recipient_lines Double.recipients_text
    /\ Armed.memo armed = [].
Proof.
  eexists. split; [ vm_compute; reflexivity | ].
  match goal with
  | |- Armed.participants ?armed = _ /\ _ =>
      destruct (@previewSplit_click_arms_checked Double.Number_toString
                  Double.decodeEd25519PublicKey Double.sdk Double.srv
                  (Some Double.payer) (js "10") Double.recipients_text []
                  (Double.start (Double.wealthy [true; true; true])) armed)
        as (Hp & _ & _ & Hm & _)
  end.
  - vm_compute. reflexivity.
  - split; [ exact Hp | exact Hm ].
Defined.

(** X16: a total of "abc" while the ledger does not answer: the
    balance gate lets the preview pass, and the button is armed with
    "NaN". *)
Lemma previewSplit_click_unparsed_total_witness :
  exists armed,
    snd (previewSplit_click Double.Number_toString
           Double.decodeEd25519PublicKey Double.srv (Some Double.payer)
           (js "abc") Double.recipients_text []
           (Double.start Double.ledger_down))
    = Normal (Some armed)
    /\ Armed.amountPerPerson armed = js "NaN".
Proof.
  eexists. split; [ vm_compute; reflexivity | ].
  match goal with
  | |- Armed.amountPerPerson ?armed = _ =>
      apply (@previewSplit_click_unparsed_total Double.Number_toString
               Double.decodeEd25519PublicKey Double.sdk Double.srv
               (Some Double.payer) (js "abc") Double.recipients_text []
               (Double.start Double.ledger_down) armed)
  end.
  - vm_compute. reflexivity.
  - vm_compute. reflexivity.
Defined.

(** X18: the ledger does not answer at all; the one payment fails, its
    result is shown, and the handler reports an error of the split. *)
Lemma executeSplitHandler_refresh_failure_witness :
  exists final rs,
    executeSplit Double.Number_toString Double.srv Double.payer
      [Double.alice] (JsString (js "3.33")) []
      (mkState Double.srv Double.ledger_down
         [SetButtonLoading (js "previewSplitBtn") true] [])
    = (final, Normal rs)
    /\ snd (executeSplitHandler Double.Number_toString Double.srv
              (Some Double.payer) [Double.alice] (js "3.33") []
              (Double.start Double.ledger_down))
       = Normal tt.
Proof.
  do 2 eexists. split; [ vm_compute; reflexivity | ].
  match goal with
  | |- snd ?run = _ =>
      rewrite (@executeSplitHandler_refresh_failure Double.Number_toString
                 Double.sdk Double.srv Double.payer [Double.alice]
                 (js "3.33") [] (Double.start Double.ledger_down)
                 _ _ Double.ledger_down (ErrorObject (js "Network Error"))
                 ltac:(discriminate) eq_refl eq_refl)
  end.
  reflexivity.
Defined.

(** C5 at the test double: the preview of ten for three arms the button
    with the "3.33" that [calculateSplit] returns. *)
Lemma preview_arms_displayed_amount_witness :
  exists splitData,
    calculateSplit Double.Number_toString (JsString (js "10"))
      (Some (of_nat 3))
    = Returns splitData
    /\ js "3.33" = SplitData.perPerson splitData
    /\ In (RenderSplitPreview splitData
             [Double.alice; Double.bob; Double.carol])
         (trace (fst Double.preview_run)).
Proof.
  destruct (@preview_arms_displayed_amount Double.Number_toString
              Double.decodeEd25519PublicKey Double.sdk Double.srv
              (Some Double.payer) (js "10") Double.recipients_text []
              (Double.start (Double.wealthy [true; true; true]))
              (Armed.make [Double.alice; Double.bob; Double.carol]
                 (js "3.33") []))
    as (splitData & Hsplit & Hamount & _ & Hshown & _).
  - vm_compute. reflexivity.
  - exists splitData. split; [ exact Hsplit | ].
    split; [ exact Hamount | exact Hshown ].
Defined.

(** The decoder of the test double takes the four accounts and refuses
    an address with one character changed, or with a version byte that
    is not that of an account. *)
Example decodeEd25519PublicKey_checks :
  (forall a, In a [Double.payer; Double.alice; Double.bob; Double.carol] ->
             exists key, Double.decodeEd25519PublicKey a = Returns key)
  /\ Double.decodeEd25519PublicKey
       (js "GBFFKYDLO2AYZF5CVW4MHTWZ4TX7UBIQDMTDCPCHKJOWQ436RGKJ7CTG")
     = Raises (ErrorObject (js "invalid checksum"))
  /\ Double.decodeEd25519PublicKey
       (js "GALICEAAAAAAAAAAAAAAAAAAAAAAAAAAAAAAAAAAAAAAAAAAAAAAAAAA")
     = Raises (ErrorObject (js "invalid checksum")).
Proof.
  split; [ | split; vm_compute; reflexivity ].
  intros a [ <- | [ <- | [ <- | [ <- | [] ] ] ] ];
    eexists; vm_compute; reflexivity.
Qed.
